(** * Gavel Meeting Exporter: the meeting-record normalization engine

    A shallow embedding of [gavel_meeting_tool.py] and the properties of its
    slice aggregator, description builder, identifier generator, CSV
    formatters and range fetch.

    Modelling conventions.
    - A Python [str] is a Rocq [string] read as a sequence of ASCII
      characters: the character classes below (white space, digits, letter
      case) are Python's, restricted to code points below 128.
    - A JSON object with known keys is a record whose fields are [option]s:
      [None] is an absent key, [Some v] a present one.  [d.get(k, dflt)] is
      [default dflt (k d)].  A present key holds a value of the type the
      API gives it: a string, a Boolean for [MeetingCanceled], a list of
      slices for [MeetingSlices].
      The module [Wire] lifts this for the highlight of a slice, which
      it lets be JSON [null], and follows the broadcast formatter there
      with the exception it raises as an outcome of the call.
    - A Python [set] of strings is a [gset string], a [dict] keyed by
      strings a [gmap string _].
    - [try ... except ValueError] around [strptime] is a match on an
      [option]: [None] is the raised [ValueError].
    - [strftime] is that of CPython on the GNU C library: [%Y] writes
      the year without padding (three digits for year 999), the other
      directives used here always write two digits. *)

From Stdlib Require Import ZArith String Ascii List Lia Bool.
From stdpp Require Import base option list gmap sets strings.

Local Open Scope string_scope.
Local Open Scope Z_scope.

(* ===================================================================== *)
(** * Python string primitives *)
(* ===================================================================== *)

Module PyStr.

Definition code (c : ascii) : nat := nat_of_ascii c.

Definition in_range (lo hi : nat) (c : ascii) : bool :=
  (Nat.leb lo (code c)) && (Nat.leb (code c) hi).

(** [str.isspace] on ASCII: TAB, LF, VT, FF, CR, FS, GS, RS, US, SPACE. *)
Definition is_space (c : ascii) : bool := in_range 9 13 c || in_range 28 32 c.

Definition is_digit (c : ascii) : bool := in_range 48 57 c.
Definition is_upper (c : ascii) : bool := in_range 65 90 c.
Definition is_lower (c : ascii) : bool := in_range 97 122 c.

Definition to_lower (c : ascii) : ascii :=
  if is_upper c then ascii_of_nat (code c + 32) else c.

Definition to_upper (c : ascii) : ascii :=
  if is_lower c then ascii_of_nat (code c - 32) else c.

Fixpoint map_chars (f : ascii -> ascii) (s : string) : string :=
  match s with
  | EmptyString => EmptyString
  | String c s' => String (f c) (map_chars f s')
  end.

(** [s.lower()], [s.upper()] *)
Definition lower (s : string) : string := map_chars to_lower s.
Definition upper (s : string) : string := map_chars to_upper s.

(** [s.title()]: the first letter of every run of letters in upper case,
    the others in lower case. *)
Fixpoint title_from (previous_is_cased : bool) (s : string) : string :=
  match s with
  | EmptyString => EmptyString
  | String c s' =>
      let cased := is_lower c || is_upper c in
      String (if previous_is_cased then to_lower c else to_upper c)
             (title_from cased s')
  end.

Definition title (s : string) : string := title_from false s.

(** Truth value of a string: [bool(s)]. *)
Definition truthy (s : string) : bool :=
  match s with EmptyString => false | _ => true end.

(** [s.startswith(p)] *)
Fixpoint startswith (p s : string) : bool :=
  match p, s with
  | EmptyString, _ => true
  | String a p', String b s' => Ascii.eqb a b && startswith p' s'
  | String _ _, EmptyString => false
  end.

(** [p in s] *)
Fixpoint contains (p s : string) : bool :=
  startswith p s ||
  match s with
  | EmptyString => false
  | String _ s' => contains p s'
  end.

(** [s.endswith(p)] *)
Fixpoint endswith (p s : string) : bool :=
  String.eqb p s ||
  match s with
  | EmptyString => false
  | String _ s' => endswith p s'
  end.

(** [s.replace(old, new)] for a non-empty [old], as everywhere in the
    source: occurrences are found left to right and do not overlap.
    [skip] counts the characters of a matched occurrence still to drop. *)
Fixpoint replace_from (old new : string) (skip : nat) (s : string) : string :=
  match s with
  | EmptyString => EmptyString
  | String c s' =>
      match skip with
      | S k => replace_from old new k s'
      | O =>
          if startswith old s
          then new ++ replace_from old new (String.length old - 1) s'
          else String c (replace_from old new 0 s')
      end
  end.

Definition replace (old new s : string) : string := replace_from old new 0 s.

(** [s.lstrip()], [s.rstrip()], [s.strip()] *)
Fixpoint lstrip (s : string) : string :=
  match s with
  | EmptyString => EmptyString
  | String c s' => if is_space c then lstrip s' else s
  end.

Fixpoint rstrip (s : string) : string :=
  match s with
  | EmptyString => EmptyString
  | String c s' =>
      match rstrip s' with
      | EmptyString => if is_space c then EmptyString else String c EmptyString
      | r => String c r
      end
  end.

Definition strip (s : string) : string := rstrip (lstrip s).

(** [s[:-n]] *)
Definition drop_last (n : nat) (s : string) : string :=
  String.substring 0 (String.length s - n) s.

(** [sep.join(l)] *)
Fixpoint join (sep : string) (l : list string) : string :=
  match l with
  | [] => EmptyString
  | x :: tl =>
      match tl with
      | [] => x
      | _ => x ++ sep ++ join sep tl
      end
  end.

End PyStr.

(* ===================================================================== *)
(** * The [datetime] library: parsing, printing, day arithmetic *)
(* ===================================================================== *)

Module PyDate.
Import PyStr.

Record datetime := mk_datetime {
  year : Z; month : Z; day : Z; hour : Z; minute : Z; second : Z
}.

(** ** The regular expressions [strptime] compiles a format into *)

Inductive regex :=
| Lit (c : ascii)
| Class (p : ascii -> bool)
| Cat (r1 r2 : regex)
| Or (r1 r2 : regex)
| Plus (p : ascii -> bool).

(** One or more characters of a class, greedy: the longest run first. *)
Fixpoint plus_class (p : ascii -> bool) (s : string) : list string :=
  match s with
  | EmptyString => []
  | String c s' => if p c then plus_class p s' ++ [s'] else []
  end.

(** A backtracking matcher: the remainders of [s] after each way of
    matching [r] at its start, in the engine's order of preference. *)
Fixpoint rmatch (r : regex) (s : string) : list string :=
  match r with
  | Lit c =>
      match s with
      | String d s' => if Ascii.eqb c d then [s'] else []
      | EmptyString => []
      end
  | Class p =>
      match s with
      | String d s' => if p d then [s'] else []
      | EmptyString => []
      end
  | Cat r1 r2 => concat (map (rmatch r2) (rmatch r1 s))
  | Or r1 r2 => rmatch r1 s ++ rmatch r2 s
  | Plus p => plus_class p s
  end.

Definition chr (n : nat) : ascii := ascii_of_nat n.
Definition digit : regex := Class is_digit.
Definition digits (lo hi : nat) : regex := Class (in_range (48 + lo) (48 + hi)).
Definition dig (n : nat) : regex := Lit (chr (48 + n)).

Inductive directive := dY | dm | dd | dH | dM | dS.

(** The pattern of each directive, as in [_strptime.TimeRE]. *)
Definition directive_regex (d : directive) : regex :=
  match d with
  | dY => Cat digit (Cat digit (Cat digit digit))
  | dm => Or (Cat (dig 1) (digits 0 2)) (Or (Cat (dig 0) (digits 1 9)) (digits 1 9))
  | dd => Or (Cat (dig 3) (digits 0 1))
         (Or (Cat (digits 1 2) digit)
         (Or (Cat (dig 0) (digits 1 9))
         (Or (digits 1 9)
             (Cat (Lit (chr 32)) (digits 1 9)))))
  | dH => Or (Cat (dig 2) (digits 0 3)) (Or (Cat (digits 0 1) digit) digit)
  | dM => Or (Cat (digits 0 5) digit) digit
  | dS => Or (Cat (dig 6) (digits 0 1)) (Or (Cat (digits 0 5) digit) digit)
  end.

(** A format string, item by item: a directive, a literal character, or
    white space (which matches one or more white-space characters). *)
Inductive fmt_item := FDir (d : directive) | FChar (c : ascii) | FSpace.

(** The text consumed between [s] and its remainder [rest]. *)
Definition consumed (s rest : string) : string :=
  String.substring 0 (String.length s - String.length rest) s.

(** [format_regex.match(data)]: every way to match, with the groups found. *)
Fixpoint fmatch (fmt : list fmt_item) (s : string)
  : list (list (directive * string) * string) :=
  match fmt with
  | [] => [([], s)]
  | FDir d :: tl =>
      concat (map (fun rest =>
                     map (fun fr => ((d, consumed s rest) :: fst fr, snd fr))
                         (fmatch tl rest))
                  (rmatch (directive_regex d) s))
  | FChar c :: tl => concat (map (fmatch tl) (rmatch (Lit c) s))
  | FSpace :: tl => concat (map (fmatch tl) (rmatch (Plus is_space) s))
  end.

(** [int(s)] on an optional blank followed by decimal digits. *)
Fixpoint int_from (acc : Z) (s : string) : Z :=
  match s with
  | EmptyString => acc
  | String c s' =>
      if is_digit c then int_from (10 * acc + Z.of_nat (code c - 48)) s'
      else int_from acc s'
  end.

Definition int (s : string) : Z := int_from 0 s.

Definition is_leap (y : Z) : bool :=
  (y mod 4 =? 0) && (negb (y mod 100 =? 0) || (y mod 400 =? 0)).

Definition days_in_month (y m : Z) : Z :=
  if m =? 2 then (if is_leap y then 29 else 28)
  else if (m =? 4) || (m =? 6) || (m =? 9) || (m =? 11) then 30
  else 31.

(** What the [datetime] constructor accepts; anything else is a
    [ValueError]. *)
Definition valid (dt : datetime) : bool :=
  (1 <=? year dt) && (year dt <=? 9999) &&
  (1 <=? month dt) && (month dt <=? 12) &&
  (1 <=? day dt) && (day dt <=? days_in_month (year dt) (month dt)) &&
  (0 <=? hour dt) && (hour dt <=? 23) &&
  (0 <=? minute dt) && (minute dt <=? 59) &&
  (0 <=? second dt) && (second dt <=? 59).

Definition set_field (dt : datetime) (f : directive * string) : datetime :=
  let v := int (snd f) in
  match fst f with
  | dY => mk_datetime v (month dt) (day dt) (hour dt) (minute dt) (second dt)
  | dm => mk_datetime (year dt) v (day dt) (hour dt) (minute dt) (second dt)
  | dd => mk_datetime (year dt) (month dt) v (hour dt) (minute dt) (second dt)
  | dH => mk_datetime (year dt) (month dt) (day dt) v (minute dt) (second dt)
  | dM => mk_datetime (year dt) (month dt) (day dt) (hour dt) v (second dt)
  | dS => mk_datetime (year dt) (month dt) (day dt) (hour dt) (minute dt) v
  end.

(** [datetime.datetime.strptime(data, fmt)]; [None] is a [ValueError]
    (no match, unconverted data left over, or an out-of-range field). *)
Definition strptime (data : string) (fmt : list fmt_item) : option datetime :=
  match fmatch fmt data with
  | [] => None
  | (found, rest) :: _ =>
      if truthy rest then None
      else
        let dt := fold_left set_field found (mk_datetime 1900 1 1 0 0 0) in
        if valid dt then Some dt else None
  end.

(** ["%m/%d/%Y"] and ["%Y-%m-%d %H:%M:%S"] *)
Definition fmt_mdY : list fmt_item :=
  [FDir dm; FChar (chr 47); FDir dd; FChar (chr 47); FDir dY].

Definition fmt_Ymd_HMS : list fmt_item :=
  [FDir dY; FChar (chr 45); FDir dm; FChar (chr 45); FDir dd; FSpace;
   FDir dH; FChar (chr 58); FDir dM; FChar (chr 58); FDir dS].

(** ** Printing *)

Definition digit_char (n : Z) : ascii := chr (48 + Z.to_nat (n mod 10)).

(** [n] in decimal, zero-padded to [w] digits. *)
Fixpoint zpad (w : nat) (n : Z) : string :=
  match w with
  | O => EmptyString
  | S w' => zpad w' (n / 10) ++ String (digit_char n) EmptyString
  end.

(** [%Y], as the C library's [strftime] writes the year of a [datetime]
    (1 to 9999): in decimal and without padding, so that 999 gives
    ["999"] where [%m], [%d], [%H], [%I], [%M] and [%S] always give two
    digits. *)
Definition year_text (y : Z) : string :=
  if y <? 10 then zpad 1 y
  else if y <? 100 then zpad 2 y
  else if y <? 1000 then zpad 3 y
  else zpad 4 y.

(** [dt.strftime("%m/%d/%Y")] *)
Definition strftime_mdY (dt : datetime) : string :=
  zpad 2 (month dt) ++ "/" ++ zpad 2 (day dt) ++ "/" ++ year_text (year dt).

(** [dt.strftime("%Y-%m-%d %H:%M:%S")] *)
Definition strftime_Ymd_HMS (dt : datetime) : string :=
  year_text (year dt) ++ "-" ++ zpad 2 (month dt) ++ "-" ++ zpad 2 (day dt)
  ++ " " ++ zpad 2 (hour dt) ++ ":" ++ zpad 2 (minute dt) ++ ":" ++ zpad 2 (second dt).

Definition hour12 (h : Z) : Z := if h mod 12 =? 0 then 12 else h mod 12.
Definition am_pm (h : Z) : string := if h <? 12 then "AM" else "PM".

(** [dt.strftime("%Y-%m-%d %I:%M %p")] *)
Definition strftime_Ymd_IMp (dt : datetime) : string :=
  year_text (year dt) ++ "-" ++ zpad 2 (month dt) ++ "-" ++ zpad 2 (day dt)
  ++ " " ++ zpad 2 (hour12 (hour dt)) ++ ":" ++ zpad 2 (minute dt)
  ++ " " ++ am_pm (hour dt).

(** ** Day arithmetic *)

Definition days_before_year (y : Z) : Z :=
  let y' := y - 1 in y' * 365 + y' / 4 - y' / 100 + y' / 400.

Fixpoint days_before_month_from (y : Z) (n : nat) : Z :=
  match n with
  | O => 0
  | S n' => days_before_month_from y n' + days_in_month y (Z.of_nat n)
  end.

Definition days_before_month (y m : Z) : Z :=
  days_before_month_from y (Z.to_nat (m - 1)).

(** [dt.toordinal()] *)
Definition toordinal (dt : datetime) : Z :=
  days_before_year (year dt) + days_before_month (year dt) (month dt) + day dt.

Definition seconds_of_day (dt : datetime) : Z :=
  (hour dt * 60 + minute dt) * 60 + second dt.

(** [(b - a).days]: the whole days of the difference, rounded down. *)
Definition days_between (a b : datetime) : Z :=
  ((toordinal b - toordinal a) * 86400 + (seconds_of_day b - seconds_of_day a)) / 86400.

(** [a <= b] on datetimes: field by field. *)
Definition key (dt : datetime) : list Z :=
  [year dt; month dt; day dt; hour dt; minute dt; second dt].

Fixpoint lex_le (a b : list Z) : bool :=
  match a, b with
  | x :: a', y :: b' => (x <? y) || ((x =? y) && lex_le a' b')
  | [], _ => true
  | _ :: _, [] => false
  end.

Definition le (a b : datetime) : bool := lex_le (key a) (key b).

(** [dt + datetime.timedelta(days=1)]; [None] is the [OverflowError]
    past 9999-12-31. *)
Definition add_day (dt : datetime) : option datetime :=
  if day dt <? days_in_month (year dt) (month dt)
  then Some (mk_datetime (year dt) (month dt) (day dt + 1) (hour dt) (minute dt) (second dt))
  else if month dt <? 12
  then Some (mk_datetime (year dt) (month dt + 1) 1 (hour dt) (minute dt) (second dt))
  else if year dt <? 9999
  then Some (mk_datetime (year dt + 1) 1 1 (hour dt) (minute dt) (second dt))
  else None.

End PyDate.

(* ===================================================================== *)
(** * Data model *)
(* ===================================================================== *)

Import PyStr.

(** One agenda-item fragment of a meeting. *)
Record Slice := mk_slice {
  BillRoot : option string;
  SliceHighliteText : option string;
  ShortTitle : option string
}.

(** A raw meeting record, as delivered by the BASIS API. *)
Record Meeting := mk_meeting {
  Chamber : option string;
  MeetingTitle : option string;
  SponsorType : option string;
  MeetingSponsor : option string;
  MeetingDate : option string;
  MeetingTime : option string;
  Location : option string;
  MeetingCanceled : option bool;
  MeetingSlices : option (list Slice);
  display_date : option string
}.

(** [{"bill": ..., "details": [...]}] *)
Record BillDetailGroup := mk_group {
  bill : string;
  details : list string
}.

(** [o == s] for the result [o] of a [dict.get] without default. *)
Definition is_str (o : option string) (s : string) : bool :=
  match o with
  | Some x => String.eqb x s
  | None => false
  end.

(** Truth value of an optional string: [None] and [""] are false. *)
Definition opt_truthy (o : option string) : bool :=
  match o with
  | Some x => truthy x
  | None => false
  end.

Definition nonempty {A} (l : list A) : bool :=
  match l with [] => false | _ => true end.

(* ===================================================================== *)
(** * Field extractors *)
(* ===================================================================== *)

Definition get_chamber (meeting : Meeting) : option string :=
  let chamber := Chamber meeting in
  if is_str chamber "S" then Some "Senate"
  else if is_str chamber "H" then Some "House"
  else None.

Definition build_title (meeting : Meeting) : string :=
  let title := default "" (MeetingTitle meeting) in
  if negb (truthy title) then ""
  else
    let chamber := get_chamber meeting in
    let committee := PyStr.title title in
    let sponsor_type := SponsorType meeting in
    if is_str sponsor_type "Standing Committee" && opt_truthy chamber
    then default "" chamber ++ " " ++ committee ++ " Committee"
    else if is_str sponsor_type "Special Committee" && opt_truthy chamber
    then default "" chamber ++ " " ++ committee ++ " Special Committee"
    else if is_str sponsor_type "Finance SubCommittee" && opt_truthy chamber
    then default "" chamber ++ " Finance: " ++ committee ++ " Subcommittee"
    else PyStr.title title.

Definition generate_custom_id (meeting : Meeting) : string :=
  let date_str := default "" (MeetingDate meeting) in
  let time_str := default "" (MeetingTime meeting) in
  if negb (truthy date_str) || negb (truthy time_str) then "unknown"
  else
    let chamber := default "" (Chamber meeting) in
    let sponsor := default "" (MeetingSponsor meeting) in
    chamber ++ "-" ++ sponsor ++ replace "-" "" date_str ++ replace ":" "" time_str.

(* ===================================================================== *)
(** * Slice aggregator *)
(* ===================================================================== *)

(** ["MEETING CANCELED" not in highlight_text.upper()] *)
Definition not_cancel_marker (highlight_text : string) : bool :=
  negb (contains "MEETING CANCELED" (upper highlight_text)).

(** The variables of the first loop of [extract_bills_with_details]. *)
Record AggState := mk_agg {
  bill_details : list BillDetailGroup;
  current_bill : option string;
  current_details : list string;
  used_details : gset string
}.

Definition agg_init : AggState := mk_agg [] None [] ∅.

(** [if current_bill and current_details: bill_details.append(...)] *)
Definition flush (st : AggState) : list BillDetailGroup :=
  if opt_truthy (current_bill st) && nonempty (current_details st)
  then bill_details st ++ [mk_group (default "" (current_bill st)) (current_details st)]
  else bill_details st.

(** One iteration of the first loop. *)
Definition agg_step (st : AggState) (slice : Slice) : AggState :=
  let bill_root := default "" (BillRoot slice) in
  let highlight_text := default "" (SliceHighliteText slice) in
  if negb (truthy bill_root) && negb (truthy highlight_text) then st
  else
    let st1 :=
      if truthy bill_root && negb (is_str (current_bill st) bill_root)
      then mk_agg (flush st) (Some bill_root) [] (used_details st)
      else st in
    if opt_truthy (current_bill st1) && truthy highlight_text
       && not_cancel_marker highlight_text
    then
      if negb (truthy bill_root && String.eqb bill_root highlight_text)
      then mk_agg (bill_details st1) (current_bill st1)
                  (current_details st1 ++ [highlight_text])
                  ({[highlight_text]} ∪ used_details st1)
      else st1
    else st1.

Definition agg_run (slices : list Slice) : AggState :=
  fold_left agg_step slices agg_init.

(** One iteration of the second loop, over the slices with no bill. *)
Definition general_step (used : gset string) (general_items : list string)
  (slice : Slice) : list string :=
  let bill_root := default "" (BillRoot slice) in
  let highlight_text := default "" (SliceHighliteText slice) in
  if negb (truthy bill_root) && truthy highlight_text
     && not_cancel_marker highlight_text
  then
    if bool_decide (highlight_text ∉ used)
       && bool_decide (highlight_text ∉ general_items)
    then general_items ++ [highlight_text]
    else general_items
  else general_items.

Definition extract_bills_with_details (meeting : Meeting)
  : list BillDetailGroup * list string :=
  let meeting_slices := default [] (MeetingSlices meeting) in
  let st := agg_run meeting_slices in
  let bill_details := flush st in
  let general_items :=
    fold_left (general_step (used_details st)) meeting_slices [] in
  (bill_details, general_items).

(** A meeting that has only slices. *)
Definition meeting_of_slices (slices : list Slice) : Meeting :=
  mk_meeting None None None None None None None None (Some slices) None.

(* ===================================================================== *)
(** * Description builder *)
(* ===================================================================== *)

(** The loop that looks a bill's short title up: the first slice of the
    bill that has the key decides, then [break]. *)
Fixpoint find_short_title (bill : string) (slices : list Slice) : string :=
  match slices with
  | [] => ""
  | slice :: rest =>
      if is_str (BillRoot slice) bill && bool_decide (is_Some (ShortTitle slice))
      then default "" (ShortTitle slice)
      else find_short_title bill rest
  end.

(** The text of one bill group. *)
Definition bill_text (meeting : Meeting) (item : BillDetailGroup) : string :=
  if nonempty (details item)
  then
    let short_title :=
      find_short_title (bill item) (default [] (MeetingSlices meeting)) in
    (if truthy short_title then bill item ++ " " ++ short_title else bill item)
    ++ " " ++ join " " (details item)
  else bill item.

Definition streaming_info : string := "**Streamed live on AKL.tv**".

(** [while " | |" in description: description = description.replace(" | |", " |")];
    every round shortens the text, so its length bounds the rounds. *)
Fixpoint collapse_separators (fuel : nat) (description : string) : string :=
  match fuel with
  | O => description
  | S fuel' =>
      if contains " | |" description
      then collapse_separators fuel' (replace " | |" " |" description)
      else description
  end.

(** The [if for_csv:] block of [build_description]. *)
Definition strip_streaming_info (description : string) : string :=
  let description :=
    strip (replace " |  | " " | " (replace streaming_info "" description)) in
  let description := collapse_separators (String.length description) description in
  if endswith " | " description then drop_last 3 description else description.

Definition build_description (meeting : Meeting) (for_csv : bool) : string :=
  let description_parts :=
    if default false (MeetingCanceled meeting)
    then ["** MEETING CANCELED **"] else [] in
  let '(bill_details, general_items) := extract_bills_with_details meeting in
  let description_parts :=
    if nonempty bill_details
    then (description_parts
          ++ [("Bills: " ++ join ", " (map (bill_text meeting) bill_details))%string])%list
    else description_parts in
  let description_parts :=
    if nonempty general_items
    then (description_parts ++ [join " | " general_items])%list
    else description_parts in
  let description := join " | " description_parts in
  if for_csv then strip_streaming_info description else description.

(* ===================================================================== *)
(** * Event filter *)
(* ===================================================================== *)

Definition should_skip_event (meeting : Meeting) : bool :=
  existsb (fun slice =>
             String.eqb (lower (strip (default "" (SliceHighliteText slice))))
                        "no meeting scheduled")
          (default [] (MeetingSlices meeting)).

(* ===================================================================== *)
(** * CSV row formatters *)
(* ===================================================================== *)

Import PyDate.

(** [csv.writer(output, quoting=csv.QUOTE_ALL)]: every field between
    quotes, quotes inside a field doubled, rows ended by CR LF. *)
Definition quote_char : string := String (chr 34) EmptyString.
Definition line_end : string := String (chr 13) (String (chr 10) EmptyString).

Definition csv_field (field : string) : string :=
  quote_char ++ replace quote_char (quote_char ++ quote_char) field ++ quote_char.

Definition writerow (row : list string) : string :=
  join "," (map csv_field row) ++ line_end.

Definition write_rows (rows : list (list string)) : string :=
  fold_left (fun output row => output ++ writerow row) rows "".

(** [f"{date_str} {time_str}"] *)
Definition date_time_text (date_str time_str : string) : string :=
  date_str ++ " " ++ time_str.

(** ** Generic dialect *)

Definition csv_fields (include_date : bool) : list string :=
  let fields := ["title"; "status"; "location"; "time"; "bills"; "description"] in
  if include_date then "date" :: fields else fields.

(** The [time] column of the generic dialect. *)
Definition formatted_time (meeting : Meeting) : string :=
  let time_str := default "" (MeetingTime meeting) in
  let date_str := default "" (MeetingDate meeting) in
  if truthy date_str && truthy time_str
  then
    match strptime (date_time_text date_str time_str) fmt_Ymd_HMS with
    | Some dt => strftime_Ymd_IMp dt
    | None => date_time_text date_str time_str
    end
  else "".

(** The body of the loop of [format_meetings_csv]: the row of a meeting,
    or [None] where the loop continues without writing. *)
Definition csv_row (include_date : bool) (meeting : Meeting) : option (list string) :=
  if should_skip_event meeting then None
  else
    let title := build_title meeting in
    let location := default "No Location" (Location meeting) in
    let canceled := default false (MeetingCanceled meeting) in
    let status := if canceled then "CANCELED" else "Active" in
    let formatted_time := formatted_time meeting in
    let bill_details := fst (extract_bills_with_details meeting) in
    let bills_str :=
      if nonempty bill_details then join ", " (map bill bill_details) else "" in
    let description := build_description meeting true in
    let row := [title; status; location; formatted_time; bills_str; description] in
    Some (if include_date then default "" (display_date meeting) :: row else row).

Definition format_meetings_csv_rows (meetings : list Meeting) (include_date : bool)
  : list (list string) :=
  csv_fields include_date :: omap (csv_row include_date) meetings.

Definition format_meetings_csv (meetings : list Meeting) (include_date : bool) : string :=
  write_rows (format_meetings_csv_rows meetings include_date).

(** The value of the column named [name] in a row laid out as [fields]. *)
Fixpoint column (name : string) (fields row : list string) : option string :=
  match fields, row with
  | f :: fields', v :: row' =>
      if String.eqb f name then Some v else column name fields' row'
  | _, _ => None
  end.

(** ** Broadcast dialect *)

Definition invintus_fields : list string :=
  ["title"; "customID"; "startDateTime"; "description"; "encoder"; "category";
   "location"; "estRuntime"; "liveToBreak"].

(** The body of the loop of [format_meetings_invintus_csv]. *)
Definition invintus_row (encoders categories : gmap string string)
  (runtime : string) (live_to_break : bool) (meeting : Meeting)
  : option (list string) :=
  let live_to_break_value := if live_to_break then "TRUE" else "FALSE" in
  if should_skip_event meeting then None
  else
    let date_str := default "" (MeetingDate meeting) in
    let time_str := default "" (MeetingTime meeting) in
    if negb (truthy date_str) || negb (truthy time_str) then None
    else
      match strptime (date_time_text date_str time_str) fmt_Ymd_HMS with
      | None => None
      | Some dt =>
          let start_datetime := strftime_Ymd_HMS dt in
          let title := build_title meeting in
          let custom_id := generate_custom_id meeting in
          match encoders !! custom_id with
          | None => None
          | Some selected =>
              let description := build_description meeting true in
              let encoder := if truthy selected then selected else "" in
              let category := default "Gavel Alaska" (categories !! custom_id) in
              let location := default "" (Location meeting) in
              Some [title; custom_id; start_datetime; description; encoder;
                    category; location; runtime; live_to_break_value]
          end
      end.

Definition format_meetings_invintus_rows (meetings : list Meeting)
  (encoders categories : gmap string string) (runtime : string)
  (live_to_break : bool) : list (list string) :=
  omap (invintus_row encoders categories runtime live_to_break) meetings.

Definition format_meetings_invintus_csv (meetings : list Meeting)
  (encoders categories : gmap string string) (runtime : string)
  (live_to_break : bool) : string :=
  write_rows (invintus_fields
              :: format_meetings_invintus_rows meetings encoders categories
                   runtime live_to_break).

(* ===================================================================== *)
(** * Records whose highlights may be null *)
(* ===================================================================== *)

(** The records above hold a text under every key that is present.  The
    API may also send JSON [null] under a key, and for the highlight of a
    slice the formatters can tell: the event filter calls [.strip()] on
    what [slice.get("SliceHighliteText", "")] returns, which raises an
    [AttributeError] on [None].  This module follows the broadcast
    formatter on records whose highlights may be null, with what a call
    raises made explicit. *)
Module Wire.

(** The value under a key that holds a text or [null]. *)
Inductive JsonText :=
| JsonNull
| JsonString (text : string).

Record RawSlice := mk_raw_slice {
  raw_BillRoot : option string;
  raw_SliceHighliteText : option JsonText;
  raw_ShortTitle : option string
}.

Record RawMeeting := mk_raw_meeting {
  raw_Chamber : option string;
  raw_MeetingTitle : option string;
  raw_SponsorType : option string;
  raw_MeetingSponsor : option string;
  raw_MeetingDate : option string;
  raw_MeetingTime : option string;
  raw_Location : option string;
  raw_MeetingCanceled : option bool;
  raw_MeetingSlices : option (list RawSlice);
  raw_display_date : option string
}.

(** How a call ends: it returns a value or raises an exception. *)
Inductive Outcome (A : Type) :=
| Returned (value : A)
| Raised (exception : string).

Arguments Returned {A} value.
Arguments Raised {A} exception.

(** The loop of [should_skip_event]: it returns at the first highlight
    that reads "no meeting scheduled", and raises at the first one that is
    null. *)
Fixpoint skip_loop (meeting_slices : list RawSlice) : Outcome bool :=
  match meeting_slices with
  | [] => Returned false
  | slice :: rest =>
      match default (JsonString "") (raw_SliceHighliteText slice) with
      | JsonNull => Raised "AttributeError"
      | JsonString text =>
          if String.eqb (lower (strip text)) "no meeting scheduled"
          then Returned true
          else skip_loop rest
      end
  end.

Definition raw_should_skip_event (meeting : RawMeeting) : Outcome bool :=
  skip_loop (default [] (raw_MeetingSlices meeting)).

(** The record as the functions that only test a highlight for truth
    read it: to them [null] is as good as the empty text. *)
Definition text_of_json (value : JsonText) : string :=
  match value with
  | JsonNull => ""
  | JsonString text => text
  end.

Definition slice_of (slice : RawSlice) : Slice :=
  mk_slice (raw_BillRoot slice)
           (option_map text_of_json (raw_SliceHighliteText slice))
           (raw_ShortTitle slice).

Definition meeting_of (meeting : RawMeeting) : Meeting :=
  mk_meeting (raw_Chamber meeting) (raw_MeetingTitle meeting)
             (raw_SponsorType meeting) (raw_MeetingSponsor meeting)
             (raw_MeetingDate meeting) (raw_MeetingTime meeting)
             (raw_Location meeting) (raw_MeetingCanceled meeting)
             (option_map (map slice_of) (raw_MeetingSlices meeting))
             (raw_display_date meeting).

(** The body of the loop of [format_meetings_invintus_csv]: it raises
    what the event filter raises, and otherwise continues ([None]) or
    writes a row.  Nothing after the filter raises: the [ValueError] of
    [strptime] is caught, and the key of [encoders] is looked up only
    after the test that it is there. *)
Definition raw_invintus_row (encoders categories : gmap string string)
  (runtime : string) (live_to_break : bool) (meeting : RawMeeting)
  : Outcome (option (list string)) :=
  let live_to_break_value := if live_to_break then "TRUE" else "FALSE" in
  match raw_should_skip_event meeting with
  | Raised exception => Raised exception
  | Returned true => Returned None
  | Returned false =>
      let date_str := default "" (raw_MeetingDate meeting) in
      let time_str := default "" (raw_MeetingTime meeting) in
      if negb (truthy date_str) || negb (truthy time_str) then Returned None
      else
        match strptime (date_time_text date_str time_str) fmt_Ymd_HMS with
        | None => Returned None
        | Some dt =>
            let start_datetime := strftime_Ymd_HMS dt in
            let title := build_title (meeting_of meeting) in
            let custom_id := generate_custom_id (meeting_of meeting) in
            match encoders !! custom_id with
            | None => Returned None
            | Some selected =>
                let description := build_description (meeting_of meeting) true in
                let encoder := if truthy selected then selected else "" in
                let category := default "Gavel Alaska" (categories !! custom_id) in
                let location := default "" (raw_Location meeting) in
                Returned (Some [title; custom_id; start_datetime; description; encoder;
                                category; location; runtime; live_to_break_value])
            end
        end
  end.

(** The loop over the records: an exception ends it. *)
Fixpoint raw_format_meetings_invintus_rows (meetings : list RawMeeting)
  (encoders categories : gmap string string) (runtime : string)
  (live_to_break : bool) : Outcome (list (list string)) :=
  match meetings with
  | [] => Returned []
  | meeting :: rest =>
      match raw_invintus_row encoders categories runtime live_to_break meeting with
      | Raised exception => Raised exception
      | Returned written =>
          match raw_format_meetings_invintus_rows rest encoders categories
                  runtime live_to_break with
          | Raised exception => Raised exception
          | Returned rows =>
              Returned (match written with
                        | Some row => row :: rows
                        | None => rows
                        end)
          end
      end
  end.

Definition raw_format_meetings_invintus_csv (meetings : list RawMeeting)
  (encoders categories : gmap string string) (runtime : string)
  (live_to_break : bool) : Outcome string :=
  match raw_format_meetings_invintus_rows meetings encoders categories
          runtime live_to_break with
  | Raised exception => Raised exception
  | Returned rows => Returned (write_rows (invintus_fields :: rows))
  end.

(** Every highlight of the record is a text. *)
Definition texts_only (meeting : RawMeeting) : Prop :=
  ∀ slice, slice ∈ default [] (raw_MeetingSlices meeting) →
           raw_SliceHighliteText slice ≠ Some JsonNull.

End Wire.

(* ===================================================================== *)
(** * Range fetch *)
(* ===================================================================== *)

(** What [get_meetings] returns: an error value or the meetings of a day. *)
Inductive FetchResult :=
| FetchError (error : string)
| FetchMeetings (meetings : list Meeting).

(** How a call of [get_meeting_range] ends. *)
Inductive RangeResult :=
| RangeError (error : string)
| RangeMeetings (meetings_by_date : gmap string FetchResult)
| RangeOverflow
| RangeOutOfFuel.

Section RangeFetch.

(** The remote API behind [get_meetings]: the answer to a request for a
    date.  Every call is recorded in the list of requested dates that
    the functions below thread through. *)
Variable get_meetings : string -> FetchResult.

(** The [while current <= end] loop; [fetched] lists the dates requested
    so far, latest last. *)
Fixpoint range_loop (fuel : nat) (current end_ : datetime)
  (meetings_by_date : gmap string FetchResult) (fetched : list string)
  : RangeResult * list string :=
  match fuel with
  | O => (RangeOutOfFuel, fetched)
  | S fuel' =>
      if PyDate.le current end_
      then
        let date_str := strftime_mdY current in
        let meetings := get_meetings date_str in
        let fetched := (fetched ++ [date_str])%list in
        let meetings_by_date := <[date_str := meetings]> meetings_by_date in
        match add_day current with
        | None => (RangeOverflow, fetched)
        | Some next => range_loop fuel' next end_ meetings_by_date fetched
        end
      else (RangeMeetings meetings_by_date, fetched)
  end.

(** The span check lets at most 31 days through, so 32 tests of the loop
    condition are enough. *)
Definition get_meeting_range (start_date end_date : string)
  : RangeResult * list string :=
  match strptime start_date fmt_mdY, strptime end_date fmt_mdY with
  | Some start, Some end_ =>
      if 30 <? days_between start end_
      then (RangeError "Date range too large. Maximum range is 30 days.", [])
      else range_loop 32 start end_ ∅ []
  | _, _ => (RangeError "Invalid date format. Please use MM/DD/YYYY.", [])
  end.

End RangeFetch.

(* ===================================================================== *)
(** * Notions used to state the properties *)
(* ===================================================================== *)

(** [s] with every occurrence of the character [c] removed. *)
Definition without (c : ascii) (s : string) : string :=
  string_of_list_ascii
    (List.filter (fun a => negb (Ascii.eqb c a)) (list_ascii_of_string s)).

(** A field is present when its key is there with a non-empty text. *)
Definition present (o : option string) : bool := opt_truthy o.

(** The text of a field, empty when the key is absent. *)
Definition text_of (o : option string) : string := default "" o.

(** Date and time both present and, joined by a blank, parseable as
    [YYYY-MM-DD HH:MM:SS]. *)
Definition jointly_parsed (meeting : Meeting) : option datetime :=
  if present (MeetingDate meeting) && present (MeetingTime meeting)
  then strptime (date_time_text (text_of (MeetingDate meeting))
                                (text_of (MeetingTime meeting))) fmt_Ymd_HMS
  else None.

(** The three conditions under which the broadcast dialect keeps a record. *)
Definition invintus_included (encoders : gmap string string) (meeting : Meeting) : Prop :=
  should_skip_event meeting = false
  ∧ is_Some (jointly_parsed meeting)
  ∧ generate_custom_id meeting ∈ dom encoders.

(** The [Decision] that a record is one the broadcast dialect keeps. *)
#[global] Instance invintus_included_dec (encoders : gmap string string)
  (meeting : Meeting) : Decision (invintus_included encoders meeting).
Proof. unfold invintus_included. apply _. Defined.

(** The hour of the twelve-hour clock. *)
Definition clock12 (h : Z) : Z :=
  if h =? 0 then 12 else if h <=? 12 then h else h - 12.

(** A date and time as the [time] column shows it: year, month and day,
    then the hour of the twelve-hour clock and the minute, then AM or PM;
    month, day, hour and minute in two digits. *)
Definition time_12h (dt : datetime) : string :=
  year_text (year dt) ++ "-" ++ zpad 2 (month dt) ++ "-" ++ zpad 2 (day dt)
  ++ " " ++ zpad 2 (clock12 (hour dt)) ++ ":" ++ zpad 2 (minute dt)
  ++ " " ++ (if hour dt <? 12 then "AM" else "PM").

(** A date and time as the [startDateTime] column shows it: year, month
    and day, then hour, minute and second of the day; all but the year in
    two digits. *)
Definition time_24h (dt : datetime) : string :=
  year_text (year dt) ++ "-" ++ zpad 2 (month dt) ++ "-" ++ zpad 2 (day dt)
  ++ " " ++ zpad 2 (hour dt) ++ ":" ++ zpad 2 (minute dt)
  ++ ":" ++ zpad 2 (second dt).

(** The time column as the spec describes it: the formatted date and time
    when both are present and parse together, their raw concatenation when
    both are present and do not parse, and the empty text otherwise. *)
Definition time_column_spec (meeting : Meeting) : string :=
  if present (MeetingDate meeting) && present (MeetingTime meeting)
  then match jointly_parsed meeting with
       | Some dt => time_12h dt
       | None => text_of (MeetingDate meeting) ++ " " ++ text_of (MeetingTime meeting)
       end
  else "".

(** A datetime at 00:00:00, as a parsed date is. *)
Definition midnight (dt : datetime) : Prop :=
  hour dt = 0 ∧ minute dt = 0 ∧ second dt = 0.

(** The dates [(y, m, d)] in calendar order. *)
Definition date_lt (a b : datetime) : Prop :=
  year a < year b
  ∨ (year a = year b ∧ (month a < month b
                         ∨ (month a = month b ∧ day a < day b))).

(** The directives of a format, in order. *)
Definition fmt_directives (fmt : list fmt_item) : list directive :=
  omap (fun item => match item with FDir d => Some d | _ => None end) fmt.

(** A slice of a bill contributes a detail when its highlight is not
    empty, not a cancellation marker and not the bill identifier itself. *)
Definition contributes (slice : Slice) : bool :=
  let highlight_text := text_of (SliceHighliteText slice) in
  truthy highlight_text && not_cancel_marker highlight_text
  && negb (String.eqb (text_of (BillRoot slice)) highlight_text).

(** None of the slices that carry the bill [b] contributes a detail. *)
Definition own_slices_silent (b : string) (slices : list Slice) : bool :=
  forallb (fun slice => negb (is_str (BillRoot slice) b) || negb (contributes slice))
          slices.

(** The bill in force after the slices [before]: the last of them that
    carries a bill carries [b]. *)
Definition last_bill (before : list Slice) (b : string) : Prop :=
  ∃ earlier slice later,
    before = (earlier ++ slice :: later)%list
    ∧ BillRoot slice = Some b ∧ b ≠ ""
    ∧ ∀ s, s ∈ later → present (BillRoot s) = false.

(** The slice that comes after the slices [before] is filed under the
    bill [b]: it carries [b] itself, or it carries no bill and [b] is the
    bill in force where it stands. *)
Definition filed_under (before : list Slice) (slice : Slice) (b : string) : Prop :=
  BillRoot slice = Some b
  ∨ (present (BillRoot slice) = false ∧ last_bill before b).

(** Where a detail [d] of the bill [b] comes from: a slice of the
    sequence with that highlight, filed under [b] where it stands. *)
Definition origin (slices : list Slice) (b d : string) : Prop :=
  ∃ before slice after,
    slices = (before ++ slice :: after)%list
    ∧ SliceHighliteText slice = Some d
    ∧ filed_under before slice b.

(** No slice of the sequence that is filed under [b] contributes a
    detail. *)
Definition adds_nothing (b : string) (slices : list Slice) : Prop :=
  ∀ before slice after,
    slices = (before ++ slice :: after)%list →
    filed_under before slice b → contributes slice = false.

(** What holds of the state of the first loop after the slices [done]. *)
Record agg_inv (done : list Slice) (st : AggState) : Prop := {
  inv_cursor : ∀ b, current_bill st = Some b → last_bill done b;
  inv_groups : ∀ g d, g ∈ bill_details st → d ∈ details g →
               d ∈ used_details st ∧ origin done (bill g) d;
  inv_current : ∀ d, d ∈ current_details st →
                d ∈ used_details st
                ∧ ∃ b, current_bill st = Some b ∧ origin done b d
}.

(** What holds of the state of the first loop after the slices [done],
    none of which adds a detail to [b]. *)
Record silent_inv (b : string) (done : list Slice) (st : AggState) : Prop := {
  silent_cursor : ∀ c, current_bill st = Some c → last_bill done c;
  silent_current : current_bill st = Some b → current_details st = [];
  silent_groups : ∀ g, g ∈ bill_details st → bill g ≠ b
}.

(** The short title as the spec words it: that of the first slice of the
    bill whose short title is not empty. *)
Fixpoint first_nonempty_short_title (bill : string) (slices : list Slice) : string :=
  match slices with
  | [] => ""
  | slice :: rest =>
      if is_str (BillRoot slice) bill && present (ShortTitle slice)
      then text_of (ShortTitle slice)
      else first_nonempty_short_title bill rest
  end.

(** The text of a bill group with the title [short_title]. *)
Definition rendered (bill short_title : string) (details : list string) : string :=
  if truthy short_title
  then bill ++ " " ++ short_title ++ " " ++ join " " details
  else bill ++ " " ++ join " " details.

(** A slice of the bill [b] that has the short-title key. *)
Definition has_title_field (b : string) (slice : Slice) : Prop :=
  BillRoot slice = Some b ∧ is_Some (ShortTitle slice).

(** The short title the description gives the bill [b]: that of the first
    slice of [b] that has the short-title key, be it empty; the empty
    text when no slice of [b] has the key. *)
Definition short_title_is (slices : list Slice) (b title : string) : Prop :=
  (∃ before slice after,
     slices = (before ++ slice :: after)%list
     ∧ (∀ s, s ∈ before → ¬ has_title_field b s)
     ∧ BillRoot slice = Some b ∧ ShortTitle slice = Some title)
  ∨ ((∀ s, s ∈ slices → ¬ has_title_field b s) ∧ title = "").

(** The description put together from its parts: the cancellation
    marker, the texts of the bill groups, the general items. *)
Definition description_of (canceled : bool) (group_texts general_items : list string)
  : string :=
  join " | "
    ((if canceled then ["** MEETING CANCELED **"] else [])
     ++ (if nonempty group_texts
         then [("Bills: " ++ join ", " group_texts)%string] else [])
     ++ (if nonempty general_items then [join " | " general_items] else []))%list.

(** ** The date texts [strptime] takes for ["%m/%d/%Y"] *)

(** The texts a regular expression matches. *)
Fixpoint lang (r : regex) (a : string) : Prop :=
  match r with
  | Lit c => a = String c ""
  | Class p => ∃ c, p c = true ∧ a = String c ""
  | Cat r1 r2 => ∃ a1 a2, lang r1 a1 ∧ lang r2 a2 ∧ a = a1 ++ a2
  | Or r1 r2 => lang r1 a ∨ lang r2 a
  | Plus p => a ≠ "" ∧ Forall (fun c => p c = true) (list_ascii_of_string a)
  end.

(** A month: 1 to 9 in one digit, 01 to 12 in two. *)
Definition month_texts : list string :=
  (map (zpad 1) (seqZ 1 9) ++ map (zpad 2) (seqZ 1 12))%list.

(** A day: 1 to 9 in one digit, 01 to 31 in two, or 1 to 9 after a
    blank. *)
Definition day_texts : list string :=
  (map (zpad 1) (seqZ 1 9) ++ map (zpad 2) (seqZ 1 31)
   ++ map (fun n => (" " ++ zpad 1 n)%string) (seqZ 1 9))%list.

(** A year: four digits. *)
Definition four_digits (y : string) : bool :=
  match y with
  | String a (String b (String c (String d EmptyString))) =>
      is_digit a && is_digit b && is_digit c && is_digit d
  | _ => false
  end.

(** The text [s] reads month/day/year, and as such names the day [dt] of
    the calendar. *)
Definition date_text (s : string) (dt : datetime) : Prop :=
  ∃ m d y,
    m ∈ month_texts ∧ d ∈ day_texts ∧ four_digits y = true
    ∧ s = m ++ "/" ++ d ++ "/" ++ y
    ∧ dt = mk_datetime (int y) (int m) (int d) 0 0 0
    ∧ valid dt = true.

(** The form MM/DD/YYYY to the letter: two digits, a slash, two digits, a
    slash, four digits. *)
Definition mmddyyyy_form (s : string) : bool :=
  match s with
  | String m1 (String m2 (String s1 (String d1 (String d2 (String s2 y))))) =>
      is_digit m1 && is_digit m2 && Ascii.eqb s1 "/"
      && is_digit d1 && is_digit d2 && Ascii.eqb s2 "/" && four_digits y
  | _ => false
  end.

(** The first, the last character of a text is white space. *)
Definition starts_with_space (s : string) : bool :=
  match s with
  | EmptyString => false
  | String c _ => is_space c
  end.

Fixpoint ends_with_space (s : string) : bool :=
  match s with
  | EmptyString => false
  | String c s' =>
      match s' with
      | EmptyString => is_space c
      | _ => ends_with_space s'
      end
  end.

(* ===================================================================== *)
(** * Example records *)
(* ===================================================================== *)

Definition meeting_hfin : Meeting :=
  mk_meeting (Some "H") (Some "finance") (Some "Standing Committee") (Some "FIN")
             (Some "2025-04-22") (Some "13:30:00") (Some "ADAMS 519") None
             (Some []) None.

Definition meeting_bad_time : Meeting :=
  mk_meeting (Some "S") (Some "judiciary") (Some "Standing Committee") (Some "JUD")
             (Some "2025-04-22") (Some "TBA") None None (Some []) None.

Definition selection_hfin : gmap string string :=
  {[ "H-FIN20250422133000" := "hm4mevet" ]}.

(** An API with no meeting on any day. *)
Definition no_meetings : string -> FetchResult := fun _ => FetchMeetings [].

Definition example_slices : list Slice :=
  [mk_slice (Some "HB1") (Some "HB1") None;
   mk_slice (Some "HB1") (Some "Public testimony") None;
   mk_slice None (Some "Overview") None].

Definition slices_sb5 : list Slice :=
  [mk_slice (Some "SB5") (Some "Fiscal note") None;
   mk_slice None (Some "Adjourn") None].

Definition slices_text_is_bill : list Slice :=
  [mk_slice None (Some "HB1") None;
   mk_slice (Some "HB1") (Some "HB1") None].

Definition slices_trailing : list Slice :=
  [mk_slice (Some "HB1") (Some "HB1") None;
   mk_slice None (Some "Overview") None].

Definition slices_bare_bill : list Slice :=
  [mk_slice (Some "HB1") (Some "HB1") None;
   mk_slice (Some "HB2") (Some "Amendments") None].

Definition slices_titles : list Slice :=
  [mk_slice (Some "HB1") (Some "A") (Some "");
   mk_slice (Some "HB1") (Some "B") (Some "Title")].

(** Two streaming annotations in a row among the general items. *)
Definition slices_streamed : list Slice :=
  [mk_slice None (Some "Overview") None;
   mk_slice None (Some streaming_info) None;
   mk_slice None (Some (streaming_info ++ streaming_info)) None;
   mk_slice None (Some "Adjourn") None].

Definition slices_two_bills : list Slice :=
  [mk_slice None (Some "X") None;
   mk_slice (Some "HB1") (Some "a") None;
   mk_slice (Some "HB2") (Some "b") None;
   mk_slice None (Some "Z") None].


(** A record of year 999: the year is written in three digits. *)
Definition meeting_year_999 : Meeting :=
  mk_meeting (Some "H") (Some "finance") (Some "Standing Committee") (Some "FIN")
             (Some "0999-01-01") (Some "09:00:00") None None (Some []) None.


(** Records as the API sends them. *)
Definition raw_hfin : Wire.RawMeeting :=
  Wire.mk_raw_meeting (Some "H") (Some "finance") (Some "Standing Committee")
    (Some "FIN") (Some "2025-04-22") (Some "13:30:00") (Some "ADAMS 519") None
    (Some [Wire.mk_raw_slice None (Some (Wire.JsonString "Overview")) None]) None.

Definition raw_bad_time : Wire.RawMeeting :=
  Wire.mk_raw_meeting (Some "S") (Some "judiciary") (Some "Standing Committee")
    (Some "JUD") (Some "2025-04-22") (Some "TBA") None None (Some []) None.

(** A record without date and time, one of whose highlights is null. *)
Definition raw_null_highlight : Wire.RawMeeting :=
  Wire.mk_raw_meeting (Some "H") (Some "rules") (Some "Standing Committee")
    (Some "RLS") None None None None
    (Some [Wire.mk_raw_slice (Some "HB1") (Some Wire.JsonNull) None]) None.


(* ===================================================================== *)
(** * More of the program, and the notions of its further properties *)
(* ===================================================================== *)

(** A highlight the first loop takes as a detail: not empty and not a
    cancellation marker. *)
Definition detail_text (d : string) : Prop :=
  d ≠ "" ∧ not_cancel_marker d = true.

(** What holds of the bills and details all along the first loop over [l]. *)
Record agg_shape (l : list Slice) (st : AggState) : Prop := {
  shape_groups : ∀ g, g ∈ bill_details st →
                 details g ≠ [] ∧ bill g ≠ ""
                 ∧ (∃ slice, slice ∈ l ∧ BillRoot slice = Some (bill g))
                 ∧ ∀ d, d ∈ details g → detail_text d;
  shape_bill : ∀ b, current_bill st = Some b →
               b ≠ "" ∧ ∃ slice, slice ∈ l ∧ BillRoot slice = Some b;
  shape_current : ∀ d, d ∈ current_details st →
                  detail_text d ∧ is_Some (current_bill st);
  shape_used : ∀ d, d ∈ used_details st →
               (∃ g, g ∈ bill_details st ∧ d ∈ details g)
               ∨ d ∈ current_details st
}.

(** A slice whose highlight the aggregator has to keep: the highlight is
    not empty, not a cancellation marker, and not the slice's own bill. *)
Definition kept_highlight (slice : Slice) : bool :=
  let bill_root := text_of (BillRoot slice) in
  let highlight_text := text_of (SliceHighliteText slice) in
  truthy highlight_text && not_cancel_marker highlight_text
  && negb (truthy bill_root && String.eqb bill_root highlight_text).

Definition meeting_canceled : Meeting :=
  mk_meeting (Some "H") (Some "rules") (Some "Standing Committee") (Some "RLS")
             (Some "2025-04-22") (Some "09:00:00") None (Some true)
             (Some example_slices) None.

(** The records the broadcast dialect keeps, as a test. *)
Definition invintus_keeps (encoders : gmap string string) (meeting : Meeting) : bool :=
  negb (should_skip_event meeting)
  && bool_decide (is_Some (jointly_parsed meeting))
  && bool_decide (generate_custom_id meeting ∈ dom encoders).

(** [dt.strftime("%m/%d/%y")] *)
Definition strftime_mdy (dt : datetime) : string :=
  zpad 2 (month dt) ++ "/" ++ zpad 2 (day dt) ++ "/" ++ zpad 2 (year dt mod 100).

Definition format_short_date (date_str : string) : string :=
  match strptime date_str fmt_mdY with
  | Some date_obj => strftime_mdy date_obj
  | None => date_str
  end.

(** A text of white space only. *)
Fixpoint all_space (s : string) : bool :=
  match s with
  | EmptyString => true
  | String c s' => is_space c && all_space s'
  end.

(** ** The form of a request and the answer to it *)

(** The fields of a posted form, in order; a key may occur several times. *)
Definition Form := list (string * string).

(** [key in request.form], [request.form[key]], [request.form.get(key)]:
    the first value of the key. *)
Fixpoint form_get (form : Form) (key : string) : option string :=
  match form with
  | [] => None
  | (k, v) :: rest => if String.eqb k key then Some v else form_get rest key
  end.

(** [request.form.getlist(key)]: all the values of the key, in order. *)
Fixpoint form_getlist (form : Form) (key : string) : list string :=
  match form with
  | [] => []
  | (k, v) :: rest =>
      if String.eqb k key then v :: form_getlist rest key
      else form_getlist rest key
  end.

(** What a route returns: a text, or a CSV file to download. *)
Inductive Response :=
| TextResponse (body : string)
| CsvResponse (body filename : string).

(** One round of the loop over the selected identifiers, which fills the
    two dictionaries [encoders] and [categories]. *)
Definition selection_step (form : Form)
  (dicts : gmap string string * gmap string string) (meeting_id : string)
  : gmap string string * gmap string string :=
  let '(encoders, categories) := dicts in
  let encoder_key := "encoder_" ++ meeting_id in
  let encoders :=
    if opt_truthy (form_get form encoder_key)
    then <[meeting_id := default "" (form_get form encoder_key)]> encoders
    else encoders in
  let category_key := "category_" ++ meeting_id in
  let categories :=
    if opt_truthy (form_get form category_key)
    then <[meeting_id := default "" (form_get form category_key)]> categories
    else categories in
  (encoders, categories).

Section Routes.

(** The remote API behind [get_meetings], as for the range fetch; the
    second component of a result lists the dates requested. *)
Variable get_meetings : string -> FetchResult.

(** The route [/export_invintus], as a function of the posted form. *)
Definition export_invintus (form : Form) : Response * list string :=
  let date_info := default "" (form_get form "date_info") in
  let selected_meetings := form_getlist form "selected_meetings" in
  let runtime := default "01:00" (form_get form "runtime") in
  let live_to_break := bool_decide (is_Some (form_get form "live_to_break")) in
  if negb (nonempty selected_meetings)
  then (TextResponse
          "Error: No meetings selected. Please go back and select at least one meeting.",
        [])
  else
    match get_meetings date_info with
    | FetchError error => (TextResponse ("Error: " ++ error), [date_info])
    | FetchMeetings meetings_data =>
        let '(encoders, categories) :=
          fold_left (selection_step form) selected_meetings (∅, ∅) in
        let filtered_meetings :=
          List.filter (fun meeting =>
                         bool_decide (generate_custom_id meeting ∈ selected_meetings))
                      meetings_data in
        let csv_data :=
          format_meetings_invintus_csv filtered_meetings encoders categories
            runtime live_to_break in
        (CsvResponse csv_data
           ("invintus_meetings_" ++ replace "/" "-" date_info ++ ".csv"),
         [date_info])
    end.

End Routes.

Definition form_hfin : Form :=
  [("date_info", "04/22/2025"); ("selected_meetings", "H-FIN20250422133000");
   ("encoder_H-FIN20250422133000", "hm4mevet"); ("runtime", "01:30")].

(** An API with the one meeting [meeting_hfin] on every day. *)
Definition meetings_hfin : string -> FetchResult :=
  fun _ => FetchMeetings [meeting_hfin].

(** A slice the aggregator has nothing to take from: it carries no bill,
    and its highlight is empty or a cancellation marker. *)
Definition ignorable (slice : Slice) : bool :=
  negb (present (BillRoot slice))
  && (negb (truthy (text_of (SliceHighliteText slice)))
      || negb (not_cancel_marker (text_of (SliceHighliteText slice)))).

Definition slices_noise : list Slice :=
  [mk_slice None None None;
   mk_slice (Some "HB1") (Some "Public testimony") None;
   mk_slice None (Some "** Meeting Canceled **") None;
   mk_slice (Some "") (Some "") None;
   mk_slice None (Some "Overview") None].

(* ===================================================================== *)
(** * Properties *)
(* ===================================================================== *)

(** ** String lemmas *)

Lemma append_cons (x : ascii) (a b : string) : String x a ++ b = String x (a ++ b).
Proof. reflexivity. Qed.

Lemma append_nil_r (a : string) : a ++ "" = a.
Proof. induction a as [|x a IH]; [reflexivity|]. by rewrite append_cons, IH. Qed.

Lemma append_assoc (a b c : string) : (a ++ b) ++ c = a ++ b ++ c.
Proof. induction a as [|x a IH]; [reflexivity|]. by rewrite !append_cons, IH. Qed.

Lemma length_append (a b : string) :
  String.length (a ++ b) = (String.length a + String.length b)%nat.
Proof. induction a as [|x a IH]; [reflexivity|]. rewrite append_cons. cbn. by rewrite IH. Qed.

Lemma replace_char_without (c : ascii) (s : string) :
  replace (String c "") "" s = without c s.
Proof.
  unfold replace, without. induction s as [|a s IH]; [reflexivity|].
  cbn [replace_from startswith String.length Nat.sub list_ascii_of_string List.filter].
  destruct (Ascii.eqb c a); cbn.
  - destruct s; exact IH.
  - destruct s; cbn; f_equal; exact IH.
Qed.

(** ** The stable identifier *)

(** Case analysis on the date and time fields of a record. *)
Ltac case_date_time meeting :=
  let d := fresh "d" in
  let t := fresh "t" in
  destruct (MeetingDate meeting) as [d|], (MeetingTime meeting) as [t|];
  cbn [opt_truthy default from_option id truthy negb orb andb];
  try reflexivity;
  [destruct (truthy d), (truthy t); try reflexivity
  |destruct (truthy d); try reflexivity].

(** C3, as the code has it: the identifier is ["unknown"] when the date or
    the time is absent; otherwise it is the chamber code, a hyphen, the
    sponsor code, the date without its ['-'] and the time without its
    [':'], in that order. *)
Theorem generate_custom_id_spec (meeting : Meeting) :
  generate_custom_id meeting =
    if present (MeetingDate meeting) && present (MeetingTime meeting)
    then text_of (Chamber meeting) ++ "-" ++ text_of (MeetingSponsor meeting)
         ++ without "-" (text_of (MeetingDate meeting))
         ++ without ":" (text_of (MeetingTime meeting))
    else "unknown".
Proof.
  unfold generate_custom_id, present, text_of.
  rewrite !replace_char_without. case_date_time meeting.
Qed.

(** C3 as the spec words it fails: between the chamber code and the sponsor
    code the code writes a hyphen. *)
Lemma generate_custom_id_has_hyphen :
  generate_custom_id meeting_hfin = "H-FIN20250422133000"
  ∧ generate_custom_id meeting_hfin ≠
      text_of (Chamber meeting_hfin) ++ text_of (MeetingSponsor meeting_hfin)
      ++ without "-" (text_of (MeetingDate meeting_hfin))
      ++ without ":" (text_of (MeetingTime meeting_hfin)).
Proof. split; [reflexivity | vm_compute; discriminate]. Qed.

(** ** The worked example of the slice aggregator *)

(** C1, as the code has it: on the three example slices the aggregator
    returns the single bill group of HB1 with the details
    "Public testimony" and "Overview", and no general item: the slice
    without a bill that follows HB1 is attached to HB1. *)
Theorem extract_example :
  extract_bills_with_details (meeting_of_slices example_slices)
  = ([mk_group "HB1" ["Public testimony"; "Overview"]], []).
Proof. vm_compute. reflexivity. Qed.

(** C1 as the spec words it fails: the result is not the group with the
    one detail "Public testimony" next to the general item "Overview". *)
Lemma extract_example_not_as_worded :
  extract_bills_with_details (meeting_of_slices example_slices)
  ≠ ([mk_group "HB1" ["Public testimony"]], ["Overview"]).
Proof. vm_compute. discriminate. Qed.

(** ** The broadcast dialect keeps exactly the selected, dated records *)

Lemma jointly_parsed_code (meeting : Meeting) :
  jointly_parsed meeting =
    (let date_str := default "" (MeetingDate meeting) in
     let time_str := default "" (MeetingTime meeting) in
     if negb (truthy date_str) || negb (truthy time_str) then None
     else strptime (date_time_text date_str time_str) fmt_Ymd_HMS).
Proof.
  unfold jointly_parsed, present, text_of. case_date_time meeting.
Qed.

Lemma invintus_row_cases (encoders categories : gmap string string)
  (runtime : string) (live_to_break : bool) (meeting : Meeting) :
  invintus_row encoders categories runtime live_to_break meeting =
    if should_skip_event meeting then None
    else match jointly_parsed meeting with
         | None => None
         | Some dt =>
             match encoders !! generate_custom_id meeting with
             | None => None
             | Some selected =>
                 Some [build_title meeting; generate_custom_id meeting;
                       strftime_Ymd_HMS dt; build_description meeting true;
                       (if truthy selected then selected else "");
                       default "Gavel Alaska" (categories !! generate_custom_id meeting);
                       default "" (Location meeting); runtime;
                       (if live_to_break then "TRUE" else "FALSE")]
             end
         end.
Proof.
  unfold invintus_row. rewrite jointly_parsed_code. cbv zeta.
  destruct (should_skip_event meeting); [reflexivity|].
  destruct (negb _ || negb _); reflexivity.
Qed.

(** On highlights that are texts the event filter returns, and returns
    what it returns on the record read as texts. *)
Lemma wire_skip_loop (slices : list Wire.RawSlice) :
  (∀ slice, slice ∈ slices → Wire.raw_SliceHighliteText slice ≠ Some Wire.JsonNull) →
  Wire.skip_loop slices
  = Wire.Returned
      (existsb (fun slice =>
                  String.eqb (lower (strip (default "" (SliceHighliteText slice))))
                             "no meeting scheduled")
               (map Wire.slice_of slices)).
Proof.
  induction slices as [|slice slices IH]; intros Htexts; [reflexivity|].
  cbn [Wire.skip_loop map existsb Wire.slice_of SliceHighliteText].
  assert (Hslice := Htexts slice ltac:(by left)).
  destruct (Wire.raw_SliceHighliteText slice) as [[|text]|];
    [contradiction| |];
    cbn [default from_option id option_map Wire.text_of_json];
    (destruct (String.eqb _ "no meeting scheduled"); [reflexivity|]);
    cbn [orb]; apply IH; intros s Hs; apply Htexts; by right.
Qed.

Lemma wire_should_skip_event (meeting : Wire.RawMeeting) :
  Wire.texts_only meeting →
  Wire.raw_should_skip_event meeting
  = Wire.Returned (should_skip_event (Wire.meeting_of meeting)).
Proof.
  intros Htexts. unfold Wire.raw_should_skip_event, should_skip_event.
  rewrite (wire_skip_loop _ Htexts).
  unfold Wire.meeting_of. cbn [MeetingSlices].
  by destruct (Wire.raw_MeetingSlices meeting).
Qed.

Lemma wire_invintus_row (encoders categories : gmap string string)
  (runtime : string) (live_to_break : bool) (meeting : Wire.RawMeeting) :
  Wire.texts_only meeting →
  Wire.raw_invintus_row encoders categories runtime live_to_break meeting
  = Wire.Returned (invintus_row encoders categories runtime live_to_break
                     (Wire.meeting_of meeting)).
Proof.
  intros Htexts. unfold Wire.raw_invintus_row, invintus_row.
  rewrite (wire_should_skip_event _ Htexts). cbv zeta.
  destruct (should_skip_event (Wire.meeting_of meeting)); [reflexivity|].
  cbn [Wire.meeting_of MeetingDate MeetingTime Location].
  destruct (negb _ || negb _); [reflexivity|].
  destruct (strptime _ _); [|reflexivity].
  destruct (encoders !! _); reflexivity.
Qed.

Lemma wire_invintus_rows (encoders categories : gmap string string)
  (runtime : string) (live_to_break : bool) (meetings : list Wire.RawMeeting) :
  Forall Wire.texts_only meetings →
  Wire.raw_format_meetings_invintus_rows meetings encoders categories runtime live_to_break
  = Wire.Returned
      (format_meetings_invintus_rows (map Wire.meeting_of meetings)
         encoders categories runtime live_to_break).
Proof.
  unfold format_meetings_invintus_rows.
  induction 1 as [|meeting meetings Htexts _ IH]; [reflexivity|].
  cbn [Wire.raw_format_meetings_invintus_rows map omap list_omap].
  rewrite (wire_invintus_row _ _ _ _ _ Htexts), IH.
  by destruct (invintus_row _ _ _ _ _).
Qed.

(** The rows of a list of records: one for each record that is
    included, in order. *)
Lemma invintus_rows_included (encoders categories : gmap string string)
  (runtime : string) (live_to_break : bool) (meetings : list Meeting) :
  Forall2 (fun meeting row =>
             ∃ dt, jointly_parsed meeting = Some dt
                   ∧ column "customID" invintus_fields row
                     = Some (generate_custom_id meeting)
                   ∧ column "startDateTime" invintus_fields row
                     = Some (time_24h dt))
          (filter (invintus_included encoders) meetings)
          (format_meetings_invintus_rows meetings encoders categories
             runtime live_to_break).
Proof.
  unfold format_meetings_invintus_rows.
  induction meetings as [|m ms IH]; [constructor|].
  cbn [omap list_omap]. rewrite filter_cons, invintus_row_cases.
  destruct (decide (invintus_included encoders m)) as [(Hs & [dt Hdt] & Hsel) | Hnot].
  - apply elem_of_dom in Hsel as [selected Hsel]. rewrite Hs, Hdt, Hsel.
    constructor; [|exact IH]. exists dt. by repeat split.
  - destruct (should_skip_event m) eqn:Hs; [exact IH|].
    destruct (jointly_parsed m) as [dt|] eqn:Hdt; [|exact IH].
    destruct (encoders !! generate_custom_id m) as [selected|] eqn:Hsel; [|exact IH].
    exfalso. apply Hnot. split; [exact Hs|]. split; [by eexists|].
    apply elem_of_dom. by eexists.
Qed.

(** C4, as the code has it: given records whose highlights are texts, the
    broadcast formatter raises nothing and writes, after the header, one
    row for each record that is not filtered, whose date and time are
    present and parse together, and whose identifier is a key of the
    encoder selection, in the order of the records, and no row for any
    other record; the row has the record's identifier and its date and
    time in the form "Y-MM-DD HH:MM:SS".  The text returned is that of
    the formatter on the records read as texts. *)
Theorem invintus_row_iff_included (meetings : list Wire.RawMeeting)
  (encoders categories : gmap string string) (runtime : string)
  (live_to_break : bool) :
  Forall Wire.texts_only meetings →
  ∃ rows,
    Wire.raw_format_meetings_invintus_rows meetings encoders categories
      runtime live_to_break = Wire.Returned rows
    ∧ Wire.raw_format_meetings_invintus_csv meetings encoders categories
        runtime live_to_break
      = Wire.Returned (write_rows (invintus_fields :: rows))
    ∧ format_meetings_invintus_csv (map Wire.meeting_of meetings) encoders
        categories runtime live_to_break
      = write_rows (invintus_fields :: rows)
    ∧ Forall2 (fun meeting row =>
                 ∃ dt, jointly_parsed meeting = Some dt
                       ∧ column "customID" invintus_fields row
                         = Some (generate_custom_id meeting)
                       ∧ column "startDateTime" invintus_fields row
                         = Some (time_24h dt))
              (filter (invintus_included encoders) (map Wire.meeting_of meetings))
              rows.
Proof.
  intros Htexts. eexists. split; [by apply wire_invintus_rows|].
  split; [|split; [reflexivity|]].
  - unfold Wire.raw_format_meetings_invintus_csv.
    by rewrite (wire_invintus_rows _ _ _ _ _ Htexts).
  - apply invintus_rows_included.
Qed.

Lemma raw_examples_texts_only : Forall Wire.texts_only [raw_hfin; raw_bad_time].
Proof.
  repeat constructor; intros slice Hs; apply list_elem_of_In in Hs;
    repeat (destruct Hs as [<- | Hs]; [discriminate|]); destruct Hs.
Qed.

Lemma invintus_row_iff_included_witness :
  ∃ rows,
    Wire.raw_format_meetings_invintus_rows [raw_hfin; raw_bad_time] selection_hfin ∅
      "01:00" true = Wire.Returned rows
    ∧ Wire.raw_format_meetings_invintus_csv [raw_hfin; raw_bad_time] selection_hfin ∅
        "01:00" true
      = Wire.Returned (write_rows (invintus_fields :: rows))
    ∧ format_meetings_invintus_csv (map Wire.meeting_of [raw_hfin; raw_bad_time])
        selection_hfin ∅ "01:00" true
      = write_rows (invintus_fields :: rows)
    ∧ Forall2 (fun meeting row =>
                 ∃ dt, jointly_parsed meeting = Some dt
                       ∧ column "customID" invintus_fields row
                         = Some (generate_custom_id meeting)
                       ∧ column "startDateTime" invintus_fields row
                         = Some (time_24h dt))
              (filter (invintus_included selection_hfin)
                      (map Wire.meeting_of [raw_hfin; raw_bad_time]))
              rows.
Proof.
  apply (invintus_row_iff_included [raw_hfin; raw_bad_time] selection_hfin ∅ "01:00" true).
  exact raw_examples_texts_only.
Defined.

(** The rows of the two example records: the one that is selected and
    dated. *)
Lemma invintus_rows_example :
  Wire.raw_format_meetings_invintus_rows [raw_hfin; raw_bad_time] selection_hfin ∅
    "01:00" true
  = Wire.Returned
      [["House Finance Committee"; "H-FIN20250422133000"; "2025-04-22 13:30:00";
        "Overview"; "hm4mevet"; "Gavel Alaska"; "ADAMS 519"; "01:00"; "TRUE"]].
Proof. vm_compute. reflexivity. Qed.

(** C4 as the spec words it fails: a record with no date and no time,
    whose identifier is not selected, should yield no row and no error;
    when one of its highlights is null the formatter raises. *)
Lemma null_highlight_raises :
  ¬ invintus_included ∅ (Wire.meeting_of raw_null_highlight)
  ∧ Wire.raw_format_meetings_invintus_csv [raw_null_highlight] ∅ ∅ "01:00" true
    = Wire.Raised "AttributeError"
  ∧ Wire.raw_format_meetings_invintus_csv [raw_hfin; raw_null_highlight]
      selection_hfin ∅ "01:00" true
    = Wire.Raised "AttributeError".
Proof.
  split; [|split; vm_compute; reflexivity].
  intros (_ & [dt Hdt] & _). discriminate.
Qed.

(** A record whose identifier is not selected yields no row. *)
Lemma invintus_unselected_dropped :
  format_meetings_invintus_rows [meeting_hfin] ∅ ∅ "01:00" true = [].
Proof. vm_compute. reflexivity. Qed.

(** The text written is the header line followed by the line of each row. *)
Lemma write_rows_from (rows : list (list string)) :
  ∀ output,
    fold_left (fun output row => output ++ writerow row) rows output
    = output ++ write_rows rows.
Proof.
  unfold write_rows. induction rows as [|row rows IH]; intros output; cbn [fold_left].
  - by rewrite append_nil_r.
  - rewrite IH, (IH ("" ++ writerow row)). by rewrite append_assoc.
Qed.

Lemma format_meetings_invintus_csv_text (meetings : list Meeting)
  (encoders categories : gmap string string) (runtime : string) (live_to_break : bool) :
  format_meetings_invintus_csv meetings encoders categories runtime live_to_break
  = writerow invintus_fields
    ++ write_rows (format_meetings_invintus_rows meetings encoders categories
                     runtime live_to_break).
Proof.
  unfold format_meetings_invintus_csv, write_rows at 1. cbn [fold_left].
  by rewrite write_rows_from.
Qed.

(** With nothing selected the export of a dated record is the header
    line alone. *)
Lemma invintus_unselected_header_only :
  format_meetings_invintus_csv [meeting_hfin] ∅ ∅ "01:00" true
  = writerow invintus_fields.
Proof. vm_compute. reflexivity. Qed.

(** The rows of a list of records are those of each record, in order. *)
Lemma invintus_rows_cons (encoders categories : gmap string string)
  (runtime : string) (live_to_break : bool) (meeting : Meeting) (rest : list Meeting) :
  format_meetings_invintus_rows (meeting :: rest) encoders categories runtime live_to_break
  = (format_meetings_invintus_rows [meeting] encoders categories runtime live_to_break
     ++ format_meetings_invintus_rows rest encoders categories runtime live_to_break)%list.
Proof.
  unfold format_meetings_invintus_rows. cbn [omap list_omap].
  destruct (invintus_row _ _ _ _ meeting); reflexivity.
Qed.

(** ** Calendar arithmetic *)

Lemma valid_bounds (dt : datetime) :
  valid dt = true →
  1 <= year dt <= 9999 ∧ 1 <= month dt <= 12
  ∧ 1 <= day dt <= days_in_month (year dt) (month dt).
Proof.
  unfold valid. rewrite !andb_true_iff, !Z.leb_le. lia.
Qed.

Lemma days_in_month_bounds (y m : Z) : 28 <= days_in_month y m <= 31.
Proof.
  unfold days_in_month.
  destruct (m =? 2); [destruct (is_leap y); lia|].
  destruct (_ || _); lia.
Qed.

Lemma days_before_year_succ (y : Z) :
  days_before_year (y + 1) = days_before_year y + (if is_leap y then 366 else 365).
Proof.
  unfold days_before_year, is_leap. cbv zeta.
  replace (y + 1 - 1) with y by lia.
  destruct (Z.eqb_spec (y mod 4) 0), (Z.eqb_spec (y mod 100) 0),
    (Z.eqb_spec (y mod 400) 0); cbn [negb andb orb];
    Z.div_mod_to_equations; lia.
Qed.

Lemma days_before_year_mono (y y' : Z) :
  y <= y' → days_before_year y <= days_before_year y'.
Proof.
  intros Hle. replace y' with (y + Z.of_nat (Z.to_nat (y' - y))) by lia.
  induction (Z.to_nat (y' - y)) as [|n IH].
  - replace (y + Z.of_nat 0) with y by lia. lia.
  - replace (y + Z.of_nat (S n)) with (y + Z.of_nat n + 1) by lia.
    rewrite days_before_year_succ. destruct (is_leap _); lia.
Qed.

Lemma days_before_month_succ (y m : Z) :
  1 <= m →
  days_before_month y (m + 1) = days_before_month y m + days_in_month y m.
Proof.
  intros Hm. unfold days_before_month.
  replace (Z.to_nat (m + 1 - 1)) with (S (Z.to_nat (m - 1))) by lia.
  cbn [days_before_month_from]. do 2 f_equal. lia.
Qed.

Lemma days_before_month_mono (y m m' : Z) :
  1 <= m <= m' → days_before_month y m <= days_before_month y m'.
Proof.
  intros Hle. replace m' with (m + Z.of_nat (Z.to_nat (m' - m))) by lia.
  induction (Z.to_nat (m' - m)) as [|n IH].
  - replace (m + Z.of_nat 0) with m by lia. lia.
  - replace (m + Z.of_nat (S n)) with (m + Z.of_nat n + 1) by lia.
    rewrite days_before_month_succ by lia.
    pose proof (days_in_month_bounds y (m + Z.of_nat n)). lia.
Qed.

Lemma days_before_month_first (y : Z) : days_before_month y 1 = 0.
Proof. reflexivity. Qed.

Lemma days_before_month_year (y : Z) :
  days_before_month y 13 = if is_leap y then 366 else 365.
Proof.
  unfold days_before_month. change (Z.to_nat (13 - 1)) with 12%nat.
  cbn [days_before_month_from]. unfold days_in_month.
  destruct (is_leap y); reflexivity.
Qed.

Lemma toordinal_lt (a b : datetime) :
  valid a = true → valid b = true → date_lt a b → toordinal a < toordinal b.
Proof.
  intros Ha Hb Hlt.
  apply valid_bounds in Ha as (Hya & Hma & Hda).
  apply valid_bounds in Hb as (Hyb & Hmb & Hdb).
  unfold toordinal.
  pose proof (days_before_month_succ (year a) (month a) ltac:(lia)) as Hsucc.
  pose proof (days_before_month_mono (year b) 1 (month b) ltac:(lia)) as Hb0.
  rewrite days_before_month_first in Hb0.
  destruct Hlt as [Hy | [Hy [Hm | [Hm Hd]]]].
  - pose proof (days_before_month_mono (year a) (month a + 1) 13 ltac:(lia)) as H13.
    rewrite days_before_month_year in H13.
    pose proof (days_before_year_succ (year a)) as Hys.
    pose proof (days_before_year_mono (year a + 1) (year b) ltac:(lia)).
    destruct (is_leap (year a)); lia.
  - rewrite <- Hy in *.
    pose proof (days_before_month_mono (year a) (month a + 1) (month b) ltac:(lia)).
    lia.
  - rewrite Hy, Hm. lia.
Qed.

Lemma le_midnight (a b : datetime) :
  midnight a → midnight b →
  PyDate.le a b = true ↔ (date_lt a b ∨ (year a = year b ∧ month a = month b ∧ day a = day b)).
Proof.
  intros (Hh & Hm & Hs) (Hh' & Hm' & Hs').
  unfold PyDate.le, key, date_lt. rewrite Hh, Hm, Hs, Hh', Hm', Hs'.
  cbn [lex_le].
  destruct (Z.ltb_spec (year a) (year b)), (Z.eqb_spec (year a) (year b)),
    (Z.ltb_spec (month a) (month b)), (Z.eqb_spec (month a) (month b)),
    (Z.ltb_spec (day a) (day b)), (Z.eqb_spec (day a) (day b));
    cbn; split; intros; try lia; try discriminate; try reflexivity.
Qed.

(** On midnights the order of [datetime] is the order of day numbers. *)
Lemma le_toordinal (a b : datetime) :
  valid a = true → valid b = true → midnight a → midnight b →
  PyDate.le a b = true ↔ toordinal a <= toordinal b.
Proof.
  intros Ha Hb Hma Hmb. rewrite (le_midnight a b Hma Hmb). split.
  - intros [Hlt | (Hy & Hm & Hd)].
    + pose proof (toordinal_lt a b Ha Hb Hlt). lia.
    + unfold toordinal. rewrite Hy, Hm, Hd. lia.
  - intros Hle.
    destruct (Z.lt_trichotomy (year a) (year b)) as [?|[Hy|Hy]];
      [left; left; lia | |].
    2:{ pose proof (toordinal_lt b a Hb Ha ltac:(left; lia)). lia. }
    destruct (Z.lt_trichotomy (month a) (month b)) as [?|[Hm|Hm]];
      [left; right; lia | |].
    2:{ pose proof (toordinal_lt b a Hb Ha ltac:(right; lia)). lia. }
    destruct (Z.lt_trichotomy (day a) (day b)) as [?|[Hd|Hd]];
      [left; right; lia | right; lia |].
    pose proof (toordinal_lt b a Hb Ha ltac:(right; lia)). lia.
Qed.

Lemma days_between_midnight (a b : datetime) :
  midnight a → midnight b → days_between a b = toordinal b - toordinal a.
Proof.
  intros (Hh & Hm & Hs) (Hh' & Hm' & Hs').
  unfold days_between, seconds_of_day. rewrite Hh, Hm, Hs, Hh', Hm', Hs'.
  cbn. rewrite Z.add_0_r. apply Z.div_mul. lia.
Qed.

(** ** What [strptime] returns *)

Lemma fmatch_directives (fmt : list fmt_item) :
  ∀ s found rest, In (found, rest) (fmatch fmt s) → map fst found = fmt_directives fmt.
Proof.
  induction fmt as [|item fmt IH]; intros s found rest Hin.
  - cbn in Hin. destruct Hin as [Heq|[]]. by inversion Heq.
  - destruct item as [d|c|]; cbn [fmatch] in Hin;
      apply in_concat in Hin as (l & Hl & Hin);
      apply in_map_iff in Hl as (r & <- & Hr).
    + apply in_map_iff in Hin as ([found' rest'] & Heq & Hin).
      inversion Heq; subst. cbn. f_equal. eapply IH, Hin.
    + cbn. eapply IH, Hin.
    + cbn. eapply IH, Hin.
Qed.

Lemma strptime_valid (data : string) (fmt : list fmt_item) (dt : datetime) :
  strptime data fmt = Some dt → valid dt = true.
Proof.
  unfold strptime. destruct (fmatch fmt data) as [|[found rest] ?]; [discriminate|].
  destruct (truthy rest); [discriminate|].
  destruct (valid _) eqn:Hv; [|discriminate]. intros [= <-]. exact Hv.
Qed.

(** A date parsed with ["%m/%d/%Y"] is a midnight. *)
Lemma strptime_mdY_midnight (data : string) (dt : datetime) :
  strptime data fmt_mdY = Some dt → midnight dt.
Proof.
  unfold strptime.
  destruct (fmatch fmt_mdY data) as [|[found rest] l] eqn:Hm; [discriminate|].
  assert (Hd : map fst found = [dm; dd; dY]).
  { eapply (fmatch_directives fmt_mdY data found rest). rewrite Hm. by left. }
  destruct (truthy rest); [discriminate|].
  destruct (valid _); [|discriminate]. intros [= <-].
  destruct found as [|[d1 t1] [|[d2 t2] [|[d3 t3] [|]]]]; try discriminate.
  cbn in Hd. injection Hd as -> -> ->. repeat split.
Qed.

(** What ["%m/%d/%Y"] accepts: one or two digits for month and day, four
    for the year, a day of that month, and nothing else around. *)
Lemma strptime_mdY_examples :
  strptime "04/22/2025" fmt_mdY = Some (mk_datetime 2025 4 22 0 0 0)
  ∧ strptime "4/5/2025" fmt_mdY = Some (mk_datetime 2025 4 5 0 0 0)
  ∧ strptime "02/29/2024" fmt_mdY = Some (mk_datetime 2024 2 29 0 0 0)
  ∧ strptime "02/29/2025" fmt_mdY = None
  ∧ strptime "13/01/2025" fmt_mdY = None
  ∧ strptime "04/22/25" fmt_mdY = None
  ∧ strptime "2025-04-22" fmt_mdY = None
  ∧ strptime "04/22/2025 " fmt_mdY = None
  ∧ strptime "" fmt_mdY = None.
Proof. repeat split; vm_compute; reflexivity. Qed.

(** What ["%Y-%m-%d %H:%M:%S"] accepts. *)
Lemma strptime_Ymd_HMS_examples :
  strptime "2025-04-22 13:30:00" fmt_Ymd_HMS = Some (mk_datetime 2025 4 22 13 30 0)
  ∧ strptime "2025-4-2  9:05:7" fmt_Ymd_HMS = Some (mk_datetime 2025 4 2 9 5 7)
  ∧ strptime "2025-04-22 24:00:00" fmt_Ymd_HMS = None
  ∧ strptime "2025-04-22 13:30:60" fmt_Ymd_HMS = None
  ∧ strptime "2025-04-22 13:30" fmt_Ymd_HMS = None
  ∧ strptime "2025-04-22 TBA" fmt_Ymd_HMS = None
  ∧ strptime "04/22/2025 13:30:00" fmt_Ymd_HMS = None.
Proof. repeat split; vm_compute; reflexivity. Qed.

Lemma zpad_length (w : nat) : ∀ n, String.length (zpad w n) = w.
Proof.
  induction w as [|w IH]; intros n; [reflexivity|].
  cbn [zpad]. rewrite length_append, IH. cbn. lia.
Qed.

(** From year 1000 on the year is written in four digits. *)
Lemma year_text_four (y : Z) : 1000 <= y → year_text y = zpad 4 y.
Proof.
  intros Hy. unfold year_text.
  destruct (Z.ltb_spec y 10); [lia|].
  destruct (Z.ltb_spec y 100); [lia|].
  destruct (Z.ltb_spec y 1000); [lia | reflexivity].
Qed.

Lemma year_text_length (y : Z) : (String.length (year_text y) <= 4)%nat.
Proof.
  unfold year_text.
  destruct (y <? 10); [|destruct (y <? 100); [|destruct (y <? 1000)]];
    rewrite zpad_length; lia.
Qed.

(** From year 1000 on the start time of the broadcast dialect has the 19
    characters of [YYYY-MM-DD HH:MM:SS]. *)
Lemma strftime_Ymd_HMS_length (dt : datetime) :
  1000 <= year dt → String.length (strftime_Ymd_HMS dt) = 19%nat.
Proof.
  intros Hy. unfold strftime_Ymd_HMS. rewrite (year_text_four _ Hy).
  rewrite !length_append, !zpad_length. reflexivity.
Qed.

(** ** The time column of the generic dialect *)

Lemma hour12_clock12 (h : Z) : 0 <= h <= 23 → hour12 h = clock12 h.
Proof.
  intros Hh.
  assert (Hk : ∃ k, h = Z.of_nat k ∧ (k < 24)%nat) by (exists (Z.to_nat h); lia).
  destruct Hk as (k & -> & Hk).
  do 24 (destruct k as [|k]; [reflexivity|]). lia.
Qed.

(** What ["%Y-%m-%d %I:%M %p"] prints for a valid date and time. *)
Lemma strftime_Ymd_IMp_text (dt : datetime) :
  valid dt = true → strftime_Ymd_IMp dt = time_12h dt.
Proof.
  intros Hv. unfold strftime_Ymd_IMp, time_12h, am_pm.
  rewrite hour12_clock12; [reflexivity|].
  revert Hv. unfold valid. rewrite !andb_true_iff, !Z.leb_le. lia.
Qed.

Lemma formatted_time_spec (meeting : Meeting) :
  formatted_time meeting = time_column_spec meeting.
Proof.
  unfold formatted_time, time_column_spec, jointly_parsed, present, text_of.
  destruct (MeetingDate meeting) as [d|], (MeetingTime meeting) as [t|];
    cbn [opt_truthy default from_option id truthy negb orb andb];
    try reflexivity; [|destruct (truthy d); reflexivity].
  destruct (truthy d), (truthy t); try reflexivity. cbn [andb].
  destruct (strptime _ _) as [dt|] eqn:Hdt; [|reflexivity].
  apply strftime_Ymd_IMp_text. by apply strptime_valid in Hdt.
Qed.

Lemma csv_row_time (include_date : bool) (meeting : Meeting) :
  should_skip_event meeting = false →
  ∃ row, csv_row include_date meeting = Some row
         ∧ column "time" (csv_fields include_date) row
           = Some (time_column_spec meeting).
Proof.
  intros Hs. unfold csv_row. rewrite Hs. eexists. split; [reflexivity|].
  rewrite <- formatted_time_spec. by destruct include_date.
Qed.

(** C8: after the header the generic formatter writes one row for each
    record the event filter keeps, in order, and the [time] column of that
    row is the date and time in the form "Y-MM-DD hh:MM AM" (or PM) when
    both are present and parse together, the raw text "date time" when
    both are present but do not parse, and empty when either is absent. *)
Theorem csv_time_column (meetings : list Meeting) (include_date : bool) :
  let kept := List.filter (fun m => negb (should_skip_event m)) meetings in
  ∃ rows,
    format_meetings_csv_rows meetings include_date
    = csv_fields include_date :: rows
    ∧ format_meetings_csv meetings include_date
      = write_rows (csv_fields include_date :: rows)
    ∧ Forall2
        (fun meeting row =>
           ∃ time,
             column "time" (csv_fields include_date) row = Some time
             ∧ (∀ dt, jointly_parsed meeting = Some dt → time = time_12h dt)
             ∧ (present (MeetingDate meeting) = true →
                present (MeetingTime meeting) = true →
                jointly_parsed meeting = None →
                time = text_of (MeetingDate meeting) ++ " "
                       ++ text_of (MeetingTime meeting))
             ∧ (present (MeetingDate meeting) = false
                ∨ present (MeetingTime meeting) = false → time = ""))
        kept rows.
Proof.
  cbv zeta. unfold format_meetings_csv, format_meetings_csv_rows.
  eexists. split; [reflexivity|]. split; [reflexivity|].
  induction meetings as [|m ms IH]; [constructor|].
  cbn [omap list_omap List.filter].
  destruct (should_skip_event m) eqn:Hs; cbn [negb].
  - unfold csv_row at 1. rewrite Hs. exact IH.
  - destruct (csv_row_time include_date m Hs) as (row & -> & Ht).
    constructor; [|exact IH].
    exists (time_column_spec m). split; [exact Ht|].
    unfold time_column_spec. split; [|split].
    + intros dt Hdt. rewrite Hdt. unfold jointly_parsed in Hdt.
      destruct (present _ && present _); [reflexivity | discriminate].
    + intros Hd Htm Hnone. rewrite Hd, Htm, Hnone. reflexivity.
    + intros [H|H]; rewrite H; [reflexivity|].
      destruct (present (MeetingDate m)); reflexivity.
Qed.

Lemma csv_time_column_witness :
  ∃ rows,
    format_meetings_csv_rows [meeting_hfin; meeting_bad_time] false
    = csv_fields false :: rows
    ∧ format_meetings_csv [meeting_hfin; meeting_bad_time] false
      = write_rows (csv_fields false :: rows)
    ∧ Forall2
        (fun meeting row =>
           ∃ time,
             column "time" (csv_fields false) row = Some time
             ∧ (∀ dt, jointly_parsed meeting = Some dt → time = time_12h dt)
             ∧ (present (MeetingDate meeting) = true →
                present (MeetingTime meeting) = true →
                jointly_parsed meeting = None →
                time = text_of (MeetingDate meeting) ++ " "
                       ++ text_of (MeetingTime meeting))
             ∧ (present (MeetingDate meeting) = false
                ∨ present (MeetingTime meeting) = false → time = ""))
        [meeting_hfin; meeting_bad_time] rows.
Proof. exact (csv_time_column [meeting_hfin; meeting_bad_time] false). Defined.


Lemma formatted_time_examples :
  formatted_time meeting_hfin = "2025-04-22 01:30 PM"
  ∧ formatted_time meeting_bad_time = "2025-04-22 TBA"
  ∧ formatted_time (meeting_of_slices []) = ""
  ∧ formatted_time meeting_year_999 = "999-01-01 09:00 AM".
Proof. repeat split; reflexivity. Qed.

Lemma time_12h_examples :
  time_12h (mk_datetime 2025 4 22 13 30 0) = "2025-04-22 01:30 PM"
  ∧ time_12h (mk_datetime 2025 4 22 0 5 0) = "2025-04-22 12:05 AM"
  ∧ time_12h (mk_datetime 2025 4 22 12 0 0) = "2025-04-22 12:00 PM"
  ∧ time_12h (mk_datetime 999 1 1 9 0 0) = "999-01-01 09:00 AM".
Proof. repeat split; reflexivity. Qed.

(** ** The range fetch *)

Section RangeFetchProperties.

Variable get_meetings : string -> FetchResult.

Lemma add_day_next (c c' : datetime) :
  valid c = true → add_day c = Some c' →
  valid c' = true ∧ toordinal c' = toordinal c + 1
  ∧ (midnight c → midnight c').
Proof.
  intros Hv. pose proof (valid_bounds c Hv) as (Hy & Hm & Hd).
  revert Hv. unfold valid, add_day.
  rewrite !andb_true_iff, !Z.leb_le. intros Hv.
  pose proof (days_in_month_bounds (year c) (month c + 1)).
  pose proof (days_in_month_bounds (year c + 1) 1).
  destruct (Z.ltb_spec (day c) (days_in_month (year c) (month c)));
    [|destruct (Z.ltb_spec (month c) 12); [|destruct (Z.ltb_spec (year c) 9999)]];
    intros [= <-]; try discriminate; cbn [year month day hour minute second];
    rewrite ?andb_true_iff, ?Z.leb_le; unfold midnight, toordinal;
    cbn [year month day hour minute second].
  - repeat split; try lia.
  - repeat split; try lia.
    rewrite days_before_month_succ by lia. lia.
  - assert (month c = 12) as Hm12 by lia.
    assert (day c = 31) as Hd31.
    { rewrite Hm12 in *. unfold days_in_month in *. cbn in *. lia. }
    repeat split; try lia.
    rewrite days_before_year_succ, days_before_month_first.
    pose proof (days_before_month_succ (year c) 12 ltac:(lia)) as Hs.
    change (12 + 1) with 13 in Hs. rewrite days_before_month_year in Hs.
    rewrite Hm12, Hd31.
    replace (days_in_month (year c) 12) with 31 in Hs by reflexivity.
    destruct (is_leap (year c)); lia.
Qed.

(** The loop does not run out of fuel when it has more rounds than days
    left. *)
Lemma range_loop_fuel (fuel : nat) :
  ∀ current end_ by_date fetched,
    valid current = true → valid end_ = true →
    midnight current → midnight end_ →
    Z.max 0 (toordinal end_ - toordinal current + 1) < Z.of_nat fuel →
    fst (range_loop get_meetings fuel current end_ by_date fetched) ≠ RangeOutOfFuel.
Proof.
  induction fuel as [|fuel IH]; intros current end_ by_date fetched Hvc Hve Hmc Hme Hlt.
  - lia.
  - cbn [range_loop].
    destruct (PyDate.le current end_) eqn:Hle; [|discriminate].
    destruct (add_day current) as [next|] eqn:Hnext; [|discriminate].
    destruct (add_day_next _ _ Hvc Hnext) as (Hvn & Hon & Hmn).
    apply le_toordinal in Hle; try assumption.
    apply IH; auto. lia.
Qed.

Lemma range_loop_stops (fuel : nat) (current end_ : datetime)
  (by_date : gmap string FetchResult) (fetched : list string) :
  PyDate.le current end_ = false →
  range_loop get_meetings (S fuel) current end_ by_date fetched
  = (RangeMeetings by_date, fetched).
Proof. intros Hle. cbn [range_loop]. rewrite Hle. reflexivity. Qed.

End RangeFetchProperties.

(** The 32 rounds given to the loop are always enough: a call of
    [get_meeting_range] ends with an error value, a mapping, or the
    overflow past the last day of year 9999. *)
Lemma get_meeting_range_terminates (get_meetings : string -> FetchResult)
  (start_date end_date : string) :
  fst (get_meeting_range get_meetings start_date end_date) ≠ RangeOutOfFuel.
Proof.
  unfold get_meeting_range.
  destruct (strptime start_date fmt_mdY) as [start|] eqn:Hs; [|discriminate].
  destruct (strptime end_date fmt_mdY) as [end_|] eqn:He; [|discriminate].
  pose proof (strptime_mdY_midnight _ _ Hs) as Hms.
  pose proof (strptime_mdY_midnight _ _ He) as Hme.
  rewrite (days_between_midnight _ _ Hms Hme).
  destruct (Z.ltb_spec 30 (toordinal end_ - toordinal start)); [discriminate|].
  apply range_loop_fuel; eauto using strptime_valid. cbn. lia.
Qed.

(** C10: for two dates that parse as MM/DD/YYYY, the end earlier in the
    calendar than the start, [get_meeting_range] returns no error value
    but the empty mapping, and has requested no day from the API. *)
Theorem get_meeting_range_reversed (get_meetings : string -> FetchResult)
  (start_date end_date : string) (start end_ : datetime) :
  strptime start_date fmt_mdY = Some start →
  strptime end_date fmt_mdY = Some end_ →
  date_lt end_ start →
  get_meeting_range get_meetings start_date end_date = (RangeMeetings ∅, []).
Proof.
  intros Hs He Hlt. unfold get_meeting_range. rewrite Hs, He.
  pose proof (strptime_mdY_midnight _ _ Hs) as Hms.
  pose proof (strptime_mdY_midnight _ _ He) as Hme.
  pose proof (strptime_valid _ _ _ Hs) as Hvs.
  pose proof (strptime_valid _ _ _ He) as Hve.
  pose proof (toordinal_lt _ _ Hve Hvs Hlt) as Hord.
  rewrite (days_between_midnight _ _ Hms Hme).
  destruct (Z.ltb_spec 30 (toordinal end_ - toordinal start)); [lia|].
  apply range_loop_stops.
  destruct (PyDate.le start end_) eqn:Hle; [|reflexivity].
  apply le_toordinal in Hle; auto. lia.
Qed.

Lemma get_meeting_range_reversed_witness :
  get_meeting_range no_meetings "04/22/2025" "04/21/2025" = (RangeMeetings ∅, []).
Proof.
  eapply (get_meeting_range_reversed no_meetings "04/22/2025" "04/21/2025");
    [reflexivity | reflexivity |].
  right. split; [reflexivity|]. right. split; reflexivity.
Defined.

(** A range in calendar order requests each of its days once, in order. *)
Lemma get_meeting_range_three_days :
  snd (get_meeting_range no_meetings "02/27/2024" "03/01/2024")
  = ["02/27/2024"; "02/28/2024"; "02/29/2024"; "03/01/2024"].
Proof. vm_compute. reflexivity. Qed.

(** ** The slice aggregator *)

Lemma is_str_true (o : option string) (s : string) :
  is_str o s = true ↔ o = Some s.
Proof.
  destruct o as [x|]; cbn; [|split; discriminate].
  rewrite String.eqb_eq. split; congruence.
Qed.

Lemma default_truthy (o : option string) :
  truthy (default "" o) = true → o = Some (default "" o).
Proof. destruct o; cbn; [reflexivity | discriminate]. Qed.

Lemma default_truthy_present (o : option string) :
  truthy (default "" o) = present o.
Proof. destruct o; reflexivity. Qed.

Lemma last_bill_own (done : list Slice) (slice : Slice) (b : string) :
  BillRoot slice = Some b → b ≠ "" → last_bill (done ++ [slice]) b.
Proof.
  intros Hb Hne. exists done, slice, []. split; [reflexivity|].
  split; [exact Hb|]. split; [exact Hne|]. intros s Hs. inversion Hs.
Qed.

Lemma last_bill_kept (done : list Slice) (slice : Slice) (b : string) :
  present (BillRoot slice) = false → last_bill done b →
  last_bill (done ++ [slice]) b.
Proof.
  intros Hp (earlier & s & later & -> & Hb & Hne & Hl).
  exists earlier, s, (later ++ [slice])%list.
  split; [by rewrite <- app_assoc|]. split; [exact Hb|]. split; [exact Hne|].
  intros s'. rewrite elem_of_app, list_elem_of_singleton.
  intros [Hs | ->]; [by apply Hl | exact Hp].
Qed.

Lemma origin_more (done more : list Slice) (b d : string) :
  origin done b d → origin (done ++ more) b d.
Proof.
  intros (before & slice & after & -> & Hd & Hf).
  exists before, slice, (after ++ more)%list.
  split; [by rewrite <- app_assoc|]. by split.
Qed.

Lemma origin_last (done : list Slice) (slice : Slice) (b d : string) :
  SliceHighliteText slice = Some d → filed_under done slice b →
  origin (done ++ [slice]) b d.
Proof. intros Hd Hf. exists done, slice, []. by split. Qed.

Lemma agg_step_current_bill (st : AggState) (slice : Slice) :
  current_bill (agg_step st slice)
  = if present (BillRoot slice) then BillRoot slice else current_bill st.
Proof.
  rewrite <- (default_truthy_present (BillRoot slice)). unfold agg_step. cbv zeta.
  set (st1 := if truthy (default "" (BillRoot slice))
                 && negb (is_str (current_bill st) (default "" (BillRoot slice)))
              then _ else st).
  assert (H1 : current_bill st1
               = if truthy (default "" (BillRoot slice)) then BillRoot slice
                 else current_bill st).
  { subst st1. destruct (truthy (default "" (BillRoot slice))) eqn:Hb; cbn [andb].
    - destruct (is_str (current_bill st) _) eqn:Hs; cbn [negb current_bill].
      + apply is_str_true in Hs. rewrite Hs. symmetry. by apply default_truthy.
      + symmetry. by apply default_truthy.
    - reflexivity. }
  clearbody st1.
  destruct (negb (truthy (default "" (BillRoot slice))) && _) eqn:Hskip.
  - apply andb_true_iff in Hskip as [Hb _]. apply negb_true_iff in Hb.
    by rewrite Hb.
  - rewrite <- H1.
    destruct (opt_truthy (current_bill st1) && _ && _); [|reflexivity].
    destruct (negb (_ && String.eqb _ _)); reflexivity.
Qed.
(** Where the first loop stands after a slice: the current bill is the
    last bill seen, and the slice is filed under it. *)
Lemma agg_step_cursor (done : list Slice) (st : AggState) (slice : Slice) :
  (∀ b, current_bill st = Some b → last_bill done b) →
  ∀ b, current_bill (agg_step st slice) = Some b →
       last_bill (done ++ [slice]) b ∧ filed_under done slice b.
Proof.
  intros Hcur b. rewrite agg_step_current_bill.
  destruct (present (BillRoot slice)) eqn:Hp.
  - intros Hb. split; [|by left].
    apply last_bill_own; [exact Hb|]. intros ->. rewrite Hb in Hp. discriminate.
  - intros Hb. split; [by apply last_bill_kept, Hcur | right; auto].
Qed.

Lemma agg_inv_init : agg_inv [] agg_init.
Proof.
  split; cbn.
  - intros b H. discriminate.
  - intros g d H. inversion H.
  - intros d H. inversion H.
Qed.

Lemma flush_groups (done : list Slice) (st : AggState) :
  agg_inv done st →
  ∀ g d, g ∈ flush st → d ∈ details g →
         d ∈ used_details st ∧ origin done (bill g) d.
Proof.
  intros [_ Hg Hc] g d. unfold flush.
  destruct (opt_truthy (current_bill st) && nonempty (current_details st)); [|apply Hg].
  rewrite elem_of_app, list_elem_of_singleton. intros [Hin | ->]; [by apply Hg|].
  cbn [details bill]. intros Hd.
  destruct (Hc d Hd) as (Hu & b & Hb & Ho). rewrite Hb. cbn. auto.
Qed.

Lemma agg_step_inv (done : list Slice) (st : AggState) (slice : Slice) :
  agg_inv done st → agg_inv (done ++ [slice]) (agg_step st slice).
Proof.
  intros Hinv.
  pose proof (agg_step_cursor done st slice (inv_cursor _ _ Hinv)) as Hcur.
  revert Hcur. unfold agg_step. cbv zeta.
  destruct (negb (truthy (default "" (BillRoot slice)))
            && negb (truthy (default "" (SliceHighliteText slice)))).
  { intros Hcur. destruct Hinv as [_ Hg Hc]. split.
    - intros b Hb. by apply Hcur.
    - intros g d Hgin Hd. destruct (Hg g d Hgin Hd) as [Hu Ho].
      split; [exact Hu | by apply origin_more].
    - intros d Hd. destruct (Hc d Hd) as (Hu & b & Hb & Ho).
      split; [exact Hu|]. exists b. split; [exact Hb | by apply origin_more]. }
  set (st1 := if truthy (default "" (BillRoot slice))
                 && negb (is_str (current_bill st) (default "" (BillRoot slice)))
              then _ else st).
  assert (Hg1 : ∀ g d, g ∈ bill_details st1 → d ∈ details g →
                       d ∈ used_details st1 ∧ origin done (bill g) d).
  { subst st1. destruct (_ && negb _); [|apply Hinv].
    cbn [bill_details used_details]. apply flush_groups, Hinv. }
  assert (Hc1 : ∀ d, d ∈ current_details st1 →
                     d ∈ used_details st1
                     ∧ ∃ b, current_bill st1 = Some b ∧ origin done b d).
  { subst st1. destruct (_ && negb _); [|apply Hinv].
    cbn [current_details]. intros d Hd. inversion Hd. }
  clearbody st1.
  assert (Hkeep : (∀ b, current_bill st1 = Some b →
                        last_bill (done ++ [slice]) b ∧ filed_under done slice b) →
                  agg_inv (done ++ [slice]) st1).
  { intros Hcur. split.
    - intros b Hb. by apply Hcur.
    - intros g d Hgin Hd. destruct (Hg1 g d Hgin Hd) as [Hu Ho].
      split; [exact Hu | by apply origin_more].
    - intros d Hd. destruct (Hc1 d Hd) as (Hu & b & Hb & Ho).
      split; [exact Hu|]. exists b. split; [exact Hb | by apply origin_more]. }
  destruct (opt_truthy (current_bill st1)) eqn:Hcb; [|exact Hkeep].
  destruct (truthy (default "" (SliceHighliteText slice))) eqn:Hh; [|exact Hkeep].
  destruct (not_cancel_marker _); [|exact Hkeep]. cbn [andb].
  destruct (negb (_ && String.eqb _ _)); [|exact Hkeep].
  cbn [current_bill]. intros Hcur.
  split; cbn [bill_details current_details used_details current_bill].
  - intros b Hb. by apply Hcur.
  - intros g d Hgin Hd. destruct (Hg1 g d Hgin Hd) as [Hu Ho].
    split; [apply elem_of_union; by right | by apply origin_more].
  - intros d. rewrite elem_of_app, list_elem_of_singleton. intros [Hd | ->].
    + destruct (Hc1 d Hd) as (Hu & b & Hb & Ho).
      split; [apply elem_of_union; by right|].
      exists b. split; [exact Hb | by apply origin_more].
    + split; [apply elem_of_union; left; by apply elem_of_singleton|].
      destruct (current_bill st1) as [b|] eqn:Hb; [|discriminate].
      exists b. split; [reflexivity|].
      apply origin_last; [by apply default_truthy | by apply Hcur].
Qed.

Lemma agg_fold_inv (rest : list Slice) :
  ∀ done st, agg_inv done st →
             agg_inv (done ++ rest) (fold_left agg_step rest st).
Proof.
  induction rest as [|slice rest IH]; intros done st Hinv.
  - by rewrite app_nil_r.
  - cbn [fold_left]. rewrite (cons_middle slice done rest), app_assoc.
    apply IH, agg_step_inv, Hinv.
Qed.

Lemma agg_run_inv (slices : list Slice) : agg_inv slices (agg_run slices).
Proof. apply (agg_fold_inv slices [] agg_init), agg_inv_init. Qed.

Lemma general_fold (used : gset string) (l : list Slice) :
  ∀ acc x, x ∈ fold_left (general_step used) l acc →
           x ∈ acc ∨ ((x ∉ used) ∧ ∃ slice, slice ∈ l
                        ∧ present (BillRoot slice) = false
                        ∧ SliceHighliteText slice = Some x).
Proof.
  induction l as [|slice l IH]; intros acc x; cbn [fold_left]; [auto|].
  intros Hx. apply IH in Hx as [Hx | (Hu & s & Hs & Hb)].
  - unfold general_step in Hx. cbv zeta in Hx.
    destruct (truthy (default "" (BillRoot slice))) eqn:Hb; cbn [negb andb] in Hx; [by left|].
    destruct (truthy (default "" (SliceHighliteText slice))) eqn:Hh;
      cbn [andb] in Hx; [|by left].
    destruct (not_cancel_marker _); [|by left].
    destruct (bool_decide_reflect (default "" (SliceHighliteText slice) ∉ used))
      as [Hnu|]; cbn [andb] in Hx; [|by left].
    destruct (bool_decide _); [|by left].
    apply elem_of_app in Hx as [Hx | Hx]; [by left|].
    apply list_elem_of_singleton in Hx as ->. right. split; [exact Hnu|].
    exists slice. split; [by left|]. split.
    + by rewrite <- default_truthy_present.
    + by apply default_truthy.
  - right. split; [exact Hu|]. exists s. split; [by right | exact Hb].
Qed.

(** C2, as the code has it: every detail of a bill group is the highlight
    of a slice filed under the group's bill, which is a slice that carries
    that bill or a slice without a bill that comes after one carrying it,
    with no other bill in between; and no detail of a group is among the
    general items. *)
Theorem details_origin (meeting : Meeting) (g : BillDetailGroup) (d : string) :
  g ∈ fst (extract_bills_with_details meeting) →
  d ∈ details g →
  origin (default [] (MeetingSlices meeting)) (bill g) d
  ∧ d ∉ snd (extract_bills_with_details meeting).
Proof.
  unfold extract_bills_with_details. cbv zeta. cbn [fst snd].
  set (l := default [] (MeetingSlices meeting)).
  intros Hg Hd.
  destruct (flush_groups l _ (agg_run_inv l) g d Hg Hd) as [Hu Ho].
  split; [exact Ho|].
  intros Hgen. apply general_fold in Hgen as [Hgen | [Hnu _]].
  - inversion Hgen.
  - contradiction.
Qed.

Lemma details_origin_witness :
  origin slices_sb5 "SB5" "Adjourn"
  ∧ "Adjourn" ∉ snd (extract_bills_with_details (meeting_of_slices slices_sb5)).
Proof.
  apply (details_origin (meeting_of_slices slices_sb5)
           (mk_group "SB5" ["Fiscal note"; "Adjourn"]) "Adjourn").
  - apply list_elem_of_In. vm_compute. left. reflexivity.
  - apply list_elem_of_In. vm_compute. right. left. reflexivity.
Defined.

(** C2 as the spec words it fails: "Adjourn" is a detail of the group of
    SB5, and no slice with that highlight carries SB5. *)
Lemma detail_from_slice_without_bill :
  ∃ g d, g ∈ fst (extract_bills_with_details (meeting_of_slices slices_sb5))
         ∧ d ∈ details g
         ∧ ¬ ∃ slice, slice ∈ slices_sb5
                      ∧ SliceHighliteText slice = Some d
                      ∧ BillRoot slice = Some (bill g).
Proof.
  exists (mk_group "SB5" ["Fiscal note"; "Adjourn"]), "Adjourn". split; [|split].
  - apply list_elem_of_In. vm_compute. left. reflexivity.
  - apply list_elem_of_In. vm_compute. right. left. reflexivity.
  - intros (slice & Hin & Hh & Hb). apply list_elem_of_In in Hin.
    destruct Hin as [<- | [<- | []]]; cbn in Hh, Hb; discriminate.
Qed.

(** The ways to split a list of four slices. *)
Lemma split_four (s1 s2 s3 s4 slice : Slice) (before after : list Slice) :
  [s1; s2; s3; s4] = (before ++ slice :: after)%list →
  (before = [] ∧ slice = s1) ∨ (before = [s1] ∧ slice = s2)
  ∨ (before = [s1; s2] ∧ slice = s3) ∨ (before = [s1; s2; s3] ∧ slice = s4).
Proof.
  destruct before as [|b1 [|b2 [|b3 [|b4 [|b5 before]]]]]; cbn; intros [= ]; subst; auto.
  all: try (by destruct before).
Qed.

(** Where a slice stands decides the bill it is filed under: in
    [slices_two_bills] the highlight "Z" comes from a slice filed under
    HB2 and not under HB1, and "X", ahead of every bill, from a slice
    filed under no bill. *)
Lemma origin_by_position :
  extract_bills_with_details (meeting_of_slices slices_two_bills)
  = ([mk_group "HB1" ["a"]; mk_group "HB2" ["b"; "Z"]], ["X"])
  ∧ origin slices_two_bills "HB2" "Z"
  ∧ ¬ origin slices_two_bills "HB1" "Z"
  ∧ ∀ b, ¬ origin slices_two_bills b "X".
Proof.
  split; [vm_compute; reflexivity|]. split; [|split].
  - exists [mk_slice None (Some "X") None; mk_slice (Some "HB1") (Some "a") None;
            mk_slice (Some "HB2") (Some "b") None], (mk_slice None (Some "Z") None), [].
    split; [reflexivity|]. split; [reflexivity|]. right. split; [reflexivity|].
    exists [mk_slice None (Some "X") None; mk_slice (Some "HB1") (Some "a") None],
           (mk_slice (Some "HB2") (Some "b") None), [].
    split; [reflexivity|]. split; [reflexivity|]. split; [discriminate|].
    intros s Hs. inversion Hs.
  - intros (before & slice & after & Heq & Hd & Hf).
    apply split_four in Heq as [[-> ->] | [[-> ->] | [[-> ->] | [-> ->]]]];
      try discriminate.
    destruct Hf as [Hf | [_ (earlier & s & later & Heq & Hb & _ & Hl)]]; [discriminate|].
    destruct earlier as [|e1 [|e2 [|e3 [|e4 earlier]]]]; cbn in Heq;
      injection Heq; intros; subst; try discriminate.
    specialize (Hl (mk_slice (Some "HB2") (Some "b") None) ltac:(by left)).
    discriminate.
  - intros b (before & slice & after & Heq & Hd & Hf).
    apply split_four in Heq as [[-> ->] | [[-> ->] | [[-> ->] | [-> ->]]]];
      try discriminate.
    destruct Hf as [Hf | [_ (earlier & s & later & Heq & _)]]; [discriminate|].
    by destruct earlier.
Qed.

(** ** Bills that accumulate no detail *)

Lemma agg_step_groups (st : AggState) (slice : Slice) :
  bill_details (agg_step st slice) = bill_details st
  ∨ bill_details (agg_step st slice) = flush st.
Proof.
  unfold agg_step. cbv zeta.
  destruct (negb _ && negb _); [by left|].
  destruct (truthy (default "" (BillRoot slice)) && negb _).
  - right. repeat (destruct (_ : bool); cbn); reflexivity.
  - left. repeat (destruct (_ : bool); cbn); reflexivity.
Qed.

Lemma flush_not_bill (b : string) (st : AggState) :
  (is_str (current_bill st) b = true → nonempty (current_details st) = false) →
  (∀ g, g ∈ bill_details st → bill g ≠ b) →
  ∀ g, g ∈ flush st → bill g ≠ b.
Proof.
  intros Hcur Hold g. unfold flush.
  destruct (opt_truthy (current_bill st)) eqn:Ht; cbn [andb]; [|apply Hold].
  destruct (nonempty (current_details st)) eqn:Hn; [|apply Hold].
  rewrite elem_of_app, list_elem_of_singleton. intros [Hg | ->]; [by apply Hold|].
  cbn [bill]. intros <-.
  destruct (current_bill st) as [cb|]; [|discriminate]. cbn in Hcur.
  rewrite String.eqb_refl in Hcur. specialize (Hcur eq_refl). discriminate.
Qed.

(** The details of the current bill after a round of the first loop:
    none when the slice brings a new bill, those before otherwise, and
    then the highlight of the slice when there is a current bill and the
    slice contributes. *)
Lemma agg_step_current_details (st : AggState) (slice : Slice) :
  current_details (agg_step st slice)
  = ((if present (BillRoot slice)
         && negb (is_str (current_bill st) (text_of (BillRoot slice)))
      then [] else current_details st)
     ++ (if opt_truthy (current_bill (agg_step st slice)) && contributes slice
         then [text_of (SliceHighliteText slice)] else []))%list.
Proof.
  rewrite agg_step_current_bill.
  rewrite <- (default_truthy_present (BillRoot slice)).
  unfold agg_step, contributes, text_of. cbv zeta.
  destruct (truthy (default "" (BillRoot slice))) eqn:Hb; cbn [negb andb].
  - change (opt_truthy (BillRoot slice)) with (present (BillRoot slice)).
    rewrite <- (default_truthy_present (BillRoot slice)), Hb. cbn [andb].
    set (st1 := if negb _ then _ else st).
    assert (H1 : current_details st1
                 = if negb (is_str (current_bill st) (default "" (BillRoot slice)))
                   then [] else current_details st).
    { subst st1. by destruct (negb _). }
    assert (H2 : opt_truthy (current_bill st1) = true).
    { subst st1. destruct (is_str (current_bill st) _) eqn:Hs; cbn [negb current_bill].
      - apply is_str_true in Hs. rewrite Hs. exact Hb.
      - exact Hb. }
    clearbody st1. rewrite H2, <- H1. cbn [andb].
    destruct (truthy (default "" (SliceHighliteText slice))); cbn [andb];
      [|by rewrite app_nil_r].
    destruct (not_cancel_marker _); cbn [andb]; [|by rewrite app_nil_r].
    destruct (negb (_ =? _)%string); [reflexivity | by rewrite app_nil_r].
  - destruct (truthy (default "" (SliceHighliteText slice))) eqn:Hh; cbn [andb].
    + destruct (opt_truthy (current_bill st)); cbn [andb]; [|by rewrite app_nil_r].
      destruct (not_cancel_marker _); cbn [andb]; [|by rewrite app_nil_r].
      assert (Hne : (default "" (BillRoot slice)
                     =? default "" (SliceHighliteText slice))%string = false).
      { apply String.eqb_neq. intros Heq. rewrite Heq, Hh in Hb. discriminate. }
      rewrite Hne. reflexivity.
    + rewrite andb_false_r. by rewrite app_nil_r.
Qed.

Lemma silent_inv_init (b : string) : silent_inv b [] agg_init.
Proof.
  split; cbn.
  - intros c H. discriminate.
  - reflexivity.
  - intros g H. inversion H.
Qed.

Lemma silent_flush (b : string) (done : list Slice) (st : AggState) :
  silent_inv b done st → ∀ g, g ∈ flush st → bill g ≠ b.
Proof.
  intros [_ Hc Hg]. apply flush_not_bill; [|exact Hg].
  intros Hb. apply is_str_true in Hb. by rewrite (Hc Hb).
Qed.

Lemma silent_step (b : string) (done : list Slice) (st : AggState)
  (slice : Slice) :
  (∀ c, filed_under done slice c → c = b → contributes slice = false) →
  silent_inv b done st → silent_inv b (done ++ [slice]) (agg_step st slice).
Proof.
  intros Hsil Hinv.
  pose proof (agg_step_cursor done st slice (silent_cursor _ _ _ Hinv)) as Hcur.
  split.
  - intros c Hc. by apply Hcur.
  - intros Hb. rewrite agg_step_current_details.
    rewrite (Hsil b (proj2 (Hcur b Hb)) eq_refl), andb_false_r, app_nil_r.
    destruct (present (BillRoot slice)) eqn:Hp; cbn [andb].
    + destruct (is_str (current_bill st) _) eqn:Hs; cbn [negb]; [|reflexivity].
      apply (silent_current _ _ _ Hinv).
      apply is_str_true in Hs. rewrite Hs.
      rewrite agg_step_current_bill, Hp in Hb. rewrite <- Hb.
      unfold text_of. symmetry. apply default_truthy.
      by rewrite default_truthy_present.
    + apply (silent_current _ _ _ Hinv).
      by rewrite agg_step_current_bill, Hp in Hb.
  - destruct (agg_step_groups st slice) as [-> | ->];
      [apply (silent_groups _ _ _ Hinv) | by eapply silent_flush].
Qed.

Lemma silent_fold (b : string) (rest : list Slice) :
  ∀ done st, adds_nothing b (done ++ rest) → silent_inv b done st →
             silent_inv b (done ++ rest) (fold_left agg_step rest st).
Proof.
  induction rest as [|slice rest IH]; intros done st Hsil Hinv.
  - by rewrite app_nil_r.
  - cbn [fold_left]. rewrite (cons_middle slice done rest), app_assoc.
    rewrite (cons_middle slice done rest), app_assoc in Hsil.
    apply IH; [exact Hsil|]. apply silent_step; [|exact Hinv].
    intros c Hf ->. apply (Hsil done slice rest); [|exact Hf].
    by rewrite <- app_assoc.
Qed.

(** C5, as the code has it: a bill none of whose slices contributes a
    detail, the slices that carry it as well as the slices without a bill
    that are filed under it, is the bill of no group; and its identifier
    is among the general items only when a slice without a bill has that
    very text as its highlight. *)
Theorem silent_bill_dropped (meeting : Meeting) (b : string) :
  adds_nothing b (default [] (MeetingSlices meeting)) →
  (∀ g, g ∈ fst (extract_bills_with_details meeting) → bill g ≠ b)
  ∧ (b ∈ snd (extract_bills_with_details meeting) →
     ∃ slice, slice ∈ default [] (MeetingSlices meeting)
              ∧ present (BillRoot slice) = false
              ∧ SliceHighliteText slice = Some b).
Proof.
  unfold extract_bills_with_details. cbv zeta. cbn [fst snd].
  intros Hsil. split.
  - eapply silent_flush.
    apply (silent_fold b _ [] agg_init Hsil), silent_inv_init.
  - intros Hgen. apply general_fold in Hgen as [Hgen | [_ Hs]]; [inversion Hgen | exact Hs].
Qed.

(** The one slice of HB1 in [slices_bare_bill] has the bill itself as its
    highlight, and HB2 comes right after it. *)
Lemma bare_bill_adds_nothing : adds_nothing "HB1" slices_bare_bill.
Proof.
  intros before slice after Heq Hf.
  destruct before as [|s1 [|s2 [|s3 before]]]; cbn in Heq.
  - injection Heq as <- <-. reflexivity.
  - injection Heq as <- <- <-. destruct Hf as [Hf | [Hf _]]; discriminate.
  - injection Heq as _ _ Heq. discriminate.
  - injection Heq as _ _ Heq. discriminate.
Qed.

Lemma silent_bill_dropped_witness :
  (∀ g, g ∈ fst (extract_bills_with_details (meeting_of_slices slices_bare_bill)) →
        bill g ≠ "HB1")
  ∧ ("HB1" ∈ snd (extract_bills_with_details (meeting_of_slices slices_bare_bill)) →
     ∃ slice, slice ∈ slices_bare_bill
              ∧ present (BillRoot slice) = false
              ∧ SliceHighliteText slice = Some "HB1").
Proof.
  apply (silent_bill_dropped (meeting_of_slices slices_bare_bill) "HB1").
  exact bare_bill_adds_nothing.
Defined.

Lemma text_is_bill_adds_nothing : adds_nothing "HB1" slices_text_is_bill.
Proof.
  intros before slice after Heq Hf.
  destruct before as [|s1 [|s2 [|s3 before]]]; cbn in Heq.
  - injection Heq as <- <-.
    destruct Hf as [Hf | [_ (earlier & s & later & Hl & _)]]; [discriminate|].
    by destruct earlier.
  - injection Heq as <- <- <-. reflexivity.
  - injection Heq as _ _ Heq. discriminate.
  - injection Heq as _ _ Heq. discriminate.
Qed.

(** C5 as the spec words it fails twice.  No slice filed under HB1 in
    [slices_text_is_bill] adds a detail, yet "HB1" is a general item: it
    is the highlight of a slice without a bill.  The only slice that
    carries HB1 in [slices_trailing] adds no detail, yet HB1 has a group:
    the slice without a bill after it is filed under it. *)
Lemma silent_bill_still_listed :
  (own_slices_silent "HB1" slices_text_is_bill = true
   ∧ adds_nothing "HB1" slices_text_is_bill
   ∧ "HB1" ∈ snd (extract_bills_with_details (meeting_of_slices slices_text_is_bill)))
  ∧ (own_slices_silent "HB1" slices_trailing = true
     ∧ "HB1" ∈ map bill (fst (extract_bills_with_details (meeting_of_slices slices_trailing)))).
Proof.
  split; [split; [reflexivity | split; [exact text_is_bill_adds_nothing|]] | split; [reflexivity|]];
    apply list_elem_of_In; vm_compute; left; reflexivity.
Qed.

(** ** The text of a bill group *)

Lemma find_short_title_skip (b : string) (before rest : list Slice) :
  (∀ s, s ∈ before → ¬ has_title_field b s) →
  find_short_title b (before ++ rest) = find_short_title b rest.
Proof.
  induction before as [|s before IH]; intros Hnone; [reflexivity|].
  cbn [app find_short_title].
  destruct (is_str (BillRoot s) b) eqn:Hb; cbn [andb].
  - destruct (bool_decide_reflect (is_Some (ShortTitle s))) as [Hs|Hs].
    + exfalso. apply (Hnone s); [by left|]. split; [by apply is_str_true | exact Hs].
    + apply IH. intros s' Hs'. apply Hnone. by right.
  - apply IH. intros s' Hs'. apply Hnone. by right.
Qed.

Lemma bill_text_rendered (meeting : Meeting) (item : BillDetailGroup) :
  details item ≠ [] →
  bill_text meeting item
  = rendered (bill item)
             (find_short_title (bill item) (default [] (MeetingSlices meeting)))
             (details item).
Proof.
  intros Hd. unfold bill_text, rendered. cbv zeta.
  destruct (details item) as [|d ds]; [contradiction|]. cbn [nonempty].
  destruct (truthy _); [|reflexivity].
  by rewrite !append_assoc.
Qed.

(** ** Replacing, trimming *)

Lemma startswith_length (p s : string) :
  startswith p s = true → (String.length p <= String.length s)%nat.
Proof.
  revert s. induction p as [|a p IH]; intros [|b s]; cbn; try lia; try discriminate.
  intros H. apply andb_true_iff in H as [_ H]. apply IH in H. lia.
Qed.

Section Replace.

Variables old new : string.

Lemma replace_absent (s : string) :
  contains old s = false → replace old new s = s.
Proof.
  unfold replace. induction s as [|c s IH]; [reflexivity|].
  cbn [contains replace_from]. intros H. apply orb_false_iff in H as [Hp Hc].
  rewrite Hp. f_equal. by apply IH.
Qed.

Lemma replace_from_length (s : string) :
  (String.length new <= String.length old)%nat →
  ∀ k, (String.length (replace_from old new k s) + Nat.min k (String.length s)
        <= String.length s)%nat.
Proof.
  intros Hlen. induction s as [|c s IH]; intros k; [cbn; lia|].
  cbn [replace_from String.length]. destruct k as [|k].
  - destruct (startswith old (String c s)) eqn:Hp.
    + apply startswith_length in Hp. cbn [String.length] in Hp.
      rewrite length_append. specialize (IH (String.length old - 1)%nat). lia.
    + cbn [String.length]. specialize (IH 0%nat). lia.
  - specialize (IH k). lia.
Qed.

Lemma replace_shortens (s : string) :
  (String.length new < String.length old)%nat →
  contains old s = true →
  (String.length (replace old new s) < String.length s)%nat.
Proof.
  intros Hlen. unfold replace. induction s as [|c s IH].
  - cbn. destruct old; cbn in *; [lia | discriminate].
  - cbn [contains replace_from String.length]. intros Hc.
    destruct (startswith old (String c s)) eqn:Hp.
    + apply startswith_length in Hp. cbn [String.length] in Hp.
      rewrite length_append.
      pose proof (replace_from_length s ltac:(lia) (String.length old - 1)%nat). lia.
    + cbn [orb] in Hc. cbn [String.length]. specialize (IH Hc). lia.
Qed.

Hypothesis new_not_empty : new ≠ "".
Hypothesis new_end : ends_with_space new = false.

Lemma replace_not_empty (c : ascii) (s : string) :
  replace_from old new 0 (String c s) ≠ "".
Proof.
  cbn [replace_from]. destruct (startswith old (String c s)); [|discriminate].
  destruct new; [contradiction | discriminate].
Qed.

Lemma ends_with_space_cons (c : ascii) (s : string) :
  s ≠ "" → ends_with_space (String c s) = ends_with_space s.
Proof. destruct s; [contradiction | reflexivity]. Qed.

Lemma ends_with_space_append (a b : string) :
  b ≠ "" → ends_with_space (a ++ b) = ends_with_space b.
Proof.
  intros Hb. induction a as [|x a IH]; [reflexivity|].
  rewrite append_cons, ends_with_space_cons; [exact IH|].
  destruct a, b; try discriminate; contradiction.
Qed.

Lemma replace_from_end (s : string) :
  ends_with_space s = false →
  ∀ k, ends_with_space (replace_from old new k s) = false.
Proof.
  induction s as [|c s IH]; intros Hs k; [reflexivity|].
  assert (Hs' : ends_with_space s = false).
  { destruct s; [reflexivity|]. by rewrite ends_with_space_cons in Hs. }
  cbn [replace_from]. destruct k as [|k]; [|by apply IH].
  destruct (startswith old (String c s)).
  - destruct (replace_from old new (String.length old - 1) s) eqn:Hr.
    + by rewrite append_nil_r.
    + rewrite ends_with_space_append by discriminate. rewrite <- Hr. by apply IH.
  - destruct s as [|c' s]; [exact Hs|].
    rewrite ends_with_space_cons by apply replace_not_empty. by apply IH.
Qed.

Lemma replace_start (s : string) :
  starts_with_space old = true →
  starts_with_space s = false →
  starts_with_space (replace old new s) = false.
Proof.
  intros Hold Hs. unfold replace. destruct s as [|c s]; [reflexivity|].
  cbn [replace_from]. cbn in Hs.
  destruct (startswith old (String c s)) eqn:Hp; [|exact Hs].
  destruct old as [|a p]; [discriminate|]. cbn in Hold, Hp.
  apply andb_true_iff in Hp as [Ha _]. apply Ascii.eqb_eq in Ha. congruence.
Qed.

End Replace.

Lemma lstrip_id (s : string) : starts_with_space s = false → lstrip s = s.
Proof. destruct s; cbn; [reflexivity|]. by intros ->. Qed.

Lemma lstrip_start (s : string) : starts_with_space (lstrip s) = false.
Proof.
  induction s as [|c s IH]; [reflexivity|]. cbn [lstrip].
  destruct (is_space c) eqn:Hc; [exact IH | exact Hc].
Qed.

Lemma rstrip_id (s : string) : ends_with_space s = false → rstrip s = s.
Proof.
  induction s as [|c s IH]; [reflexivity|]. intros Hs. cbn [rstrip].
  destruct s as [|c' s].
  - cbn in *. by rewrite Hs.
  - rewrite ends_with_space_cons in Hs by discriminate.
    rewrite (IH Hs). reflexivity.
Qed.

Lemma rstrip_end (s : string) : ends_with_space (rstrip s) = false.
Proof.
  induction s as [|c s IH]; [reflexivity|]. cbn [rstrip].
  destruct (rstrip s) as [|c' r] eqn:Hr.
  - destruct (is_space c) eqn:Hc; [reflexivity | exact Hc].
  - rewrite ends_with_space_cons by discriminate. exact IH.
Qed.

Lemma rstrip_start (s : string) :
  starts_with_space s = false → starts_with_space (rstrip s) = false.
Proof.
  destruct s as [|c s]; [reflexivity|]. cbn [rstrip starts_with_space]. intros Hc.
  destruct (rstrip s); [by rewrite Hc | exact Hc].
Qed.

(** A trimmed text has no white space at either end, and trimming such a
    text changes nothing. *)
Lemma strip_edges (s : string) :
  starts_with_space (strip s) = false ∧ ends_with_space (strip s) = false.
Proof.
  unfold strip. split; [apply rstrip_start, lstrip_start | apply rstrip_end].
Qed.

Lemma strip_id (s : string) :
  starts_with_space s = false → ends_with_space s = false → strip s = s.
Proof. intros Hs He. unfold strip. rewrite (lstrip_id s Hs). by apply rstrip_id. Qed.

Lemma endswith_space (p s : string) :
  ends_with_space p = true → ends_with_space s = false → endswith p s = false.
Proof.
  intros Hp. induction s as [|c s IH]; intros Hs; cbn [endswith].
  - destruct p; [discriminate | reflexivity].
  - destruct (String.eqb_spec p (String c s)) as [-> | _]; [congruence|].
    cbn [orb]. destruct s as [|c' s].
    + cbn. destruct p; [discriminate | reflexivity].
    + apply IH. by rewrite ends_with_space_cons in Hs.
Qed.

(** ** The loop that collapses separators *)

Lemma collapse_separators_edges (fuel : nat) :
  ∀ s, starts_with_space s = false → ends_with_space s = false →
       starts_with_space (collapse_separators fuel s) = false
       ∧ ends_with_space (collapse_separators fuel s) = false.
Proof.
  induction fuel as [|fuel IH]; intros s Hs He; cbn [collapse_separators]; [auto|].
  destruct (contains " | |" s); [|auto].
  apply IH.
  - by apply replace_start.
  - unfold replace. by apply replace_from_end.
Qed.

(** With as many rounds as the text has characters the loop runs to its
    end: no [" | |"] is left. *)
Lemma collapse_separators_done (fuel : nat) :
  ∀ s, (String.length s <= fuel)%nat →
       contains " | |" (collapse_separators fuel s) = false.
Proof.
  induction fuel as [|fuel IH]; intros s Hlen; cbn [collapse_separators].
  - destruct s; [reflexivity | cbn in Hlen; lia].
  - destruct (contains " | |" s) eqn:Hc; [|exact Hc].
    apply IH. pose proof (replace_shortens " | |" " |" s ltac:(cbn; lia) Hc). lia.
Qed.

Lemma collapse_separators_id (fuel : nat) (s : string) :
  contains " | |" s = false → collapse_separators fuel s = s.
Proof. intros Hc. destruct fuel; cbn [collapse_separators]; [|rewrite Hc]; reflexivity. Qed.

(** What one pass of the strip leaves. *)
Lemma strip_streaming_info_shape (description : string) :
  let stripped := strip_streaming_info description in
  starts_with_space stripped = false
  ∧ ends_with_space stripped = false
  ∧ contains " | |" stripped = false.
Proof.
  unfold strip_streaming_info. cbv zeta.
  set (u := strip _).
  destruct (strip_edges (replace " |  | " " | " (replace streaming_info "" description)))
    as [Hs He]. fold u in Hs, He.
  destruct (collapse_separators_edges (String.length u) u Hs He) as [Hs' He'].
  rewrite (endswith_space " | " _ eq_refl He').
  repeat split; [exact Hs' | exact He' |].
  by apply collapse_separators_done.
Qed.

(** C7, as the code has it: a second pass of the strip changes nothing
    when the first pass has left neither the streaming annotation nor the
    artifact [" |  | "]; one pass of each replacement can leave such an
    occurrence behind. *)
Theorem strip_streaming_info_twice (description : string) :
  contains streaming_info (strip_streaming_info description) = false →
  contains " |  | " (strip_streaming_info description) = false →
  strip_streaming_info (strip_streaming_info description)
  = strip_streaming_info description.
Proof.
  intros Hinfo Hsep.
  destruct (strip_streaming_info_shape description) as (Hs & He & Hc).
  cbv zeta in Hs, He, Hc.
  set (t := strip_streaming_info description) in *.
  unfold strip_streaming_info at 1.
  rewrite (replace_absent _ _ _ Hinfo), (replace_absent _ _ _ Hsep).
  rewrite (strip_id _ Hs He), (collapse_separators_id _ _ Hc).
  by rewrite (endswith_space " | " _ eq_refl He).
Qed.

Lemma strip_streaming_info_twice_witness :
  strip_streaming_info
    (strip_streaming_info "Overview | **Streamed live on AKL.tv** | | Public testimony")
  = strip_streaming_info "Overview | **Streamed live on AKL.tv** | | Public testimony".
Proof.
  apply (strip_streaming_info_twice
           "Overview | **Streamed live on AKL.tv** | | Public testimony");
    vm_compute; reflexivity.
Defined.

(** C7 as the spec words it fails: one pass over a text with two artifacts
    in a row leaves one of them, which a second pass removes; one pass
    over an annotation wrapped around another leaves an annotation. *)
Lemma strip_streaming_info_not_idempotent :
  strip_streaming_info "A |  |  | B" = "A |  | B"
  ∧ strip_streaming_info (strip_streaming_info "A |  |  | B") = "A | B"
  ∧ strip_streaming_info (strip_streaming_info "A |  |  | B")
    ≠ strip_streaming_info "A |  |  | B"
  ∧ strip_streaming_info
      (strip_streaming_info "**Streamed live **Streamed live on AKL.tv**on AKL.tv**")
    ≠ strip_streaming_info "**Streamed live **Streamed live on AKL.tv**on AKL.tv**".
Proof. repeat split; vm_compute; discriminate. Qed.

(** Such texts are descriptions of records: with two annotations in a row
    among the general items, the description for CSV still changes under
    a second pass. *)
Lemma build_description_strip_again :
  build_description (meeting_of_slices slices_streamed) true
  = "Overview |  | Adjourn"
  ∧ strip_streaming_info (build_description (meeting_of_slices slices_streamed) true)
    = "Overview | Adjourn".
Proof. split; vm_compute; reflexivity. Qed.

(* ===================================================================== *)
(** * Further properties *)
(* ===================================================================== *)

(** ** What the slice aggregator returns *)

Lemma truthy_ne (s : string) : truthy s = true ↔ s ≠ "".
Proof. destruct s; cbn; split; congruence. Qed.

Lemma agg_shape_init (l : list Slice) : agg_shape l agg_init.
Proof.
  split; cbn.
  - intros g H. inversion H.
  - discriminate.
  - intros d H. inversion H.
  - intros d H. by apply not_elem_of_empty in H.
Qed.

Lemma flush_shape (l : list Slice) (st : AggState) :
  agg_shape l st →
  (∀ g, g ∈ flush st →
        details g ≠ [] ∧ bill g ≠ ""
        ∧ (∃ slice, slice ∈ l ∧ BillRoot slice = Some (bill g))
        ∧ ∀ d, d ∈ details g → detail_text d)
  ∧ (∀ d, d ∈ used_details st → ∃ g, g ∈ flush st ∧ d ∈ details g).
Proof.
  intros [Hg Hb Hc Hu]. unfold flush. split.
  - intros g.
    destruct (opt_truthy (current_bill st)) eqn:Ht; cbn [andb]; [|apply Hg].
    destruct (current_details st) as [|d0 ds] eqn:Hd; cbn [nonempty]; [apply Hg|].
    rewrite elem_of_app, list_elem_of_singleton. intros [Hin | ->]; [by apply Hg|].
    cbn [details bill].
    destruct (current_bill st) as [b|]; [|discriminate].
    destruct (Hb b eq_refl) as [Hne Hs]. cbn.
    split; [discriminate|]. split; [exact Hne|]. split; [exact Hs|].
    intros d Hdin. exact (proj1 (Hc d Hdin)).
  - intros d Hd. destruct (Hu d Hd) as [(g & Hgin & Hdg) | Hcur].
    + exists g. split; [|exact Hdg].
      destruct (_ && _); [apply elem_of_app; by left | exact Hgin].
    + destruct (Hc d Hcur) as [_ [b Hsome]].
      destruct (current_details st) as [|d0 ds] eqn:Hds; [inversion Hcur|].
      destruct (Hb b Hsome) as [Hne _]. rewrite Hsome. cbn [opt_truthy nonempty].
      apply truthy_ne in Hne. rewrite Hne. cbn [andb].
      eexists. split; [apply elem_of_app; right; by apply list_elem_of_singleton|].
      exact Hcur.
Qed.

Lemma agg_step_shape (l : list Slice) (st : AggState) (slice : Slice) :
  slice ∈ l → agg_shape l st → agg_shape l (agg_step st slice).
Proof.
  intros Hin Hsh. unfold agg_step. cbv zeta.
  destruct (negb (truthy (default "" (BillRoot slice)))
            && negb (truthy (default "" (SliceHighliteText slice)))); [exact Hsh|].
  set (st1 := if truthy (default "" (BillRoot slice))
                 && negb (is_str (current_bill st) (default "" (BillRoot slice)))
              then _ else st).
  assert (Hsh1 : agg_shape l st1).
  { subst st1.
    destruct (truthy (default "" (BillRoot slice))) eqn:Hb; cbn [andb]; [|exact Hsh].
    destruct (negb _); [|exact Hsh].
    destruct (flush_shape l st Hsh) as [Hf Hu].
    split; cbn [bill_details current_details used_details current_bill].
    - exact Hf.
    - intros b [= <-]. split; [by apply truthy_ne|].
      exists slice. split; [exact Hin | by apply default_truthy].
    - intros d H. inversion H.
    - intros d Hd. left. by apply Hu. }
  clearbody st1.
  destruct (opt_truthy (current_bill st1)) eqn:Hcur; [|exact Hsh1].
  destruct (truthy (default "" (SliceHighliteText slice))) eqn:Hh; [|exact Hsh1].
  destruct (not_cancel_marker _) eqn:Hnc; [|exact Hsh1]. cbn [andb].
  destruct (negb _); [|exact Hsh1].
  destruct Hsh1 as [Hg Hb Hc Hu].
  split; cbn [bill_details current_details used_details current_bill].
  - exact Hg.
  - exact Hb.
  - intros d. rewrite elem_of_app, list_elem_of_singleton. intros [Hd | ->].
    + by apply Hc.
    + split; [split; [by apply truthy_ne | exact Hnc]|].
      destruct (current_bill st1); [by eexists | discriminate].
  - intros d. rewrite elem_of_union, elem_of_singleton. intros [-> | Hd].
    + right. apply elem_of_app. right. by apply list_elem_of_singleton.
    + destruct (Hu d Hd) as [? | ?]; [by left|].
      right. apply elem_of_app. by left.
Qed.

Lemma agg_fold_shape (l rest : list Slice) :
  ∀ st, (∀ slice, slice ∈ rest → slice ∈ l) → agg_shape l st →
        agg_shape l (fold_left agg_step rest st).
Proof.
  induction rest as [|slice rest IH]; intros st Hsub Hsh; [exact Hsh|].
  cbn [fold_left]. apply IH.
  - intros s Hs. apply Hsub. by right.
  - apply agg_step_shape; [apply Hsub; by left | exact Hsh].
Qed.

Lemma agg_run_shape (l : list Slice) : agg_shape l (agg_run l).
Proof. apply agg_fold_shape; [auto | apply agg_shape_init]. Qed.

(** X1: every bill group the aggregator returns has at least one detail
    and a non-empty bill identifier, which is the bill of some slice; none
    of its details is empty or a cancellation marker. *)
Theorem groups_well_formed (meeting : Meeting) (g : BillDetailGroup) :
  g ∈ fst (extract_bills_with_details meeting) →
  details g ≠ [] ∧ bill g ≠ ""
  ∧ (∃ slice, slice ∈ default [] (MeetingSlices meeting)
              ∧ BillRoot slice = Some (bill g))
  ∧ ∀ d, d ∈ details g → detail_text d.
Proof.
  unfold extract_bills_with_details. cbv zeta. cbn [fst].
  apply (flush_shape _ _ (agg_run_shape _)).
Qed.

Lemma groups_well_formed_witness :
  details (mk_group "SB5" ["Fiscal note"; "Adjourn"]) ≠ []
  ∧ bill (mk_group "SB5" ["Fiscal note"; "Adjourn"]) ≠ ""
  ∧ (∃ slice, slice ∈ slices_sb5 ∧ BillRoot slice = Some "SB5")
  ∧ ∀ d, d ∈ ["Fiscal note"; "Adjourn"] → detail_text d.
Proof.
  apply (groups_well_formed (meeting_of_slices slices_sb5)
           (mk_group "SB5" ["Fiscal note"; "Adjourn"])).
  apply list_elem_of_In. vm_compute. left. reflexivity.
Defined.

(** ** No highlight is lost *)

Lemma agg_step_used_mono (st : AggState) (slice : Slice) (d : string) :
  d ∈ used_details st → d ∈ used_details (agg_step st slice).
Proof.
  intros Hd. unfold agg_step. cbv zeta.
  destruct (negb _ && negb _); [exact Hd|].
  destruct (truthy (default "" (BillRoot slice)) && negb _);
    repeat (destruct (_ : bool); cbn [used_details andb]);
    try exact Hd; apply elem_of_union; by right.
Qed.

Lemma agg_fold_used_mono (rest : list Slice) (d : string) :
  ∀ st, d ∈ used_details st → d ∈ used_details (fold_left agg_step rest st).
Proof.
  induction rest as [|slice rest IH]; intros st Hd; [exact Hd|].
  cbn [fold_left]. by apply IH, agg_step_used_mono.
Qed.

(** A kept highlight of a slice that carries a bill is taken as a detail
    by the very step that reads the slice. *)
Lemma agg_step_takes (st : AggState) (slice : Slice) :
  present (BillRoot slice) = true → kept_highlight slice = true →
  text_of (SliceHighliteText slice) ∈ used_details (agg_step st slice).
Proof.
  unfold kept_highlight, present, text_of, agg_step. cbv zeta.
  rewrite <- default_truthy_present. intros Hb Hk. rewrite Hb in *.
  apply andb_true_iff in Hk as [Hk Hne]. apply andb_true_iff in Hk as [Hh Hnc].
  rewrite Hh, Hnc. cbn [negb andb] in *. rewrite Hne.
  destruct (is_str (current_bill st) (default "" (BillRoot slice))) eqn:Hs;
    cbn [negb current_bill opt_truthy].
  - apply is_str_true in Hs. rewrite Hs. cbn [opt_truthy]. rewrite Hb.
    cbn [used_details]. apply elem_of_union. left. by apply elem_of_singleton.
  - rewrite Hb. cbn [used_details]. apply elem_of_union. left. by apply elem_of_singleton.
Qed.

Lemma agg_fold_takes (rest : list Slice) (slice : Slice) :
  ∀ st, slice ∈ rest →
        present (BillRoot slice) = true → kept_highlight slice = true →
        text_of (SliceHighliteText slice) ∈ used_details (fold_left agg_step rest st).
Proof.
  induction rest as [|s rest IH]; intros st Hin Hb Hk; [inversion Hin|].
  cbn [fold_left]. apply elem_of_cons in Hin as [-> | Hin].
  - apply agg_fold_used_mono. by apply agg_step_takes.
  - by apply IH.
Qed.

Lemma general_step_mono (used : gset string) (acc : list string) (slice : Slice)
  (x : string) :
  x ∈ acc → x ∈ general_step used acc slice.
Proof.
  intros Hx. unfold general_step. cbv zeta.
  repeat (destruct (_ : bool); cbn [andb]); try exact Hx.
  apply elem_of_app. by left.
Qed.

Lemma general_fold_mono (used : gset string) (l : list Slice) (x : string) :
  ∀ acc, x ∈ acc → x ∈ fold_left (general_step used) l acc.
Proof.
  induction l as [|slice l IH]; intros acc Hx; [exact Hx|].
  cbn [fold_left]. by apply IH, general_step_mono.
Qed.

Lemma general_fold_takes (used : gset string) (l : list Slice) (slice : Slice) :
  ∀ acc, slice ∈ l →
         present (BillRoot slice) = false → kept_highlight slice = true →
         text_of (SliceHighliteText slice) ∈ used
         ∨ text_of (SliceHighliteText slice) ∈ fold_left (general_step used) l acc.
Proof.
  induction l as [|s l IH]; intros acc Hin Hb Hk; [inversion Hin|].
  cbn [fold_left]. apply elem_of_cons in Hin as [<- | Hin]; [|by apply IH].
  unfold kept_highlight, present, text_of in *. cbv zeta in Hk.
  rewrite <- default_truthy_present in Hb. rewrite Hb in Hk. cbn [andb negb] in Hk.
  rewrite andb_true_r in Hk. apply andb_true_iff in Hk as [Hh Hnc].
  destruct (decide (default "" (SliceHighliteText slice) ∈ used)) as [Hu|Hu]; [by left|].
  right. apply general_fold_mono.
  unfold general_step. cbv zeta. rewrite Hb, Hh, Hnc. cbn [negb andb].
  rewrite (bool_decide_eq_true_2 _ Hu). cbn [andb].
  destruct (bool_decide_reflect (default "" (SliceHighliteText slice) ∉ acc)) as [Ha|Ha].
  - apply elem_of_app. right. by apply list_elem_of_singleton.
  - destruct (decide (default "" (SliceHighliteText slice) ∈ acc)); [done|]. contradiction.
Qed.

(** X2: the highlight of every slice that is not empty, not a
    cancellation marker and not the slice's own bill identifier is in the
    output: as a detail of some bill group or as a general item. *)
Theorem no_highlight_lost (meeting : Meeting) (slice : Slice) :
  slice ∈ default [] (MeetingSlices meeting) →
  kept_highlight slice = true →
  (∃ g, g ∈ fst (extract_bills_with_details meeting)
        ∧ text_of (SliceHighliteText slice) ∈ details g)
  ∨ text_of (SliceHighliteText slice) ∈ snd (extract_bills_with_details meeting).
Proof.
  unfold extract_bills_with_details. cbv zeta. cbn [fst snd].
  set (l := default [] (MeetingSlices meeting)). intros Hin Hk.
  destruct (flush_shape l _ (agg_run_shape l)) as [_ Hused].
  destruct (present (BillRoot slice)) eqn:Hb.
  - left. apply Hused. by apply agg_fold_takes.
  - destruct (general_fold_takes (used_details (agg_run l)) l slice [] Hin Hb Hk)
      as [Hu | Hg]; [left; by apply Hused | by right].
Qed.

Lemma no_highlight_lost_witness :
  (∃ g, g ∈ fst (extract_bills_with_details (meeting_of_slices slices_sb5))
        ∧ "Adjourn" ∈ details g)
  ∨ "Adjourn" ∈ snd (extract_bills_with_details (meeting_of_slices slices_sb5)).
Proof.
  apply (no_highlight_lost (meeting_of_slices slices_sb5)
           (mk_slice None (Some "Adjourn") None)).
  - apply list_elem_of_In. vm_compute. right. left. reflexivity.
  - vm_compute. reflexivity.
Defined.

(** ** The general items *)

Lemma general_fold_nodup (used : gset string) (l : list Slice) :
  ∀ acc, NoDup acc → NoDup (fold_left (general_step used) l acc).
Proof.
  induction l as [|slice l IH]; intros acc Hnd; [exact Hnd|].
  cbn [fold_left]. apply IH. unfold general_step. cbv zeta.
  destruct (_ && _ && _); [|exact Hnd].
  destruct (bool_decide _); cbn [andb]; [|exact Hnd].
  destruct (bool_decide_reflect (default "" (SliceHighliteText slice) ∉ acc)) as [Ha|Ha];
    [|exact Hnd].
  apply NoDup_app. split; [exact Hnd|]. split.
  - intros x Hx Hx'. apply list_elem_of_singleton in Hx' as ->. contradiction.
  - apply NoDup_singleton.
Qed.

Lemma general_fold_text (used : gset string) (l : list Slice) :
  ∀ acc x, x ∈ fold_left (general_step used) l acc → x ∈ acc ∨ detail_text x.
Proof.
  induction l as [|slice l IH]; intros acc x; cbn [fold_left]; [auto|].
  intros Hx. apply IH in Hx as [Hx | Hx]; [|by right].
  unfold general_step in Hx. cbv zeta in Hx.
  destruct (negb (truthy (default "" (BillRoot slice)))); cbn [andb] in Hx; [|by left].
  destruct (truthy (default "" (SliceHighliteText slice))) eqn:Hh;
    cbn [andb] in Hx; [|by left].
  destruct (not_cancel_marker _) eqn:Hnc; [|by left].
  destruct (_ && _); [|by left].
  apply elem_of_app in Hx as [Hx | Hx]; [by left|].
  apply list_elem_of_singleton in Hx as ->. right. split; [by apply truthy_ne | exact Hnc].
Qed.

(** X3: the general items are pairwise distinct; each is the highlight,
    not empty and not a cancellation marker, of a slice that carries no
    bill. *)
Theorem general_items_distinct (meeting : Meeting) :
  NoDup (snd (extract_bills_with_details meeting))
  ∧ ∀ x, x ∈ snd (extract_bills_with_details meeting) →
         detail_text x
         ∧ ∃ slice, slice ∈ default [] (MeetingSlices meeting)
                    ∧ present (BillRoot slice) = false
                    ∧ SliceHighliteText slice = Some x.
Proof.
  unfold extract_bills_with_details. cbv zeta. cbn [snd]. split.
  - apply general_fold_nodup, NoDup_nil_2.
  - intros x Hx. split.
    + apply general_fold_text in Hx as [Hx | Hx]; [inversion Hx | exact Hx].
    + apply general_fold in Hx as [Hx | [_ Hs]]; [inversion Hx | exact Hs].
Qed.

(** ** The bill groups in the description *)

(** The loop that looks the short title up finds the title of the first
    slice of the bill that has the key. *)
Lemma find_short_title_is (b : string) (slices : list Slice) :
  short_title_is slices b (find_short_title b slices).
Proof.
  induction slices as [|s slices IH]; cbn [find_short_title].
  - right. split; [|reflexivity]. intros s Hs. inversion Hs.
  - destruct (is_str (BillRoot s) b) eqn:Hb; cbn [andb].
    + destruct (bool_decide_reflect (is_Some (ShortTitle s))) as [[title Ht]|Hs].
      * left. exists [], s, slices. split; [reflexivity|].
        split; [intros s' Hs'; inversion Hs'|].
        split; [by apply is_str_true | by rewrite Ht].
      * destruct IH as [(before & slice & after & -> & Hbefore & Hbill & Ht) | [Hnone ->]].
        -- left. exists (s :: before), slice, after. split; [reflexivity|].
           split; [|by split]. intros s'. rewrite elem_of_cons.
           intros [-> | Hs']; [by intros [_ ?] | by apply Hbefore].
        -- right. split; [|reflexivity]. intros s'. rewrite elem_of_cons.
           intros [-> | Hs']; [by intros [_ ?] | by apply Hnone].
    + assert (Hnot : ¬ has_title_field b s).
      { intros [Hbs _]. apply is_str_true in Hbs. congruence. }
      destruct IH as [(before & slice & after & -> & Hbefore & Hbill & Ht) | [Hnone ->]].
      * left. exists (s :: before), slice, after. split; [reflexivity|].
        split; [|by split]. intros s'. rewrite elem_of_cons.
        intros [-> | Hs']; [exact Hnot | by apply Hbefore].
      * right. split; [|reflexivity]. intros s'. rewrite elem_of_cons.
        intros [-> | Hs']; [exact Hnot | by apply Hnone].
Qed.

Lemma nonempty_map {A B} (f : A → B) (l : list A) : nonempty (map f l) = nonempty l.
Proof. by destruct l. Qed.

(** C6, as the code has it: the description names each bill group of the
    record, in order, as "bill title details" or, when the title is
    empty, "bill details", the details joined by blanks; the title is
    that of the first slice of the bill that has the short-title key,
    empty or not, and is empty when no slice of the bill has the key.
    The group texts, joined by commas after "Bills: ", stand between the
    cancellation marker and the general items. *)
Theorem description_groups_rendered (meeting : Meeting) (for_csv : bool) :
  let slices := default [] (MeetingSlices meeting) in
  let groups := fst (extract_bills_with_details meeting) in
  let general_items := snd (extract_bills_with_details meeting) in
  ∃ group_texts,
    Forall2 (fun g text =>
               ∃ title, short_title_is slices (bill g) title
                        ∧ text = rendered (bill g) title (details g))
            groups group_texts
    ∧ build_description meeting for_csv
      = let description :=
          description_of (default false (MeetingCanceled meeting))
                         group_texts general_items in
        if for_csv then strip_streaming_info description else description.
Proof.
  cbv zeta. exists (map (bill_text meeting) (fst (extract_bills_with_details meeting))).
  split.
  - apply Forall2_fmap_r, Forall_Forall2_diag, Forall_forall. intros g Hg.
    exists (find_short_title (bill g) (default [] (MeetingSlices meeting))).
    split; [apply find_short_title_is|].
    apply bill_text_rendered.
    unfold extract_bills_with_details in Hg. cbv zeta in Hg. cbn [fst] in Hg.
    by destruct (proj1 (flush_shape _ _ (agg_run_shape _)) g Hg).
  - unfold build_description, description_of. rewrite nonempty_map.
    destruct (extract_bills_with_details meeting) as [groups general]. cbn [fst snd].
    destruct (default false (MeetingCanceled meeting)), (nonempty groups),
      (nonempty general); reflexivity.
Qed.

(** C6 as the spec words it fails: the first slice of HB1 has an empty
    short title and the second the title "Title"; the group is written
    without a title, not with the first non-empty one. *)
Lemma short_title_not_first_nonempty :
  let meeting := meeting_of_slices slices_titles in
  fst (extract_bills_with_details meeting) = [mk_group "HB1" ["A"; "B"]]
  ∧ build_description meeting false = "Bills: HB1 A B"
  ∧ bill_text meeting (mk_group "HB1" ["A"; "B"])
    ≠ rendered "HB1" (first_nonempty_short_title "HB1" slices_titles) ["A"; "B"].
Proof. repeat split; vm_compute; discriminate. Qed.

(** ** The description *)

Lemma build_description_for_csv (meeting : Meeting) :
  build_description meeting true
  = strip_streaming_info (build_description meeting false).
Proof.
  unfold build_description.
  destruct (extract_bills_with_details meeting) as [groups general]. reflexivity.
Qed.

(** X4: the description written to a CSV file has no white space at
    either end and contains no doubled separator [" | |"]. *)
Theorem csv_description_trimmed (meeting : Meeting) :
  starts_with_space (build_description meeting true) = false
  ∧ ends_with_space (build_description meeting true) = false
  ∧ contains " | |" (build_description meeting true) = false.
Proof.
  rewrite build_description_for_csv. apply strip_streaming_info_shape.
Qed.

Lemma append_eq_nil (a b : string) : a ++ b = "" → a = "" ∧ b = "".
Proof. destruct a; [by intros <- | discriminate]. Qed.

Lemma join_head_nil (sep x : string) (l : list string) :
  join sep (x :: l) = "" → x = "".
Proof.
  cbn [join]. destruct l; [auto|]. intros H. by apply append_eq_nil in H as [Hx _].
Qed.

Lemma join_nil_inv (sep : string) (l : list string) :
  (∀ x, x ∈ l → x ≠ "") → join sep l = "" → l = [].
Proof.
  destruct l as [|x l]; [reflexivity|]. intros Hne Hj. exfalso.
  apply (Hne x); [by left | by apply join_head_nil in Hj].
Qed.

Lemma startswith_append (p s : string) : startswith p (p ++ s) = true.
Proof.
  induction p as [|c p IH]; [reflexivity|].
  rewrite append_cons. cbn [startswith]. by rewrite Ascii.eqb_refl, IH.
Qed.

Lemma startswith_refl (p : string) : startswith p p = true.
Proof. rewrite <- (append_nil_r p) at 2. apply startswith_append. Qed.

Lemma join_startswith (sep x : string) (l : list string) :
  startswith x (join sep (x :: l)) = true.
Proof.
  cbn [join]. destruct l; [apply startswith_refl | apply startswith_append].
Qed.

(** X5: the description shown for a canceled meeting starts with the
    marker of cancellation, whatever its slices are. *)
Theorem canceled_description_first (meeting : Meeting) :
  MeetingCanceled meeting = Some true →
  startswith "** MEETING CANCELED **" (build_description meeting false) = true.
Proof.
  intros Hc. unfold build_description. rewrite Hc. cbn [default from_option id].
  destruct (extract_bills_with_details meeting) as [groups general].
  destruct (nonempty groups), (nonempty general); cbn [app]; apply join_startswith.
Qed.

Lemma canceled_description_first_witness :
  startswith "** MEETING CANCELED **" (build_description meeting_canceled false) = true.
Proof. apply (canceled_description_first meeting_canceled). reflexivity. Defined.

(** X6: the description shown is empty exactly when the meeting is not
    canceled and the aggregator returns neither a bill group nor a general
    item. *)
Theorem description_empty_iff (meeting : Meeting) :
  build_description meeting false = ""
  ↔ default false (MeetingCanceled meeting) = false
    ∧ extract_bills_with_details meeting = ([], []).
Proof.
  unfold build_description.
  assert (Hgen : ∀ x, x ∈ snd (extract_bills_with_details meeting) → x ≠ "").
  { unfold extract_bills_with_details. cbv zeta. cbn [snd]. intros x Hx.
    apply general_fold_text in Hx as [Hx | [Hne _]]; [inversion Hx | exact Hne]. }
  destruct (extract_bills_with_details meeting) as [groups general].
  cbn [snd] in Hgen. split.
  - intros Hj.
    destruct (default false (MeetingCanceled meeting)).
    { destruct (nonempty groups), (nonempty general); cbn [app] in Hj;
        apply join_head_nil in Hj; discriminate. }
    destruct groups as [|g groups]; cbn [nonempty app] in Hj.
    + destruct general as [|x general]; [done|]. cbn [nonempty app] in Hj.
      apply join_head_nil, join_nil_inv in Hj; [discriminate | exact Hgen].
    + destruct (nonempty general); cbn [app] in Hj;
        apply join_head_nil in Hj; discriminate.
  - intros [-> [= -> ->]]. reflexivity.
Qed.

(** ** Title and identifier *)

Lemma title_not_empty (s : string) : s ≠ "" → title s ≠ "".
Proof. destruct s; [contradiction | discriminate]. Qed.

Lemma append_cons_not_empty (a : string) (c : ascii) (b : string) :
  a ++ String c b ≠ "".
Proof. intros H. apply append_eq_nil in H as [_ H]. discriminate. Qed.

(** X7: the title built for a record is empty exactly when the record has
    no raw title (the key is absent or its text is empty). *)
Theorem build_title_empty_iff (meeting : Meeting) :
  build_title meeting = "" ↔ present (MeetingTitle meeting) = false.
Proof.
  unfold build_title. cbv zeta.
  rewrite <- (default_truthy_present (MeetingTitle meeting)).
  destruct (truthy (default "" (MeetingTitle meeting))) eqn:Ht; cbn [negb].
  - split; [|discriminate]. intros H. exfalso. revert H.
    repeat (destruct (_ && _)); try apply append_cons_not_empty.
    by apply title_not_empty, truthy_ne.
  - split; reflexivity.
Qed.

Lemma append_nil_l (a : string) : "" ++ a = a.
Proof. reflexivity. Qed.

Lemma contains_startswith (p s : string) :
  startswith p s = true → contains p s = true.
Proof. intros H. destruct s; cbn [contains]; by rewrite H. Qed.

Lemma contains_append (p a b : string) : contains p (a ++ p ++ b) = true.
Proof.
  induction a as [|c a IH].
  - rewrite append_nil_l. apply contains_startswith, startswith_append.
  - rewrite append_cons. cbn [contains]. rewrite IH. apply orb_true_r.
Qed.

(** X8: the identifier is the sentinel ["unknown"] exactly when the date
    or the time is absent or empty: no dated record is given the
    sentinel, whatever its chamber and sponsor codes. *)
Theorem custom_id_unknown_iff (meeting : Meeting) :
  generate_custom_id meeting = "unknown"
  ↔ present (MeetingDate meeting) = false ∨ present (MeetingTime meeting) = false.
Proof.
  unfold generate_custom_id. cbv zeta.
  rewrite <- (default_truthy_present (MeetingDate meeting)),
    <- (default_truthy_present (MeetingTime meeting)).
  destruct (truthy (default "" (MeetingDate meeting))),
    (truthy (default "" (MeetingTime meeting))); cbn [negb orb];
    try (split; [auto | reflexivity]).
  split; [|intros [?|?]; discriminate].
  intros H. exfalso.
  assert (Hc : contains "-" "unknown" = true)
    by (rewrite <- H; apply contains_append).
  discriminate.
Qed.

(** ** The rows of the two dialects *)

Lemma csv_row_skipped (include_date : bool) (m : Meeting) :
  should_skip_event m = true → csv_row include_date m = None.
Proof. intros Hs. unfold csv_row. by rewrite Hs. Qed.

Lemma csv_row_kept (include_date : bool) (m : Meeting) :
  should_skip_event m = false →
  ∃ row, csv_row include_date m = Some row
         ∧ column "title" (csv_fields include_date) row = Some (build_title m)
         ∧ length row = length (csv_fields include_date).
Proof.
  intros Hs. unfold csv_row. rewrite Hs. eexists. split; [reflexivity|].
  destruct include_date; split; reflexivity.
Qed.

(** X9: the generic dialect writes a header and then one row for every
    record the event filter keeps, in the order of the records (the
    [title] column lists their titles); every row has as many fields as
    the header, six, or seven with the date column. *)
Theorem csv_rows_rectangular (meetings : list Meeting) (include_date : bool) :
  let kept := List.filter (fun m => negb (should_skip_event m)) meetings in
  ∃ rows,
    format_meetings_csv_rows meetings include_date = csv_fields include_date :: rows
    ∧ map (column "title" (csv_fields include_date)) rows
      = map (fun m => Some (build_title m)) kept
    ∧ ∀ row, row ∈ rows → length row = length (csv_fields include_date).
Proof.
  cbv zeta. unfold format_meetings_csv_rows. eexists. split; [reflexivity|].
  induction meetings as [|m ms [IH1 IH2]];
    [split; [reflexivity | intros row H; inversion H]|].
  cbn [omap list_omap List.filter].
  destruct (should_skip_event m) eqn:Hs; cbn [negb].
  - rewrite (csv_row_skipped include_date m Hs). by split.
  - destruct (csv_row_kept include_date m Hs) as (row & -> & Ht & Hl). split.
    + cbn [map]. by rewrite Ht, IH1.
    + intros r. rewrite elem_of_cons. intros [-> | Hr]; [exact Hl | by apply IH2].
Qed.

(** X10: the broadcast dialect writes the records it keeps in the order
    it gets them, each once: the [customID] column of its rows lists the
    identifiers of the kept records, and every row has the nine fields of
    the header. *)
Theorem invintus_rows_in_order (meetings : list Meeting)
  (encoders categories : gmap string string) (runtime : string) (live_to_break : bool) :
  let rows := format_meetings_invintus_rows meetings encoders categories
                runtime live_to_break in
  map (column "customID" invintus_fields) rows
  = map (fun m => Some (generate_custom_id m))
        (List.filter (invintus_keeps encoders) meetings)
  ∧ ∀ row, row ∈ rows → length row = length invintus_fields.
Proof.
  cbv zeta. unfold format_meetings_invintus_rows, invintus_keeps.
  induction meetings as [|m ms [IH1 IH2]]; [split; [reflexivity | intros row H; inversion H]|].
  cbn [omap list_omap List.filter]. rewrite invintus_row_cases.
  destruct (should_skip_event m); cbn [negb andb]; [by split|].
  destruct (jointly_parsed m) as [dt|]; cbn [andb].
  2:{ rewrite bool_decide_eq_false_2 by (intros [? ?]; discriminate). by split. }
  rewrite bool_decide_eq_true_2 by (by eexists). cbn [andb].
  destruct (encoders !! generate_custom_id m) as [selected|] eqn:Hsel.
  - rewrite bool_decide_eq_true_2 by (apply elem_of_dom; by eexists).
    split.
    + cbn [map]. f_equal. exact IH1.
    + intros row. rewrite elem_of_cons. intros [-> | Hrow]; [reflexivity | by apply IH2].
  - rewrite bool_decide_eq_false_2
      by (rewrite elem_of_dom, Hsel; intros [? ?]; discriminate).
    by split.
Qed.

(** ** The days a range fetch requests *)

Lemma last_day_max (e d : datetime) :
  valid e = true → add_day e = None → valid d = true →
  toordinal d <= toordinal e.
Proof.
  intros He Hlast Hd.
  pose proof (valid_bounds e He) as (Hye & Hme & Hde).
  pose proof (valid_bounds d Hd) as (Hyd & Hmd & Hdd).
  unfold add_day in Hlast.
  destruct (Z.ltb_spec (day e) (days_in_month (year e) (month e))); [discriminate|].
  destruct (Z.ltb_spec (month e) 12); [discriminate|].
  destruct (Z.ltb_spec (year e) 9999); [discriminate|].
  assert (Hm12 : month e = 12) by lia. assert (Hy : year e = 9999) by lia.
  assert (H31 : day e = 31).
  { rewrite Hm12 in *. unfold days_in_month in *. cbn in *. lia. }
  pose proof (days_in_month_bounds (year d) (month d)).
  destruct (Z.lt_trichotomy (year d) (year e)) as [?|[Hyy|?]]; [|  |lia].
  { pose proof (toordinal_lt d e Hd He ltac:(left; lia)). lia. }
  destruct (Z.lt_trichotomy (month d) (month e)) as [?|[Hmm|?]]; [| |lia].
  { pose proof (toordinal_lt d e Hd He ltac:(right; lia)). lia. }
  destruct (Z.lt_trichotomy (day d) (day e)) as [?|[Hdd'|?]]; [| |lia].
  { pose proof (toordinal_lt d e Hd He ltac:(right; lia)). lia. }
  unfold toordinal. rewrite Hyy, Hmm, Hdd'. lia.
Qed.

(** Two valid midnights with the same day number are the same. *)
Lemma toordinal_inj (a b : datetime) :
  valid a = true → valid b = true → midnight a → midnight b →
  toordinal a = toordinal b → a = b.
Proof.
  intros Ha Hb (Hh & Hm & Hs) (Hh' & Hm' & Hs') Heq.
  assert (Hy : year a = year b).
  { destruct (Z.lt_trichotomy (year a) (year b)) as [?|[?|?]]; [|assumption|].
    - pose proof (toordinal_lt a b Ha Hb ltac:(left; lia)). lia.
    - pose proof (toordinal_lt b a Hb Ha ltac:(left; lia)). lia. }
  assert (Hmo : month a = month b).
  { destruct (Z.lt_trichotomy (month a) (month b)) as [?|[?|?]]; [|assumption|].
    - pose proof (toordinal_lt a b Ha Hb ltac:(right; lia)). lia.
    - pose proof (toordinal_lt b a Hb Ha ltac:(right; lia)). lia. }
  assert (Hd : day a = day b).
  { destruct (Z.lt_trichotomy (day a) (day b)) as [?|[?|?]]; [|assumption|].
    - pose proof (toordinal_lt a b Ha Hb ltac:(right; lia)). lia.
    - pose proof (toordinal_lt b a Hb Ha ltac:(right; lia)). lia. }
  destruct a, b. cbn in *. congruence.
Qed.

Section RangeDays.

Variable get_meetings : string -> FetchResult.

(** What a run of the loop from [current] to [end_] does: it requests the
    days from [current] on, one per day number, and maps each to the
    answer of the API; it ends with the overflow when [end_] has no next
    day and a day is requested. *)
Lemma range_loop_days (fuel : nat) :
  ∀ current end_ by_date fetched,
    valid current = true → valid end_ = true →
    midnight current → midnight end_ →
    Z.max 0 (toordinal end_ - toordinal current + 1) < Z.of_nat fuel →
    ∃ days,
      snd (range_loop get_meetings fuel current end_ by_date fetched)
      = (fetched ++ map strftime_mdY days)%list
      ∧ Z.of_nat (length days) = Z.max 0 (toordinal end_ - toordinal current + 1)
      ∧ (∀ i d, days !! i = Some d →
                valid d = true ∧ toordinal d = toordinal current + Z.of_nat i)
      ∧ (is_Some (add_day end_) ∨ days = [] →
         ∃ m, fst (range_loop get_meetings fuel current end_ by_date fetched)
              = RangeMeetings m
              ∧ ∀ k, m !! k = if bool_decide (k ∈ map strftime_mdY days)
                              then Some (get_meetings k) else by_date !! k)
      ∧ (add_day end_ = None → days ≠ [] →
         fst (range_loop get_meetings fuel current end_ by_date fetched)
         = RangeOverflow).
Proof.
  induction fuel as [|fuel IH]; intros c e m log Hvc Hve Hmc Hme Hlt; [lia|].
  cbn [range_loop].
  destruct (PyDate.le c e) eqn:Hle.
  2:{ assert (¬ toordinal c <= toordinal e)
        by (rewrite <- le_toordinal by assumption; congruence).
      exists []. cbn [map length fst snd]. rewrite app_nil_r.
      split; [reflexivity|]. split; [lia|]. split; [|split].
      - intros i d H'. inversion H'.
      - intros _. eexists. split; [reflexivity|]. intros k.
        rewrite bool_decide_eq_false_2; [reflexivity | intros H'; inversion H'].
      - intros _ H'. contradiction. }
  apply le_toordinal in Hle; try assumption.
  destruct (add_day c) as [c'|] eqn:Hnext.
  - destruct (add_day_next _ _ Hvc Hnext) as (Hvn & Hon & Hmn).
    destruct (IH c' e (<[strftime_mdY c := get_meetings (strftime_mdY c)]> m)
                (log ++ [strftime_mdY c])%list Hvn Hve (Hmn Hmc) Hme ltac:(lia))
      as (days & Hsnd & Hlen & Hdays & Hok & Hov).
    exists (c :: days). split; [|split; [|split; [|split]]].
    + rewrite Hsnd. cbn [map]. by rewrite <- app_assoc.
    + cbn [length]. lia.
    + intros [|i] d Hd; cbn in Hd.
      * injection Hd as <-. split; [assumption | lia].
      * destruct (Hdays i d Hd) as [? ?]. split; [assumption | lia].
    + intros [Hsome | Hnil]; [|discriminate].
      destruct (Hok (or_introl Hsome)) as (m' & Hfst & Hm').
      exists m'. split; [exact Hfst|]. intros k. rewrite Hm'. cbn [map].
      destruct (bool_decide_reflect (k ∈ map strftime_mdY days)) as [Hin|Hin].
      * rewrite bool_decide_eq_true_2; [reflexivity | by right].
      * destruct (decide (k = strftime_mdY c)) as [->|Hne].
        -- rewrite lookup_insert_eq, bool_decide_eq_true_2; [reflexivity | by left].
        -- rewrite lookup_insert_ne by congruence.
           rewrite bool_decide_eq_false_2; [reflexivity|].
           intros H'. apply elem_of_cons in H' as [?|?]; contradiction.
    + intros Hlast _. apply Hov; [exact Hlast|].
      pose proof (last_day_max e c' Hve Hlast Hvn).
      destruct days; [cbn in Hlen; lia | discriminate].
  - pose proof (last_day_max c e Hvc Hnext Hve).
    assert (c = e) as <- by (apply toordinal_inj; auto; lia).
    exists [c]. cbn [map length fst snd]. split; [reflexivity|].
    split; [lia|]. split; [|split].
    + intros [|i] d Hd; cbn in Hd; [|inversion Hd].
      injection Hd as <-. split; [assumption | lia].
    + intros [[x Hx] | H']; [congruence | discriminate].
    + reflexivity.
Qed.

End RangeDays.

(** X11: for two dates that parse, the end from 0 to 30 days after the
    start and not the last day of year 9999, [get_meeting_range] requests
    every day from the start to the end once, in calendar order, and
    returns the mapping from the text of each of these days to the answer
    of the API for it, and nothing else. *)
Theorem range_fetch_every_day (get_meetings : string -> FetchResult)
  (start_date end_date : string) (start end_ : datetime) :
  strptime start_date fmt_mdY = Some start →
  strptime end_date fmt_mdY = Some end_ →
  0 <= toordinal end_ - toordinal start <= 30 →
  is_Some (add_day end_) →
  ∃ days m,
    get_meeting_range get_meetings start_date end_date
    = (RangeMeetings m, map strftime_mdY days)
    ∧ Z.of_nat (length days) = toordinal end_ - toordinal start + 1
    ∧ (∀ i d, days !! i = Some d →
              valid d = true ∧ toordinal d = toordinal start + Z.of_nat i)
    ∧ ∀ k, m !! k = if bool_decide (k ∈ map strftime_mdY days)
                    then Some (get_meetings k) else None.
Proof.
  intros Hs He Hspan Hnext. unfold get_meeting_range. rewrite Hs, He.
  pose proof (strptime_mdY_midnight _ _ Hs) as Hms.
  pose proof (strptime_mdY_midnight _ _ He) as Hme.
  rewrite (days_between_midnight _ _ Hms Hme).
  destruct (Z.ltb_spec 30 (toordinal end_ - toordinal start)); [lia|].
  destruct (range_loop_days get_meetings 32 start end_ ∅ []
              (strptime_valid _ _ _ Hs) (strptime_valid _ _ _ He) Hms Hme
              ltac:(cbn; lia))
    as (days & Hsnd & Hlen & Hdays & Hok & _).
  destruct (Hok (or_introl Hnext)) as (m & Hfst & Hm).
  exists days, m. split; [|split; [lia|split; [exact Hdays|]]].
  - destruct (range_loop _ _ _ _ _ _) as [r f]. cbn in *. congruence.
  - intros k. rewrite Hm, lookup_empty. reflexivity.
Qed.

Lemma range_fetch_every_day_witness :
  ∃ days m,
    get_meeting_range no_meetings "02/27/2024" "03/01/2024"
    = (RangeMeetings m, map strftime_mdY days)
    ∧ Z.of_nat (length days)
      = toordinal (mk_datetime 2024 3 1 0 0 0)
        - toordinal (mk_datetime 2024 2 27 0 0 0) + 1
    ∧ (∀ i d, days !! i = Some d →
              valid d = true
              ∧ toordinal d = toordinal (mk_datetime 2024 2 27 0 0 0) + Z.of_nat i)
    ∧ ∀ k, m !! k = if bool_decide (k ∈ map strftime_mdY days)
                    then Some (no_meetings k) else None.
Proof.
  apply (range_fetch_every_day no_meetings "02/27/2024" "03/01/2024"
           (mk_datetime 2024 2 27 0 0 0) (mk_datetime 2024 3 1 0 0 0)).
  - reflexivity.
  - reflexivity.
  - vm_compute. split; discriminate.
  - vm_compute. eexists. reflexivity.
Defined.

(** X12: whatever the two texts are, [get_meeting_range] requests at most
    31 days from the API. *)
Theorem range_fetch_bound (get_meetings : string -> FetchResult)
  (start_date end_date : string) :
  (length (snd (get_meeting_range get_meetings start_date end_date)) <= 31)%nat.
Proof.
  unfold get_meeting_range.
  destruct (strptime start_date fmt_mdY) as [start|] eqn:Hs; [|cbn; lia].
  destruct (strptime end_date fmt_mdY) as [end_|] eqn:He; [|cbn; lia].
  pose proof (strptime_mdY_midnight _ _ Hs) as Hms.
  pose proof (strptime_mdY_midnight _ _ He) as Hme.
  rewrite (days_between_midnight _ _ Hms Hme).
  destruct (Z.ltb_spec 30 (toordinal end_ - toordinal start)); [cbn; lia|].
  destruct (range_loop_days get_meetings 32 start end_ ∅ []
              (strptime_valid _ _ _ Hs) (strptime_valid _ _ _ He) Hms Hme
              ltac:(cbn; lia))
    as (days & Hsnd & Hlen & _).
  rewrite Hsnd. cbn [app]. rewrite length_map. lia.
Qed.

(** X13: a range of at most 31 days that ends on the last day of year
    9999 does not return: after the request for that day the step to the
    next day overflows. *)
Theorem range_fetch_overflow (get_meetings : string -> FetchResult)
  (start_date end_date : string) (start end_ : datetime) :
  strptime start_date fmt_mdY = Some start →
  strptime end_date fmt_mdY = Some end_ →
  0 <= toordinal end_ - toordinal start <= 30 →
  add_day end_ = None →
  fst (get_meeting_range get_meetings start_date end_date) = RangeOverflow
  ∧ Z.of_nat (length (snd (get_meeting_range get_meetings start_date end_date)))
    = toordinal end_ - toordinal start + 1.
Proof.
  intros Hs He Hspan Hlast. unfold get_meeting_range. rewrite Hs, He.
  pose proof (strptime_mdY_midnight _ _ Hs) as Hms.
  pose proof (strptime_mdY_midnight _ _ He) as Hme.
  rewrite (days_between_midnight _ _ Hms Hme).
  destruct (Z.ltb_spec 30 (toordinal end_ - toordinal start)); [lia|].
  destruct (range_loop_days get_meetings 32 start end_ ∅ []
              (strptime_valid _ _ _ Hs) (strptime_valid _ _ _ He) Hms Hme
              ltac:(cbn; lia))
    as (days & Hsnd & Hlen & _ & _ & Hov).
  split.
  - apply Hov; [exact Hlast|]. destruct days; [cbn in Hlen; lia | discriminate].
  - rewrite Hsnd. cbn [app]. rewrite length_map. lia.
Qed.

Lemma range_fetch_overflow_witness :
  fst (get_meeting_range no_meetings "12/30/9999" "12/31/9999") = RangeOverflow
  ∧ Z.of_nat (length (snd (get_meeting_range no_meetings "12/30/9999" "12/31/9999")))
    = toordinal (mk_datetime 9999 12 31 0 0 0)
      - toordinal (mk_datetime 9999 12 30 0 0 0) + 1.
Proof.
  apply (range_fetch_overflow no_meetings "12/30/9999" "12/31/9999"
           (mk_datetime 9999 12 30 0 0 0) (mk_datetime 9999 12 31 0 0 0)).
  - reflexivity.
  - reflexivity.
  - vm_compute. split; discriminate.
  - reflexivity.
Defined.

(** ** Printing a date and parsing it back *)

Lemma digit_char_cases (n : Z) :
  ∃ k, (k < 10)%nat ∧ digit_char n = chr (48 + k) ∧ n mod 10 = Z.of_nat k.
Proof.
  exists (Z.to_nat (n mod 10)).
  pose proof (Z.mod_pos_bound n 10 ltac:(lia)). repeat split; [lia | lia].
Qed.

Lemma digit_char_is_digit (n : Z) : is_digit (digit_char n) = true.
Proof.
  destruct (digit_char_cases n) as (k & Hk & -> & _).
  do 10 (destruct k as [|k]; [reflexivity|]). lia.
Qed.

Lemma digit_char_not_space (n : Z) : is_space (digit_char n) = false.
Proof.
  destruct (digit_char_cases n) as (k & Hk & -> & _).
  do 10 (destruct k as [|k]; [reflexivity|]). lia.
Qed.

Lemma digit_char_value (n : Z) : Z.of_nat (code (digit_char n) - 48) = n mod 10.
Proof.
  destruct (digit_char_cases n) as (k & Hk & -> & ->).
  do 10 (destruct k as [|k]; [reflexivity|]). lia.
Qed.

(** Reading the digits of a padded number gives the number back. *)
Lemma int_from_zpad (w : nat) :
  ∀ n acc s, int_from acc (zpad w n ++ s)
             = int_from (acc * 10 ^ Z.of_nat w + n mod 10 ^ Z.of_nat w) s.
Proof.
  induction w as [|w IH]; intros n acc s.
  - cbn [zpad]. rewrite append_nil_l. f_equal. cbn. rewrite Z.mod_1_r. lia.
  - cbn [zpad]. rewrite append_assoc, IH, append_cons, append_nil_l.
    cbn [int_from]. rewrite digit_char_is_digit, digit_char_value. f_equal.
    rewrite Nat2Z.inj_succ, Z.pow_succ_r by lia.
    rewrite (Z.rem_mul_r n 10 (10 ^ Z.of_nat w)) by lia. lia.
Qed.

Lemma int_zpad (w : nat) (n : Z) :
  0 <= n < 10 ^ Z.of_nat w → int (zpad w n) = n.
Proof.
  intros Hn. unfold int. rewrite <- (append_nil_r (zpad w n)), int_from_zpad.
  cbn [int_from]. rewrite Z.mod_small by lia. lia.
Qed.

Lemma substring_append (a b : string) :
  String.substring 0 (String.length a) (a ++ b) = a.
Proof.
  induction a as [|c a IH]; [by destruct b|].
  rewrite append_cons. cbn [String.length String.substring]. by rewrite IH.
Qed.

Lemma consumed_append (a rest : string) : consumed (a ++ rest) rest = a.
Proof.
  unfold consumed. rewrite length_append.
  replace (String.length a + String.length rest - String.length rest)%nat
    with (String.length a) by lia.
  apply substring_append.
Qed.

Lemma zpad2_chars (n : Z) (rest : string) :
  zpad 2 n ++ rest = String (digit_char (n / 10)) (String (digit_char n) rest).
Proof. reflexivity. Qed.

Lemma zpad4_chars (n : Z) (rest : string) :
  zpad 4 n ++ rest
  = String (digit_char (n / 10 / 10 / 10))
      (String (digit_char (n / 10 / 10))
         (String (digit_char (n / 10)) (String (digit_char n) rest))).
Proof. reflexivity. Qed.

(** How the pattern of each directive matches the text [strftime] writes
    for it: the first way to match takes exactly that text. *)
Lemma rmatch_dY (y : Z) (rest : string) :
  rmatch (directive_regex dY) (zpad 4 y ++ rest) = [rest].
Proof.
  rewrite zpad4_chars. cbn [directive_regex rmatch digit].
  rewrite !digit_char_is_digit. cbn [map concat app rmatch].
  rewrite !digit_char_is_digit. cbn [map concat app rmatch].
  rewrite !digit_char_is_digit. cbn [map concat app rmatch].
  rewrite !digit_char_is_digit. reflexivity.
Qed.

(** Case analysis on a number below a bound, each case by evaluation. *)
Tactic Notation "by_cases_below" integer(times) constr(bound) constr(v) :=
  let k := fresh "k" in
  let Hk := fresh "Hk" in
  assert (Hk : ∃ k, v = Z.of_nat k ∧ (k < bound)%nat)
    by (exists (Z.to_nat v); lia);
  destruct Hk as (k & -> & Hk);
  do times (destruct k as [|k]; [try lia; eexists; vm_compute; reflexivity|]);
  lia.

Lemma rmatch_dm (m : Z) (rest : string) :
  1 <= m <= 12 →
  ∃ tail, rmatch (directive_regex dm) (zpad 2 m ++ rest) = rest :: tail.
Proof. intros Hm. by_cases_below 13 13%nat m. Qed.

Lemma rmatch_dd (d : Z) (rest : string) :
  1 <= d <= 31 →
  ∃ tail, rmatch (directive_regex dd) (zpad 2 d ++ rest) = rest :: tail.
Proof. intros Hd. by_cases_below 32 32%nat d. Qed.

Lemma rmatch_dH (h : Z) (rest : string) :
  0 <= h <= 23 →
  ∃ tail, rmatch (directive_regex dH) (zpad 2 h ++ rest) = rest :: tail.
Proof. intros Hh. by_cases_below 24 24%nat h. Qed.

Lemma rmatch_dM (m : Z) (rest : string) :
  0 <= m <= 59 →
  ∃ tail, rmatch (directive_regex dM) (zpad 2 m ++ rest) = rest :: tail.
Proof. intros Hm. by_cases_below 60 60%nat m. Qed.

Lemma rmatch_dS (s : Z) (rest : string) :
  0 <= s <= 59 →
  ∃ tail, rmatch (directive_regex dS) (zpad 2 s ++ rest) = rest :: tail.
Proof. intros Hs. by_cases_below 60 60%nat s. Qed.

Lemma fmatch_dir (d : directive) (tl : list fmt_item) (s rest : string)
  (tail : list string) (found : list (directive * string)) (fin : string)
  (tail' : list (list (directive * string) * string)) :
  rmatch (directive_regex d) s = rest :: tail →
  fmatch tl rest = (found, fin) :: tail' →
  ∃ t, fmatch (FDir d :: tl) s = ((d, consumed s rest) :: found, fin) :: t.
Proof.
  intros Hr Hf. cbn [fmatch]. rewrite Hr. cbn [map concat]. rewrite Hf.
  cbn [map app fst snd]. eexists. reflexivity.
Qed.

Lemma fmatch_char (c : ascii) (tl : list fmt_item) (rest : string) :
  fmatch (FChar c :: tl) (String c rest) = fmatch tl rest.
Proof.
  cbn [fmatch rmatch]. rewrite Ascii.eqb_refl. cbn [map concat]. apply app_nil_r.
Qed.

Lemma fmatch_space (tl : list fmt_item) (c : ascii) (rest : string) :
  is_space c = false →
  fmatch (FSpace :: tl) (String " " (String c rest)) = fmatch tl (String c rest).
Proof.
  intros Hc. cbn [fmatch rmatch plus_class].
  change (is_space " ") with true. cbn iota. rewrite Hc.
  cbn [app map concat]. apply app_nil_r.
Qed.

Lemma valid_fields (dt : datetime) :
  valid dt = true →
  (1 <= year dt <= 9999 ∧ 1 <= month dt <= 12 ∧ 1 <= day dt <= 31)
  ∧ 0 <= hour dt <= 23 ∧ 0 <= minute dt <= 59 ∧ 0 <= second dt <= 59.
Proof.
  intros Hv. pose proof (valid_bounds dt Hv) as (Hy & Hm & Hd).
  pose proof (days_in_month_bounds (year dt) (month dt)).
  revert Hv. unfold valid. rewrite !andb_true_iff, !Z.leb_le. lia.
Qed.

(** A valid date written as MM/DD/YYYY, the year in four digits, parses
    back to itself. *)
Lemma strptime_padded_mdY (dt : datetime) :
  valid dt = true → midnight dt →
  strptime (zpad 2 (month dt) ++ "/" ++ zpad 2 (day dt) ++ "/" ++ zpad 4 (year dt))
           fmt_mdY = Some dt.
Proof.
  intros Hv (Hh & Hmi & Hs).
  destruct (valid_fields dt Hv) as ((Hy & Hm & Hd) & _).
  unfold strptime, fmt_mdY.
  rewrite <- (append_nil_r (zpad 4 (year dt))).
  destruct (rmatch_dm (month dt) ("/" ++ zpad 2 (day dt) ++ "/" ++ zpad 4 (year dt) ++ "") Hm)
    as [t1 H1].
  destruct (rmatch_dd (day dt) ("/" ++ zpad 4 (year dt) ++ "") Hd) as [t2 H2].
  pose proof (rmatch_dY (year dt) "") as H3.
  destruct (fmatch_dir dY [] _ _ _ [] "" [] H3 eq_refl) as [t3 F3].
  destruct (fmatch_dir dd (FChar (chr 47) :: [FDir dY]) _ _ _ _ _ _ H2
              (eq_trans (fmatch_char _ _ _) F3)) as [t4 F4].
  destruct (fmatch_dir dm (FChar (chr 47) :: FDir dd :: FChar (chr 47) :: [FDir dY])
              _ _ _ _ _ _ H1 (eq_trans (fmatch_char _ _ _) F4)) as [t5 F5].
  rewrite F5. cbn [truthy fold_left set_field fst snd
                     year month day hour minute second].
  rewrite !consumed_append.
  rewrite (int_zpad 2 (month dt)), (int_zpad 2 (day dt)), (int_zpad 4 (year dt))
    by (cbn; lia).
  destruct dt as [y m d h mi s]. cbn in Hh, Hmi, Hs. subst h mi s.
  cbn [year month day hour minute second] in *. by rewrite Hv.
Qed.

(** From year 1000 on, a valid date and time written by [strftime] as
    YYYY-MM-DD HH:MM:SS parses back to itself. *)
Lemma strptime_strftime_Ymd_HMS (dt : datetime) :
  valid dt = true → 1000 <= year dt →
  strptime (strftime_Ymd_HMS dt) fmt_Ymd_HMS = Some dt.
Proof.
  intros Hv Hy4.
  destruct (valid_fields dt Hv) as ((Hy & Hm & Hd) & Hh & Hmi & Hs).
  unfold strptime, strftime_Ymd_HMS, fmt_Ymd_HMS. rewrite (year_text_four _ Hy4).
  rewrite <- (append_nil_r (zpad 2 (second dt))).
  set (tS := zpad 2 (second dt) ++ "").
  set (tM := zpad 2 (minute dt) ++ ":" ++ tS).
  set (tH := zpad 2 (hour dt) ++ ":" ++ tM).
  set (td := zpad 2 (day dt) ++ " " ++ tH).
  set (tm := zpad 2 (month dt) ++ "-" ++ td).
  destruct (rmatch_dS (second dt) "" Hs) as [t1 H1].
  destruct (rmatch_dM (minute dt) (":" ++ tS) Hmi) as [t2 H2].
  destruct (rmatch_dH (hour dt) (":" ++ tM) Hh) as [t3 H3].
  destruct (rmatch_dd (day dt) (" " ++ tH) Hd) as [t4 H4].
  destruct (rmatch_dm (month dt) ("-" ++ td) Hm) as [t5 H5].
  pose proof (rmatch_dY (year dt) ("-" ++ tm)) as H6.
  destruct (fmatch_dir dS [] _ _ _ [] "" [] H1 eq_refl) as [u1 F1].
  destruct (fmatch_dir dM (FChar (chr 58) :: [FDir dS]) _ _ _ _ _ _ H2
              (eq_trans (fmatch_char _ _ _) F1)) as [u2 F2].
  destruct (fmatch_dir dH (FChar (chr 58) :: FDir dM :: FChar (chr 58) :: [FDir dS])
              _ _ _ _ _ _ H3 (eq_trans (fmatch_char _ _ _) F2)) as [u3 F3].
  assert (Fsp : fmatch (FSpace :: FDir dH :: FChar (chr 58) :: FDir dM
                          :: FChar (chr 58) :: [FDir dS]) (" " ++ tH)
                = fmatch (FDir dH :: FChar (chr 58) :: FDir dM
                            :: FChar (chr 58) :: [FDir dS]) tH).
  { subst tH. rewrite zpad2_chars. apply fmatch_space, digit_char_not_space. }
  destruct (fmatch_dir dd _ _ _ _ _ _ _ H4 (eq_trans Fsp F3)) as [u4 F4].
  destruct (fmatch_dir dm (FChar (chr 45) :: FDir dd :: FSpace :: FDir dH
                             :: FChar (chr 58) :: FDir dM :: FChar (chr 58) :: [FDir dS])
              _ _ _ _ _ _ H5 (eq_trans (fmatch_char _ _ _) F4)) as [u5 F5].
  destruct (fmatch_dir dY (FChar (chr 45) :: FDir dm :: FChar (chr 45) :: FDir dd
                             :: FSpace :: FDir dH :: FChar (chr 58) :: FDir dM
                             :: FChar (chr 58) :: [FDir dS])
              _ _ _ _ _ _ H6 (eq_trans (fmatch_char _ _ _) F5)) as [u6 F6].
  rewrite F6. cbn [truthy fold_left set_field fst snd
                     year month day hour minute second].
  subst tm td tH tM tS. rewrite !consumed_append.
  rewrite (int_zpad 2 (month dt)), (int_zpad 2 (day dt)), (int_zpad 4 (year dt)),
    (int_zpad 2 (hour dt)), (int_zpad 2 (minute dt)), (int_zpad 2 (second dt))
    by (cbn; lia).
  destruct dt as [y m d h mi s]. cbn [year month day hour minute second] in *.
  by rewrite Hv.
Qed.


(** Before year 1000 the year is written in fewer than four digits, and
    what [strftime] has written does not parse back. *)
Lemma year_text_short (y : Z) (rest : string) :
  y < 1000 →
  (String.length (year_text y) < 4)%nat
  ∧ rmatch (directive_regex dY) (year_text y ++ String "-" rest) = [].
Proof.
  intros Hy. unfold year_text.
  destruct (y <? 10); [|destruct (y <? 100); [|destruct (Z.ltb_spec y 1000); [|lia]]];
    (split; [rewrite zpad_length; lia|]).
  - change (zpad 1 y ++ String "-" rest)
      with (String (digit_char y) (String "-" rest)).
    cbn [directive_regex rmatch digit]. rewrite digit_char_is_digit. reflexivity.
  - change (zpad 2 y ++ String "-" rest)
      with (String (digit_char (y / 10)) (String (digit_char y) (String "-" rest))).
    cbn [directive_regex rmatch digit]. rewrite digit_char_is_digit.
    cbn [map concat app rmatch]. rewrite digit_char_is_digit. reflexivity.
  - change (zpad 3 y ++ String "-" rest)
      with (String (digit_char (y / 10 / 10))
              (String (digit_char (y / 10)) (String (digit_char y) (String "-" rest)))).
    cbn [directive_regex rmatch digit]. rewrite digit_char_is_digit.
    cbn [map concat app rmatch]. rewrite digit_char_is_digit.
    cbn [map concat app rmatch]. rewrite digit_char_is_digit. reflexivity.
Qed.

Lemma strptime_strftime_early (dt : datetime) :
  year dt < 1000 →
  (String.length (strftime_Ymd_HMS dt) < 19)%nat
  ∧ strptime (strftime_Ymd_HMS dt) fmt_Ymd_HMS = None.
Proof.
  intros Hy. unfold strftime_Ymd_HMS. split.
  - rewrite !length_append, !zpad_length.
    pose proof (proj1 (year_text_short (year dt) "" Hy)). cbn [String.length]. lia.
  - unfold strptime, fmt_Ymd_HMS. cbn [fmatch].
    change ("-" ++ ?r) with (String "-" r).
    by rewrite (proj2 (year_text_short (year dt) _ Hy)).
Qed.

(** X14: the start time the broadcast dialect writes for a record is
    that of the date and time the record's texts parse to.  From year
    1000 on it has the 19 characters of YYYY-MM-DD HH:MM:SS and parses
    back to that date and time; before year 1000 the year is written
    without padding, the text is shorter and does not parse back. *)
Theorem invintus_start_time_canonical (encoders categories : gmap string string)
  (runtime : string) (live_to_break : bool) (meeting : Meeting) (row : list string) :
  invintus_row encoders categories runtime live_to_break meeting = Some row →
  ∃ dt start_datetime,
    jointly_parsed meeting = Some dt
    ∧ column "startDateTime" invintus_fields row = Some start_datetime
    ∧ (1000 <= year dt →
       String.length start_datetime = 19%nat
       ∧ strptime start_datetime fmt_Ymd_HMS = Some dt)
    ∧ (year dt < 1000 →
       (String.length start_datetime < 19)%nat
       ∧ strptime start_datetime fmt_Ymd_HMS = None).
Proof.
  rewrite invintus_row_cases.
  destruct (should_skip_event meeting); [discriminate|].
  destruct (jointly_parsed meeting) as [dt|] eqn:Hdt; [|discriminate].
  destruct (encoders !! generate_custom_id meeting); [|discriminate].
  intros [= <-]. exists dt, (strftime_Ymd_HMS dt).
  split; [reflexivity|]. split; [reflexivity|]. split.
  - intros Hy. split; [by apply strftime_Ymd_HMS_length|].
    apply strptime_strftime_Ymd_HMS; [|exact Hy].
    unfold jointly_parsed in Hdt. destruct (_ && _); [|discriminate].
    by apply strptime_valid in Hdt.
  - apply strptime_strftime_early.
Qed.

Lemma invintus_start_time_canonical_witness :
  ∃ dt start_datetime,
    jointly_parsed meeting_hfin = Some dt
    ∧ column "startDateTime" invintus_fields
        ["House Finance Committee"; "H-FIN20250422133000"; "2025-04-22 13:30:00";
         ""; "hm4mevet"; "Gavel Alaska"; "ADAMS 519"; "01:00"; "TRUE"]
      = Some start_datetime
    ∧ (1000 <= year dt →
       String.length start_datetime = 19%nat
       ∧ strptime start_datetime fmt_Ymd_HMS = Some dt)
    ∧ (year dt < 1000 →
       (String.length start_datetime < 19)%nat
       ∧ strptime start_datetime fmt_Ymd_HMS = None).
Proof.
  apply (invintus_start_time_canonical selection_hfin ∅ "01:00" true meeting_hfin).
  vm_compute. reflexivity.
Defined.

(** The start time of a record of year 999 has 18 characters. *)
Lemma invintus_start_time_year_999 :
  format_meetings_invintus_rows [meeting_year_999]
    {[ "H-FIN09990101090000" := "" ]} ∅ "01:00" true
  = [["House Finance Committee"; "H-FIN09990101090000"; "999-01-01 09:00:00";
      ""; ""; "Gavel Alaska"; ""; "01:00"; "TRUE"]]
  ∧ strptime "999-01-01 09:00:00" fmt_Ymd_HMS = None
  ∧ strptime "0999-01-01 09:00:00" fmt_Ymd_HMS = Some (mk_datetime 999 1 1 9 0 0).
Proof. repeat split; vm_compute; reflexivity. Qed.

(** X15: on a text MM/DD/YYYY that names a day of the calendar, month
    and day in two digits and the year in four, [format_short_date] keeps
    month and day and cuts the year to its last two digits; from year
    1000 on the keys [get_meeting_range] writes are such texts. *)
Theorem format_short_date_of_key (dt : datetime) :
  valid dt = true → midnight dt →
  format_short_date
    (zpad 2 (month dt) ++ "/" ++ zpad 2 (day dt) ++ "/" ++ zpad 4 (year dt))
  = zpad 2 (month dt) ++ "/" ++ zpad 2 (day dt) ++ "/" ++ zpad 2 (year dt mod 100)
  ∧ (1000 <= year dt →
     format_short_date (strftime_mdY dt)
     = zpad 2 (month dt) ++ "/" ++ zpad 2 (day dt) ++ "/" ++ zpad 2 (year dt mod 100)).
Proof.
  intros Hv Hm.
  assert (H : format_short_date
                (zpad 2 (month dt) ++ "/" ++ zpad 2 (day dt) ++ "/" ++ zpad 4 (year dt))
              = zpad 2 (month dt) ++ "/" ++ zpad 2 (day dt) ++ "/"
                ++ zpad 2 (year dt mod 100)).
  { unfold format_short_date. by rewrite (strptime_padded_mdY dt Hv Hm). }
  split; [exact H|].
  intros Hy. unfold strftime_mdY. by rewrite (year_text_four _ Hy).
Qed.

Lemma format_short_date_of_key_witness :
  format_short_date "02/29/2024" = "02/29/24"
  ∧ (1000 <= 2024 →
     format_short_date (strftime_mdY (mk_datetime 2024 2 29 0 0 0)) = "02/29/24").
Proof.
  apply (format_short_date_of_key (mk_datetime 2024 2 29 0 0 0)).
  - reflexivity.
  - repeat split.
Defined.

(** The key of a day of year 999 is written with a three-digit year,
    which [format_short_date] hands back as it is. *)
Lemma format_short_date_year_999 :
  strftime_mdY (mk_datetime 999 1 1 0 0 0) = "01/01/999"
  ∧ format_short_date "01/01/999" = "01/01/999"
  ∧ format_short_date "01/01/0999" = "01/01/99".
Proof. repeat split; vm_compute; reflexivity. Qed.

(** ** The date texts the range fetch takes *)

Lemma plus_class_sound (p : ascii → bool) (s : string) :
  ∀ rest, In rest (plus_class p s) → ∃ a, s = a ++ rest ∧ lang (Plus p) a.
Proof.
  induction s as [|c s IH]; intros rest; cbn [plus_class]; [intros []|].
  destruct (p c) eqn:Hc; [|intros []].
  rewrite in_app_iff. intros [Hin | [<- | []]].
  - destruct (IH rest Hin) as (a & -> & Hne & Hall).
    exists (String c a). split; [reflexivity|]. split; [discriminate|].
    cbn. by constructor.
  - exists (String c ""). split; [reflexivity|]. split; [discriminate|].
    cbn. by repeat constructor.
Qed.

(** Whatever way the matcher finds, it has taken a text of the
    expression from the start of the input. *)
Lemma rmatch_sound (r : regex) :
  ∀ s rest, In rest (rmatch r s) → ∃ a, s = a ++ rest ∧ lang r a.
Proof.
  induction r as [c|p|r1 IH1 r2 IH2|r1 IH1 r2 IH2|p]; intros s rest; cbn [rmatch lang].
  - destruct s as [|d s]; [intros []|].
    destruct (Ascii.eqb_spec c d) as [<-|]; [|intros []].
    intros [<- | []]. by exists (String c "").
  - destruct s as [|d s]; [intros []|].
    destruct (p d) eqn:Hd; [|intros []].
    intros [<- | []]. exists (String d ""). split; [reflexivity|]. by exists d.
  - intros Hin. apply in_concat in Hin as (l & Hl & Hin).
    apply in_map_iff in Hl as (mid & <- & Hmid).
    destruct (IH1 _ _ Hmid) as (a1 & -> & H1).
    destruct (IH2 _ _ Hin) as (a2 & -> & H2).
    exists (a1 ++ a2). split; [by rewrite append_assoc|]. by exists a1, a2.
  - rewrite in_app_iff. intros [Hin | Hin].
    + destruct (IH1 _ _ Hin) as (a & -> & Ha). exists a. auto.
    + destruct (IH2 _ _ Hin) as (a & -> & Ha). exists a. auto.
  - apply plus_class_sound.
Qed.

Lemma in_range_cases (lo hi : nat) (c : ascii) :
  in_range lo hi c = true → ∃ k, (k <= hi - lo)%nat ∧ c = chr (lo + k).
Proof.
  unfold in_range, code. rewrite andb_true_iff, !Nat.leb_le. intros [Hlo Hhi].
  exists (nat_of_ascii c - lo)%nat. split; [lia|].
  replace (lo + (nat_of_ascii c - lo))%nat with (nat_of_ascii c) by lia.
  unfold chr. by rewrite ascii_nat_embedding.
Qed.

(** A text is among those listed. *)
Ltac among := apply list_elem_of_In; vm_compute;
              repeat (first [left; reflexivity | right]).

(** The digit of a class of digits, case by case. *)
Ltac digit_cases H :=
  let k := fresh "k" in
  let Hk := fresh "Hk" in
  apply in_range_cases in H as (k & Hk & ->); cbn in Hk;
  solve [repeat (destruct k as [|k]; [among | try lia])].

Lemma lang_dm (a : string) : lang (directive_regex dm) a → a ∈ month_texts.
Proof.
  cbn [directive_regex lang dig digits].
  intros [(? & ? & -> & (c & Hc & ->) & ->)
         | [(? & ? & -> & (c & Hc & ->) & ->) | (c & Hc & ->)]];
    digit_cases Hc.
Qed.

Lemma lang_dd (a : string) : lang (directive_regex dd) a → a ∈ day_texts.
Proof.
  cbn [directive_regex lang dig digits digit].
  intros [(? & ? & -> & (c & Hc & ->) & ->)
         | [(? & ? & (c1 & Hc1 & ->) & (c & Hc & ->) & ->)
         | [(? & ? & -> & (c & Hc & ->) & ->)
         | [(c & Hc & ->)
         | (? & ? & -> & (c & Hc & ->) & ->)]]]].
  - digit_cases Hc.
  - apply in_range_cases in Hc1 as (k1 & Hk1 & ->). cbn in Hk1.
    unfold is_digit in Hc.
    destruct k1 as [|[|k1]]; [| |lia]; digit_cases Hc.
  - digit_cases Hc.
  - digit_cases Hc.
  - digit_cases Hc.
Qed.

Lemma lang_dY (a : string) : lang (directive_regex dY) a → four_digits a = true.
Proof.
  cbn [directive_regex lang digit].
  intros (? & ? & (c1 & H1 & ->) & (? & ? & (c2 & H2 & ->)
          & (? & ? & (c3 & H3 & ->) & (c4 & H4 & ->) & ->) & ->) & ->).
  rewrite !append_cons, !append_nil_l. cbn [four_digits].
  by rewrite H1, H2, H3, H4.
Qed.

Lemma fmatch_char_sound (c : ascii) (tl : list fmt_item) (s : string)
  (fr : list (directive * string) * string) :
  In fr (fmatch (FChar c :: tl) s) →
  ∃ s', s = String c s' ∧ In fr (fmatch tl s').
Proof.
  cbn [fmatch rmatch]. destruct s as [|d s]; [intros []|].
  destruct (Ascii.eqb_spec c d) as [<-|]; [|intros []].
  cbn [map concat]. rewrite app_nil_r. intros Hin. by exists s.
Qed.

Lemma fmatch_dir_sound (d : directive) (tl : list fmt_item) (s : string)
  (fr : list (directive * string) * string) :
  In fr (fmatch (FDir d :: tl) s) →
  ∃ a s' found, s = a ++ s' ∧ lang (directive_regex d) a
                ∧ In (found, snd fr) (fmatch tl s')
                ∧ fst fr = (d, a) :: found.
Proof.
  cbn [fmatch]. intros Hin. apply in_concat in Hin as (l & Hl & Hin).
  apply in_map_iff in Hl as (s' & <- & Hs').
  apply in_map_iff in Hin as ([found rest] & <- & Hfound).
  destruct (rmatch_sound _ _ _ Hs') as (a & -> & Ha).
  exists a, s', found. rewrite consumed_append. by repeat split.
Qed.

(** What [strptime] takes for ["%m/%d/%Y"] reads month/day/year. *)
Lemma strptime_mdY_sound (s : string) (dt : datetime) :
  strptime s fmt_mdY = Some dt → date_text s dt.
Proof.
  unfold strptime.
  destruct (fmatch fmt_mdY s) as [|[found rest] l] eqn:Hm; [discriminate|].
  assert (Hin : In (found, rest) (fmatch fmt_mdY s)) by (rewrite Hm; by left).
  clear Hm. unfold fmt_mdY in Hin.
  apply fmatch_dir_sound in Hin as (m & s1 & f1 & -> & Hlm & Hin & Hf).
  apply fmatch_char_sound in Hin as (s2 & -> & Hin).
  apply fmatch_dir_sound in Hin as (d & s3 & f2 & -> & Hld & Hin & Hf1).
  apply fmatch_char_sound in Hin as (s4 & -> & Hin).
  apply fmatch_dir_sound in Hin as (y & s5 & f3 & -> & Hly & Hin & Hf2).
  cbn [fmatch fst snd] in *. destruct Hin as [[= <- <-] | []]. subst f2 f1 found.
  destruct s5 as [|c rest]; [|discriminate]. cbn [truthy].
  cbn [fold_left set_field fst snd year month day hour minute second].
  destruct (valid _) eqn:Hv; [|discriminate]. intros [= <-].
  exists m, d, y. split; [by apply lang_dm|]. split; [by apply lang_dd|].
  split; [by apply lang_dY|]. rewrite append_nil_r. by repeat split.
Qed.

Lemma rmatch_month (m rest : string) :
  m ∈ month_texts →
  ∃ tail, rmatch (directive_regex dm) (m ++ String "/" rest) = String "/" rest :: tail.
Proof.
  intros Hm. apply list_elem_of_In in Hm. vm_compute in Hm.
  repeat (destruct Hm as [<- | Hm]; [eexists; vm_compute; reflexivity|]).
  destruct Hm.
Qed.

Lemma rmatch_day (d rest : string) :
  d ∈ day_texts →
  ∃ tail, rmatch (directive_regex dd) (d ++ String "/" rest) = String "/" rest :: tail.
Proof.
  intros Hd. apply list_elem_of_In in Hd. vm_compute in Hd.
  repeat (destruct Hd as [<- | Hd]; [eexists; vm_compute; reflexivity|]).
  destruct Hd.
Qed.

Lemma rmatch_year (y rest : string) :
  four_digits y = true → rmatch (directive_regex dY) (y ++ rest) = [rest].
Proof.
  destruct y as [|a [|b [|c [|d [|]]]]]; try discriminate.
  cbn [four_digits]. rewrite !andb_true_iff. intros [[[Ha Hb] Hc] Hd].
  rewrite !append_cons, append_nil_l. cbn [directive_regex rmatch digit].
  rewrite Ha. cbn [map concat app rmatch].
  rewrite Hb. cbn [map concat app rmatch].
  rewrite Hc. cbn [map concat app rmatch].
  rewrite Hd. reflexivity.
Qed.

(** Every text that reads month/day/year and names a day of the calendar
    is taken, as that day. *)
Lemma strptime_mdY_complete (s : string) (dt : datetime) :
  date_text s dt → strptime s fmt_mdY = Some dt.
Proof.
  intros (m & d & y & Hm & Hd & Hy & -> & -> & Hv).
  unfold strptime, fmt_mdY.
  rewrite <- (append_nil_r y) at 1.
  change ("/" ++ d ++ "/" ++ y ++ "") with (String "/" (d ++ String "/" (y ++ ""))).
  destruct (rmatch_month m (d ++ String "/" (y ++ "")) Hm) as [t1 H1].
  destruct (rmatch_day d (y ++ "") Hd) as [t2 H2].
  pose proof (rmatch_year y "" Hy) as H3.
  destruct (fmatch_dir dY [] _ _ _ [] "" [] H3 eq_refl) as [t3 F3].
  destruct (fmatch_dir dd (FChar (chr 47) :: [FDir dY]) _ _ _ _ _ _ H2
              (eq_trans (fmatch_char _ _ _) F3)) as [t4 F4].
  destruct (fmatch_dir dm (FChar (chr 47) :: FDir dd :: FChar (chr 47) :: [FDir dY])
              _ _ _ _ _ _ H1 (eq_trans (fmatch_char _ _ _) F4)) as [t5 F5].
  rewrite F5. cbn [truthy fold_left set_field fst snd
                     year month day hour minute second].
  change (String "/" (d ++ String "/" (y ++ "")))
    with ("/" ++ d ++ String "/" (y ++ "")).
  change (String "/" (y ++ "")) with ("/" ++ y ++ "").
  rewrite !consumed_append. by rewrite Hv.
Qed.

Lemma strptime_mdY_iff (s : string) (dt : datetime) :
  strptime s fmt_mdY = Some dt ↔ date_text s dt.
Proof. split; [apply strptime_mdY_sound | apply strptime_mdY_complete]. Qed.

Lemma strptime_mdY_none (s : string) :
  (¬ ∃ dt, date_text s dt) → strptime s fmt_mdY = None.
Proof.
  intros Hnot. destruct (strptime s fmt_mdY) as [dt|] eqn:Hs; [|reflexivity].
  exfalso. apply Hnot. exists dt. by apply strptime_mdY_sound.
Qed.

Lemma range_loop_no_error (get_meetings : string → FetchResult) (fuel : nat) :
  ∀ current end_ meetings_by_date fetched error,
    fst (range_loop get_meetings fuel current end_ meetings_by_date fetched)
    ≠ RangeError error.
Proof.
  induction fuel as [|fuel IH]; intros current end_ m fetched error;
    cbn [range_loop]; [discriminate|].
  destruct (PyDate.le current end_); [|discriminate]. cbv zeta.
  destruct (add_day current); [apply IH | discriminate].
Qed.

(** C9, as the code has it: [get_meeting_range] returns an error value
    naming the cause, and has requested no day from the API, when either
    text does not read month/day/year (the month 1 to 12 in one or two
    digits, the day in one or two digits or in one digit after a blank,
    the year in four digits, together a day of the calendar), or when both
    do and the end lies more than 30 days after the start; on any other
    pair of texts it returns no error value. *)
Theorem get_meeting_range_rejects (get_meetings : string -> FetchResult)
  (start_date end_date : string) :
  ((¬ ∃ start, date_text start_date start) ∨ (¬ ∃ end_, date_text end_date end_) →
   get_meeting_range get_meetings start_date end_date
   = (RangeError "Invalid date format. Please use MM/DD/YYYY.", []))
  ∧ (∀ start end_,
       date_text start_date start → date_text end_date end_ →
       (30 < toordinal end_ - toordinal start →
        get_meeting_range get_meetings start_date end_date
        = (RangeError "Date range too large. Maximum range is 30 days.", []))
       ∧ (toordinal end_ - toordinal start <= 30 →
          ∀ error, fst (get_meeting_range get_meetings start_date end_date)
                   ≠ RangeError error)).
Proof.
  unfold get_meeting_range. split.
  - intros [H | H]; rewrite (strptime_mdY_none _ H); [reflexivity|].
    destruct (strptime start_date fmt_mdY); reflexivity.
  - intros start end_ Hs He.
    apply strptime_mdY_complete in Hs, He. rewrite Hs, He.
    rewrite (days_between_midnight start end_)
      by eauto using strptime_mdY_midnight.
    split; intros Hspan.
    + destruct (Z.ltb_spec 30 (toordinal end_ - toordinal start)); [reflexivity | lia].
    + destruct (Z.ltb_spec 30 (toordinal end_ - toordinal start)); [lia|].
      intros error. apply range_loop_no_error.
Qed.

Lemma dashed_text_is_no_date : ¬ ∃ dt, date_text "2025-04-22" dt.
Proof.
  intros [dt Hdt]. apply strptime_mdY_complete in Hdt. discriminate.
Qed.

Lemma april_texts_are_dates :
  date_text "04/01/2025" (mk_datetime 2025 4 1 0 0 0)
  ∧ date_text "05/02/2025" (mk_datetime 2025 5 2 0 0 0)
  ∧ date_text "4/5/2025" (mk_datetime 2025 4 5 0 0 0)
  ∧ date_text "4/ 5/2025" (mk_datetime 2025 4 5 0 0 0).
Proof. repeat split; by apply strptime_mdY_sound. Qed.

Lemma get_meeting_range_rejects_witness :
  get_meeting_range no_meetings "2025-04-22" "04/30/2025"
  = (RangeError "Invalid date format. Please use MM/DD/YYYY.", [])
  ∧ get_meeting_range no_meetings "04/01/2025" "05/02/2025"
    = (RangeError "Date range too large. Maximum range is 30 days.", []).
Proof.
  split.
  - apply (proj1 (get_meeting_range_rejects no_meetings "2025-04-22" "04/30/2025")).
    left. exact dashed_text_is_no_date.
  - apply (proj1 (proj2 (get_meeting_range_rejects no_meetings "04/01/2025" "05/02/2025")
                    (mk_datetime 2025 4 1 0 0 0) (mk_datetime 2025 5 2 0 0 0)
                    (proj1 april_texts_are_dates)
                    (proj1 (proj2 april_texts_are_dates)))).
    vm_compute. reflexivity.
Defined.

(** C9 as the spec words it fails: "4/5/2025" and "4/ 5/2025" are not in
    the form MM/DD/YYYY, yet the range fetch takes them, returns no error
    value and requests the day. *)
Lemma loose_dates_fetched :
  mmddyyyy_form "04/05/2025" = true
  ∧ mmddyyyy_form "4/5/2025" = false
  ∧ mmddyyyy_form "4/ 5/2025" = false
  ∧ get_meeting_range no_meetings "4/5/2025" "4/ 5/2025"
    = (RangeMeetings {[ "04/05/2025" := FetchMeetings [] ]}, ["04/05/2025"]).
Proof. repeat split; vm_compute; reflexivity. Qed.

(** ** The event filter *)

Lemma to_lower_space (c : ascii) : is_space (to_lower c) = is_space c.
Proof.
  unfold to_lower. destruct (is_upper c) eqn:Hu; [|reflexivity].
  unfold is_upper, is_space, in_range in *. unfold code in *.
  apply andb_true_iff in Hu as [H1 H2].
  apply Nat.leb_le in H1, H2.
  rewrite nat_ascii_embedding by lia.
  repeat match goal with
         | |- context [Nat.leb ?a ?b] => destruct (Nat.leb_spec a b)
         end; cbn; try reflexivity; lia.
Qed.

Lemma lower_starts (s : string) : starts_with_space (lower s) = starts_with_space s.
Proof. destruct s; [reflexivity|]. cbn. apply to_lower_space. Qed.

Lemma lower_ends (s : string) : ends_with_space (lower s) = ends_with_space s.
Proof.
  unfold lower. induction s as [|c s IH]; [reflexivity|].
  destruct s as [|c' s]; [cbn; apply to_lower_space|].
  cbn [map_chars] in *. rewrite !ends_with_space_cons by discriminate. exact IH.
Qed.

Lemma lstrip_padding (pre s : string) :
  all_space pre = true → lstrip (pre ++ s) = lstrip s.
Proof.
  induction pre as [|c pre IH]; [reflexivity|]. cbn [all_space].
  intros H. apply andb_true_iff in H as [Hc Hp].
  rewrite append_cons. cbn [lstrip]. rewrite Hc. by apply IH.
Qed.

Lemma rstrip_all_space (post : string) : all_space post = true → rstrip post = "".
Proof.
  induction post as [|c post IH]; [reflexivity|]. cbn [all_space].
  intros H. apply andb_true_iff in H as [Hc Hp].
  cbn [rstrip]. by rewrite (IH Hp), Hc.
Qed.

Lemma rstrip_padding (s post : string) :
  all_space post = true → rstrip (s ++ post) = rstrip s.
Proof.
  intros Hp. induction s as [|c s IH].
  - rewrite append_nil_l. by apply rstrip_all_space.
  - rewrite append_cons. cbn [rstrip]. by rewrite IH.
Qed.

Lemma strip_padding (pre core post : string) :
  all_space pre = true → all_space post = true →
  starts_with_space core = false → ends_with_space core = false →
  strip (pre ++ core ++ post) = core.
Proof.
  intros Hpre Hpost Hs He. unfold strip. rewrite (lstrip_padding _ _ Hpre).
  destruct core as [|c core].
  - rewrite append_nil_l.
    assert (Hl : ∀ p, all_space p = true → lstrip p = "").
    { induction p as [|x p IH]; [reflexivity|]. cbn [all_space lstrip].
      intros H. apply andb_true_iff in H as [-> Hp]. by apply IH. }
    by rewrite (Hl post Hpost).
  - rewrite lstrip_id by (rewrite append_cons; exact Hs).
    rewrite (rstrip_padding _ _ Hpost). by apply rstrip_id.
Qed.

Lemma lstrip_split (s : string) :
  ∃ pre, all_space pre = true ∧ s = pre ++ lstrip s.
Proof.
  induction s as [|c s (pre & Hp & Hs)]; [by exists ""|].
  cbn [lstrip]. destruct (is_space c) eqn:Hc.
  - exists (String c pre). cbn [all_space]. rewrite Hc, Hp.
    split; [reflexivity|]. rewrite append_cons. by f_equal.
  - by exists "".
Qed.

Lemma rstrip_split (s : string) :
  ∃ post, all_space post = true ∧ s = rstrip s ++ post.
Proof.
  induction s as [|c s (post & Hp & Hs)]; [by exists ""|].
  cbn [rstrip]. destruct (rstrip s) as [|c' r] eqn:Hr.
  - rewrite append_nil_l in Hs. subst post.
    destruct (is_space c) eqn:Hc.
    + exists (String c s). cbn [all_space]. by rewrite Hc, Hp.
    + exists s. by split.
  - exists post. split; [exact Hp|]. rewrite append_cons. by f_equal.
Qed.

(** X16: a record is filtered out exactly when one of its slices has as
    highlight the words "no meeting scheduled", in any letter case, with
    any white space before and after and nothing else. *)
Theorem should_skip_event_iff (meeting : Meeting) :
  should_skip_event meeting = true
  ↔ ∃ slice pre core post,
      slice ∈ default [] (MeetingSlices meeting)
      ∧ text_of (SliceHighliteText slice) = pre ++ core ++ post
      ∧ all_space pre = true ∧ all_space post = true
      ∧ lower core = "no meeting scheduled".
Proof.
  unfold should_skip_event, text_of. rewrite existsb_exists. split.
  - intros (slice & Hin & Heq). apply String.eqb_eq in Heq.
    set (h := default "" (SliceHighliteText slice)) in *.
    destruct (lstrip_split h) as (pre & Hpre & Hh).
    destruct (rstrip_split (lstrip h)) as (post & Hpost & Hl).
    exists slice, pre, (strip h), post.
    split; [by apply list_elem_of_In|]. split; [|by repeat split].
    unfold strip. by rewrite <- Hl.
  - intros (slice & pre & core & post & Hin & Hh & Hpre & Hpost & Hcore).
    exists slice. split; [by apply list_elem_of_In|].
    apply String.eqb_eq. rewrite Hh, strip_padding; try assumption.
    + by rewrite <- lower_starts, Hcore.
    + by rewrite <- lower_ends, Hcore.
Qed.

(** ** The route that exports to the broadcast dialect *)

Lemma selection_step_encoders (form : Form)
  (dicts : gmap string string * gmap string string) (meeting_id id v : string) :
  (selection_step form dicts meeting_id).1 !! id = Some v →
  dicts.1 !! id = Some v
  ∨ (id = meeting_id ∧ form_get form ("encoder_" ++ id) = Some v ∧ v ≠ "").
Proof.
  destruct dicts as [encoders categories]. unfold selection_step. cbv zeta.
  cbn [fst]. destruct (form_get form ("encoder_" ++ meeting_id)) as [x|] eqn:Hx;
    cbn [opt_truthy]; [|by left].
  destruct (truthy x) eqn:Ht; [|by left].
  destruct (decide (meeting_id = id)) as [->|Hne].
  - rewrite lookup_insert_eq. intros [= <-]. right.
    split; [reflexivity|]. split; [exact Hx | by apply truthy_ne].
  - rewrite lookup_insert_ne by exact Hne. by left.
Qed.

Lemma selection_fold_encoders (form : Form) (selected : list string) :
  ∀ dicts id v,
    (fold_left (selection_step form) selected dicts).1 !! id = Some v →
    dicts.1 !! id = Some v
    ∨ (id ∈ selected ∧ form_get form ("encoder_" ++ id) = Some v ∧ v ≠ "").
Proof.
  induction selected as [|meeting_id selected IH]; intros dicts id v; [by left|].
  cbn [fold_left]. intros H. apply IH in H as [H | (Hin & Hf & Hv)].
  - apply selection_step_encoders in H as [H | (-> & Hf & Hv)]; [by left|].
    right. split; [by left | by split].
  - right. split; [by right | by split].
Qed.

(** X17: every row of the file the route [/export_invintus] returns is
    the row of a meeting whose identifier was selected in the form and for
    which the form has a non-empty encoder choice; the encoder column is
    that choice.  So a selected meeting with no encoder chosen is left out
    of the file, and no row has a blank encoder. *)
Theorem export_invintus_rows (get_meetings : string -> FetchResult) (form : Form)
  (body filename : string) (requested : list string) :
  export_invintus get_meetings form = (CsvResponse body filename, requested) →
  ∃ rows,
    body = write_rows (invintus_fields :: rows)
    ∧ ∀ row, row ∈ rows →
        ∃ id encoder,
          column "customID" invintus_fields row = Some id
          ∧ id ∈ form_getlist form "selected_meetings"
          ∧ column "encoder" invintus_fields row = Some encoder
          ∧ encoder ≠ ""
          ∧ form_get form ("encoder_" ++ id) = Some encoder.
Proof.
  unfold export_invintus. cbv zeta.
  destruct (nonempty (form_getlist form "selected_meetings")); [|discriminate].
  cbn [negb].
  destruct (get_meetings (default "" (form_get form "date_info")))
    as [error | meetings_data]; [discriminate|].
  destruct (fold_left (selection_step form) (form_getlist form "selected_meetings") (∅, ∅))
    as [encoders categories] eqn:Hfold.
  intros [= <- _ _]. unfold format_meetings_invintus_csv.
  eexists. split; [reflexivity|].
  intros row Hrow. unfold format_meetings_invintus_rows in Hrow.
  apply list_elem_of_omap in Hrow as (meeting & _ & Hrow).
  rewrite invintus_row_cases in Hrow.
  destruct (should_skip_event meeting); [discriminate|].
  destruct (jointly_parsed meeting) as [dt|]; [|discriminate].
  destruct (encoders !! generate_custom_id meeting) as [selected|] eqn:Hsel;
    [|discriminate].
  injection Hrow as <-.
  pose proof (selection_fold_encoders form (form_getlist form "selected_meetings")
                (∅, ∅) (generate_custom_id meeting) selected) as Hsf.
  rewrite Hfold in Hsf. cbn [fst] in Hsf.
  destruct (Hsf Hsel) as [Hempty | (Hin & Hf & Hv)];
    [by rewrite lookup_empty in Hempty|].
  exists (generate_custom_id meeting), selected.
  split; [reflexivity|]. split; [exact Hin|]. split.
  - cbn. apply truthy_ne in Hv. by rewrite Hv.
  - by split.
Qed.

Lemma export_invintus_rows_witness :
  ∃ rows,
    format_meetings_invintus_csv [meeting_hfin] selection_hfin ∅ "01:30" false
    = write_rows (invintus_fields :: rows)
    ∧ ∀ row, row ∈ rows →
        ∃ id encoder,
          column "customID" invintus_fields row = Some id
          ∧ id ∈ form_getlist form_hfin "selected_meetings"
          ∧ column "encoder" invintus_fields row = Some encoder
          ∧ encoder ≠ ""
          ∧ form_get form_hfin ("encoder_" ++ id) = Some encoder.
Proof.
  apply (export_invintus_rows meetings_hfin form_hfin
           (format_meetings_invintus_csv [meeting_hfin] selection_hfin ∅ "01:30" false)
           "invintus_meetings_04-22-2025.csv" ["04/22/2025"]).
  vm_compute. reflexivity.
Defined.

(** A selected meeting for which the form has no encoder gets no row: the
    file is the header line alone. *)
Lemma export_invintus_without_encoder :
  export_invintus meetings_hfin
    [("date_info", "04/22/2025"); ("selected_meetings", "H-FIN20250422133000");
     ("encoder_H-FIN20250422133000", "")]
  = (CsvResponse (writerow invintus_fields) "invintus_meetings_04-22-2025.csv",
     ["04/22/2025"]).
Proof. vm_compute. reflexivity. Qed.

(** ** Slices the aggregator ignores *)

Lemma agg_step_ignorable (st : AggState) (slice : Slice) :
  ignorable slice = true → agg_step st slice = st.
Proof.
  unfold ignorable, present, text_of, agg_step. cbv zeta.
  rewrite <- default_truthy_present. intros H.
  apply andb_true_iff in H as [Hb Hh]. apply negb_true_iff in Hb. rewrite Hb.
  cbn [negb andb].
  destruct (truthy (default "" (SliceHighliteText slice))); cbn [negb orb andb] in *;
    [|reflexivity].
  apply negb_true_iff in Hh. rewrite Hh.
  destruct (opt_truthy (current_bill st)); reflexivity.
Qed.

Lemma general_step_ignorable (used : gset string) (acc : list string) (slice : Slice) :
  ignorable slice = true → general_step used acc slice = acc.
Proof.
  unfold ignorable, present, text_of, general_step. cbv zeta.
  rewrite <- default_truthy_present. intros H.
  apply andb_true_iff in H as [Hb Hh]. apply negb_true_iff in Hb. rewrite Hb.
  cbn [negb andb].
  destruct (truthy (default "" (SliceHighliteText slice))); cbn [negb orb andb] in *;
    [|reflexivity].
  apply negb_true_iff in Hh. by rewrite Hh.
Qed.

Lemma fold_left_ignore {A} (f : A → Slice → A) (l : list Slice) :
  (∀ a slice, ignorable slice = true → f a slice = a) →
  ∀ a, fold_left f (List.filter (fun slice => negb (ignorable slice)) l) a
       = fold_left f l a.
Proof.
  intros Hf. induction l as [|slice l IH]; intros a; [reflexivity|].
  cbn [List.filter fold_left]. destruct (ignorable slice) eqn:Hi; cbn [negb].
  - by rewrite (Hf a slice Hi).
  - cbn [fold_left]. apply IH.
Qed.

(** X18: slices that carry no bill and whose highlight is empty or a
    cancellation marker do not count: removing them from a meeting leaves
    the bill groups and the general items as they are. *)
Theorem ignorable_slices_dropped (meeting cleaned : Meeting) :
  default [] (MeetingSlices cleaned)
  = List.filter (fun slice => negb (ignorable slice))
                (default [] (MeetingSlices meeting)) →
  extract_bills_with_details cleaned = extract_bills_with_details meeting.
Proof.
  intros Hc. unfold extract_bills_with_details, agg_run. cbv zeta. rewrite Hc.
  rewrite (fold_left_ignore agg_step _ (fun st s => agg_step_ignorable st s)).
  by rewrite (fold_left_ignore (general_step _) _
                (fun acc s => general_step_ignorable _ acc s)).
Qed.

Lemma ignorable_slices_dropped_witness :
  extract_bills_with_details
    (meeting_of_slices [mk_slice (Some "HB1") (Some "Public testimony") None;
                        mk_slice None (Some "Overview") None])
  = extract_bills_with_details (meeting_of_slices slices_noise).
Proof.
  apply (ignorable_slices_dropped (meeting_of_slices slices_noise)). reflexivity.
Defined.

(** ** When the CSV description is the description shown *)

(** X19: the description written to a CSV file is the description shown
    when that one contains no streaming annotation, neither of the
    artifacts [" |  | "] and [" | |"], and no white space at its ends. *)
Theorem csv_description_unchanged (meeting : Meeting) :
  let shown := build_description meeting false in
  contains streaming_info shown = false →
  contains " |  | " shown = false →
  contains " | |" shown = false →
  starts_with_space shown = false →
  ends_with_space shown = false →
  build_description meeting true = shown.
Proof.
  cbv zeta. intros Hinfo Hsep Hdbl Hs He.
  rewrite build_description_for_csv. unfold strip_streaming_info.
  rewrite (replace_absent _ _ _ Hinfo), (replace_absent _ _ _ Hsep).
  rewrite (strip_id _ Hs He), (collapse_separators_id _ _ Hdbl).
  by rewrite (endswith_space " | " _ eq_refl He).
Qed.

Lemma csv_description_unchanged_witness :
  build_description (meeting_of_slices example_slices) true
  = build_description (meeting_of_slices example_slices) false.
Proof.
  apply (csv_description_unchanged (meeting_of_slices example_slices));
    vm_compute; reflexivity.
Defined.
